(** * PM Command Center: budget worksheet and response-section locking

    A shallow embedding of
    - [client/src/components/rich-text-editor.tsx] (component [BudgetSheet]:
      rate resolution, role category, row / year / grand totals, row edits,
      the initial rows, [saveMutation], [addRow], [removeRow] and the
      category tabs),
    - [client/src/components/response-editor.tsx] (lock toggle, assignment,
      [canEdit], [loadTemplate], [handleFileUpload],
      [handleSectionContentChange]),
    - [server/routes.ts] and the storage class ([PATCH
      /api/response-sections/:id], [updateResponseSection], the save, create
      and delete routes of sections, [searchRfps]),
    - [shared/schema.ts] (the [users], [response_sections], [budget_items],
      [templates] and [rfps] tables).

    JavaScript [number]s are IEEE-754 binary64 values and are modelled by
    Rocq's primitive [float]; where rounding errors are bounded, their
    exact values are read as real numbers.  Strings are modelled by
    [string] (titles and keywords are ASCII text).  The database is
    modelled as far as the code depends on it: the [response_sections]
    table with its [serial] key and its foreign keys to [users]. *)

From Stdlib Require Import ZArith Floats String Ascii List Bool Lia Reals Lra.
From stdpp Require Import gmap strings.

Import ListNotations.
Local Open Scope string_scope.

(** ** JavaScript primitives used by the two components *)

Module Js.

(** [number] *)
Definition number := float.

(** Truthiness of a number: [0], [-0] and [NaN] are falsy. *)
Definition truthy (x : number) : bool :=
  negb (PrimFloat.is_nan x || PrimFloat.is_zero x).

(** [x || y] on numbers. *)
Definition or_else (x y : number) : number :=
  if truthy x then x else y.

(** [x || null] on numbers. *)
Definition or_null (x : number) : option number :=
  if truthy x then Some x else None.

(** Truthiness of a nullable boolean column ([boolean | null]). *)
Definition truthy_bool (b : option bool) : bool :=
  match b with Some true => true | _ => false end.

(** Truthiness of a nullable string: [null] and the empty string are falsy. *)
Definition truthy_string (s : option string) : bool :=
  match s with
  | Some (String _ _) => true
  | _ => false
  end.

(** [s || <empty string>] on a nullable string. *)
Definition string_or_empty (s : option string) : string :=
  match s with Some t => t | None => EmptyString end.

(** [String.prototype.toLowerCase], on ASCII text: the letters [A]..[Z]
    go to [a]..[z], every other character is kept. *)
Definition lower_ascii (c : ascii) : ascii :=
  let n := nat_of_ascii c in
  if (65 <=? n)%nat && (n <=? 90)%nat then ascii_of_nat (n + 32) else c.

Fixpoint toLowerCase (s : string) : string :=
  match s with
  | EmptyString => EmptyString
  | String c s' => String (lower_ascii c) (toLowerCase s')
  end.

(** [s.includes(kw)]: [kw] occurs in [s] as a contiguous substring. *)
Fixpoint includes (s kw : string) : bool :=
  String.prefix kw s ||
  match s with
  | EmptyString => false
  | String _ s' => includes s' kw
  end.

(** *** [parseFloat]

    The decimal literals that reach [parseFloat] in the two components:
    an optional sign, digits, an optional fraction and an optional
    exponent, read as the longest such prefix of the text; anything else
    is [NaN].  The result is the binary64 value nearest to the decimal
    one (ties to even), computed on exact integers. *)

Definition digit_of (c : ascii) : option Z :=
  let n := nat_of_ascii c in
  if (48 <=? n)%nat && (n <=? 57)%nat then Some (Z.of_nat (n - 48)) else None.

(** Reads a run of digits: the accumulated value, how many digits were
    read, and the rest of the text. *)
Fixpoint read_digits (s : string) (acc : Z) (count : Z) : Z * Z * string :=
  match s with
  | EmptyString => (acc, count, s)
  | String c s' =>
      match digit_of c with
      | Some d => read_digits s' (10 * acc + d)%Z (count + 1)%Z
      | None => (acc, count, s)
      end
  end.

(** The exponent part [e[+-]digits], when present and well formed. *)
Definition read_exponent (s : string) : Z :=
  match s with
  | String c s' =>
      if (Ascii.eqb c "e" || Ascii.eqb c "E")%bool then
        let '(neg, s'') :=
          match s' with
          | String "-" t => (true, t)
          | String "+" t => (false, t)
          | _ => (false, s')
          end in
        let '(e, n, _) := read_digits s'' 0%Z 0%Z in
        if (n =? 0)%Z then 0%Z else if neg then (- e)%Z else e
      else 0%Z
  | EmptyString => 0%Z
  end.

(** The binary64 value nearest to [m * 10 ^ e], for [m >= 0]. *)
Definition round_decimal (neg : bool) (m e : Z) : spec_float :=
  match m with
  | Z0 => S754_zero neg
  | Zneg _ => S754_nan
  | Zpos p =>
      if (0 <=? e)%Z then
        binary_round prec emax neg (Pos.mul p (Z.to_pos (10 ^ e))) 0
      else
        let '(q, e', l) :=
          SFdiv_core_binary prec emax (Zpos p) 0 (10 ^ (- e))%Z 0 in
        binary_round_aux prec emax neg q e' l
  end.

Definition parseFloat (s : string) : number :=
  let '(neg, s1) :=
    match s with
    | String "-" t => (true, t)
    | String "+" t => (false, t)
    | _ => (false, s)
    end in
  let '(ip, ni, s2) := read_digits s1 0%Z 0%Z in
  let '(m, nf, s3) :=
    match s2 with
    | String "." t => read_digits t ip 0%Z
    | _ => (ip, 0%Z, s2)
    end in
  if ((ni + nf) =? 0)%Z then PrimFloat.nan
  else SF2Prim (round_decimal neg m (read_exponent s3 - nf)).

End Js.

(** ** [shared/schema.ts]: the rows the two components read *)

(** A row of the [users] table.  The [decimal] column [hourly_rate] is
    delivered as text, and both it and [title] are nullable. *)
Module User.
Record t := mk {
  id : string;
  username : string;
  password : string;
  email : string;
  fullName : string;
  role : string;
  hourlyRate : option string;
  title : option string
}.
End User.

(** A row of the [response_sections] table.  [is_locked] has a default but
    no [NOT NULL], so it is a nullable boolean; time stamps are abstract
    instants. *)
Module ResponseSection.
Record t := mk {
  id : Z;
  responseId : Z;
  title : string;
  content : string;
  orderIndex : Z;
  assignedUserId : option string;
  isLocked : option bool;
  lockedByPmId : option string;
  createdAt : Z;
  updatedAt : Z
}.
End ResponseSection.

(** ** [BudgetSheet] in [rich-text-editor.tsx] *)

Module BudgetRow.
Record t := mk {
  id : Z;
  userId : string;
  customTitle : string;
  customRate : option Js.number;
  year1 : Js.number;
  year2 : Js.number;
  year3 : Js.number;
  year4 : Js.number;
  year5 : Js.number
}.
End BudgetRow.

(** The year argument of [calculateYearTotal], of type [1 | 2 | 3 | 4 | 5]. *)
Inductive Year := Y1 | Y2 | Y3 | Y4 | Y5.

Definition all_years : list Year := [Y1; Y2; Y3; Y4; Y5].

(** [row[`year${year}`]] *)
Definition yearHours (row : BudgetRow.t) (year : Year) : Js.number :=
  match year with
  | Y1 => BudgetRow.year1 row
  | Y2 => BudgetRow.year2 row
  | Y3 => BudgetRow.year3 row
  | Y4 => BudgetRow.year4 row
  | Y5 => BudgetRow.year5 row
  end.

(** The object literal [DEFAULT_HOURLY_RATES], read by static keys only. *)
Module RateTable.
Record t := mk {
  principal : Js.number;
  consultant : Js.number;
  research_associate : Js.number;
  managing_director : Js.number;
  copy_editor : Js.number;
  default : Js.number
}.
End RateTable.

Definition DEFAULT_HOURLY_RATES : RateTable.t :=
  {| RateTable.principal := 250%float;
     RateTable.consultant := 175%float;
     RateTable.research_associate := 125%float;
     RateTable.managing_director := 300%float;
     RateTable.copy_editor := 100%float;
     RateTable.default := 150%float |}.

(** [users.find(u => u.id === userId)] *)
Definition findUser (users : list User.t) (userId : string) : option User.t :=
  List.find (fun u => String.eqb (User.id u) userId) users.

(** [user?.title || <empty string>] *)
Definition titleOrEmpty (user : option User.t) : string :=
  match user with
  | Some u => Js.string_or_empty (User.title u)
  | None => EmptyString
  end.

(** The edits that reach [updateRow(id, field, value)]: the team-member
    select, the title input, the rate input and the five hours inputs. *)
Inductive RowEdit :=
| EditUserId (value : string)
| EditCustomTitle (value : string)
| EditCustomRate (value : option Js.number)
| EditYear (year : Year) (value : Js.number).

(** [{ ...r, [field]: value }], with the title reset that goes with a
    change of [userId]. *)
Definition applyEdit (users : list User.t) (r : BudgetRow.t) (e : RowEdit)
  : BudgetRow.t :=
  let '(BudgetRow.mk i u t c h1 h2 h3 h4 h5) := r in
  match e with
  | EditUserId v => BudgetRow.mk i v (titleOrEmpty (findUser users v)) c h1 h2 h3 h4 h5
  | EditCustomTitle v => BudgetRow.mk i u v c h1 h2 h3 h4 h5
  | EditCustomRate v => BudgetRow.mk i u t v h1 h2 h3 h4 h5
  | EditYear Y1 v => BudgetRow.mk i u t c v h2 h3 h4 h5
  | EditYear Y2 v => BudgetRow.mk i u t c h1 v h3 h4 h5
  | EditYear Y3 v => BudgetRow.mk i u t c h1 h2 v h4 h5
  | EditYear Y4 v => BudgetRow.mk i u t c h1 h2 h3 v h5
  | EditYear Y5 v => BudgetRow.mk i u t c h1 h2 h3 h4 v
  end.

Section BudgetSheet.

(** The [users] prop of the component. *)
Variable users : list User.t.

Definition addRow (now : Z) (rows : list BudgetRow.t) : list BudgetRow.t :=
  match users with
  | [] => rows
  | _ =>
      let unusedUsers :=
        List.filter
          (fun u => negb (List.existsb
                            (fun r => String.eqb (BudgetRow.userId r) (User.id u))
                            rows))
          users in
      match unusedUsers with
      | [] => rows
      | user :: _ =>
          rows ++ [ BudgetRow.mk now (User.id user)
                      (Js.string_or_empty (User.title user)) None
                      0%float 0%float 0%float 0%float 0%float ]
      end
  end.


Definition updateRow (id : Z) (e : RowEdit) (rows : list BudgetRow.t)
  : list BudgetRow.t :=
  List.map (fun r => if negb (Z.eqb (BudgetRow.id r) id) then r
                     else applyEdit users r e) rows.

Definition getDefaultRate (userId : string) : Js.number :=
  match findUser users userId with
  | None => RateTable.default DEFAULT_HOURLY_RATES
  | Some user =>
      let title := Js.toLowerCase (Js.string_or_empty (User.title user)) in
      if Js.includes title "principal"
      then RateTable.principal DEFAULT_HOURLY_RATES
      else if Js.includes title "managing" || Js.includes title "director"
      then RateTable.managing_director DEFAULT_HOURLY_RATES
      else if Js.includes title "consultant"
      then RateTable.consultant DEFAULT_HOURLY_RATES
      else if Js.includes title "research" || Js.includes title "associate"
      then RateTable.research_associate DEFAULT_HOURLY_RATES
      else if Js.includes title "copy" || Js.includes title "editor"
      then RateTable.copy_editor DEFAULT_HOURLY_RATES
      else if Js.truthy_string (User.hourlyRate user)
      then Js.parseFloat (Js.string_or_empty (User.hourlyRate user))
      else RateTable.default DEFAULT_HOURLY_RATES
  end.

Definition getEffectiveRate (row : BudgetRow.t) : Js.number :=
  match BudgetRow.customRate row with
  | Some rate => rate
  | None => getDefaultRate (BudgetRow.userId row)
  end.

Definition getRoleCategory (row : BudgetRow.t) : string :=
  let title := Js.toLowerCase (BudgetRow.customTitle row) in
  if Js.includes title "principal" then "principal"
  else if Js.includes title "managing" || Js.includes title "director"
  then "managing_director"
  else if Js.includes title "consultant" then "consultant"
  else if Js.includes title "research" || Js.includes title "associate"
  then "research_associate"
  else if Js.includes title "copy" || Js.includes title "editor"
  then "copy_editor"
  else "default".

Definition calculateRowTotal (row : BudgetRow.t) : Js.number :=
  let rate := getEffectiveRate row in
  let totalHours :=
    (BudgetRow.year1 row + BudgetRow.year2 row + BudgetRow.year3 row
     + BudgetRow.year4 row + BudgetRow.year5 row)%float in
  (totalHours * rate)%float.

Definition calculateYearTotal (rows : list BudgetRow.t) (year : Year)
  : Js.number :=
  List.fold_left
    (fun sum row =>
       let hours := yearHours row year in
       let rate := getEffectiveRate row in
       (sum + hours * rate)%float)
    rows 0%float.

Definition grandTotal (rows : list BudgetRow.t) : Js.number :=
  List.fold_left (fun sum row => (sum + calculateRowTotal row)%float)
    rows 0%float.

(** The rate input: [updateRow(row.id, "customRate",
    parseFloat(e.target.value) || null)]. *)
Definition rateInputOnChange (id : Z) (text : string)
    (rows : list BudgetRow.t) : list BudgetRow.t :=
  updateRow id (EditCustomRate (Js.or_null (Js.parseFloat text))) rows.

(** An hours input: [updateRow(row.id, `year${year}`,
    parseFloat(e.target.value) || 0)]. *)
Definition hoursInputOnChange (id : Z) (year : Year) (text : string)
    (rows : list BudgetRow.t) : list BudgetRow.t :=
  updateRow id (EditYear year (Js.or_else (Js.parseFloat text) 0%float)) rows.

(** The title input: [updateRow(row.id, "customTitle", e.target.value)]. *)
Definition titleInputOnChange (id : Z) (text : string)
    (rows : list BudgetRow.t) : list BudgetRow.t :=
  updateRow id (EditCustomTitle text) rows.

End BudgetSheet.

(** ** Server side: [updateResponseSection] and the PATCH route *)

(** [Partial<InsertResponseSection>]: every insertable column may be absent
    ([None]); a nullable column that is present may carry [null]. *)
Module SectionPatch.
Record t := mk {
  responseId : option Z;
  title : option string;
  content : option string;
  orderIndex : option Z;
  assignedUserId : option (option string);
  isLocked : option (option bool);
  lockedByPmId : option (option string)
}.

Definition empty : t := mk None None None None None None None.
End SectionPatch.

(** [present || old]: the column keeps its value when the patch is silent. *)
Definition patched {A : Type} (new : option A) (old : A) : A :=
  match new with Some v => v | None => old end.

(** [.set({ ...updateData, updatedAt: new Date() })] on one row. *)
Definition setColumns (now : Z) (p : SectionPatch.t) (s : ResponseSection.t)
  : ResponseSection.t :=
  {| ResponseSection.id := ResponseSection.id s;
     ResponseSection.responseId :=
       patched (SectionPatch.responseId p) (ResponseSection.responseId s);
     ResponseSection.title :=
       patched (SectionPatch.title p) (ResponseSection.title s);
     ResponseSection.content :=
       patched (SectionPatch.content p) (ResponseSection.content s);
     ResponseSection.orderIndex :=
       patched (SectionPatch.orderIndex p) (ResponseSection.orderIndex s);
     ResponseSection.assignedUserId :=
       patched (SectionPatch.assignedUserId p) (ResponseSection.assignedUserId s);
     ResponseSection.isLocked :=
       patched (SectionPatch.isLocked p) (ResponseSection.isLocked s);
     ResponseSection.lockedByPmId :=
       patched (SectionPatch.lockedByPmId p) (ResponseSection.lockedByPmId s);
     ResponseSection.createdAt := ResponseSection.createdAt s;
     ResponseSection.updatedAt := now |}.

(** The [response_sections] table, keyed by its primary key. *)
Abbreviation SectionTable := (gmap Z ResponseSection.t).

(** The range of the [serial] key (a 32-bit integer). *)
Definition isInt4 (n : Z) : bool :=
  (-2147483648 <=? n)%Z && (n <=? 2147483647)%Z.

(** [.references(() => users.id)] on [assigned_user_id] and
    [locked_by_pm_id]: a value that is written and is not null must be the
    id of a row of [users]. *)
Definition isUser (users : list User.t) (userId : string) : bool :=
  match findUser users userId with Some _ => true | None => false end.

Definition refersToUser (users : list User.t) (value : option (option string))
  : bool :=
  match value with
  | Some (Some userId) => isUser users userId
  | _ => true
  end.

(** A call of the storage class returns, or the database refuses the
    statement and the call throws; nothing is written then. *)
Inductive Outcome (A : Type) :=
| Returns (value : A)
| Throws.

Arguments Returns {A} value.
Arguments Throws {A}.

(** [db.update(responseSections).set(...).where(eq(id)).returning()] and
    the first returned row: the table after the call and the row, if any.
    [users] are the rows of the [users] table.  The database refuses the
    update of a row that would refer to no user, and it refuses a key
    outside the range of the column; a stored row has a key within the
    range, so such a key matches no row.  (The editor never sends
    [responseId]; it and [orderIndex] are taken to be acceptable.) *)
Definition updateResponseSection (users : list User.t) (now : Z) (id : Z)
    (updateData : SectionPatch.t) (table : SectionTable)
  : SectionTable * Outcome (option ResponseSection.t) :=
  match table !! id with
  | Some s =>
      if refersToUser users (SectionPatch.assignedUserId updateData)
         && refersToUser users (SectionPatch.lockedByPmId updateData)
      then
        let s' := setColumns now updateData s in
        (<[id := s']> table, Returns (Some s'))
      else (table, Throws)
  | None =>
      if isInt4 id then (table, Returns None) else (table, Throws)
  end.

(** What [PATCH /api/response-sections/:id] answers: the updated row, 404
    [Section not found], or, from the [catch], 500 [Failed to update
    section]. *)
Inductive PatchReply :=
| Json (section : ResponseSection.t)
| NotFound404
| ServerError500.

Definition patchResponseSection (users : list User.t) (now : Z) (id : Z)
    (body : SectionPatch.t) (table : SectionTable) : SectionTable * PatchReply :=
  match updateResponseSection users now id body table with
  | (table', Returns (Some section)) => (table', Json section)
  | (table', Returns None) => (table', NotFound404)
  | (table', Throws) => (table', ServerError500)
  end.

(** ** [ResponseEditor] in [response-editor.tsx] *)

(** The two values the component hard-codes in place of an auth context. *)
Definition hardcoded_currentUserId : string := "pm-user-id".
Definition hardcoded_isPM : bool := true.

Section ResponseEditor.

(** [currentUserId] and [isPM] of the acting user. *)
Variable currentUserId : string.
Variable isPM : bool.

(** [section.assignedUserId === currentUserId] and its [lockedByPmId]
    counterpart: a nullable id against an id. *)
Definition same_id (a : option string) (b : string) : bool :=
  match a with
  | Some x => String.eqb x b
  | None => false
  end.

(** The request body of [toggleLockMutation]. *)
Definition toggleLockBody (isLocked : bool) : SectionPatch.t :=
  {| SectionPatch.responseId := None;
     SectionPatch.title := None;
     SectionPatch.content := None;
     SectionPatch.orderIndex := None;
     SectionPatch.assignedUserId := None;
     SectionPatch.isLocked := Some (Some isLocked);
     SectionPatch.lockedByPmId :=
       Some (if isLocked then Some currentUserId else None) |}.

(** The request body of [assignUserMutation]. *)
Definition assignUserBody (userId : option string) : SectionPatch.t :=
  {| SectionPatch.responseId := None;
     SectionPatch.title := None;
     SectionPatch.content := None;
     SectionPatch.orderIndex := None;
     SectionPatch.assignedUserId := Some userId;
     SectionPatch.isLocked := None;
     SectionPatch.lockedByPmId := None |}.

(** [toggleLockMutation.mutate({ sectionId, isLocked })] against the server,
    whose [users] table holds the rows [users]. *)
Definition toggleLockMutation (users : list User.t) (now : Z) (sectionId : Z)
    (isLocked : bool) (table : SectionTable) : SectionTable * PatchReply :=
  patchResponseSection users now sectionId (toggleLockBody isLocked) table.

(** [assignUserMutation.mutate({ sectionId, userId })] against the server. *)
Definition assignUserMutation (users : list User.t) (now : Z) (sectionId : Z)
    (userId : option string) (table : SectionTable)
  : SectionTable * PatchReply :=
  patchResponseSection users now sectionId (assignUserBody userId) table.

Definition isLockedByOther (section : ResponseSection.t) : bool :=
  Js.truthy_bool (ResponseSection.isLocked section)
  && negb (same_id (ResponseSection.lockedByPmId section) currentUserId).

Definition canEdit (section : ResponseSection.t) : bool :=
  isPM
  || (negb (Js.truthy_bool (ResponseSection.isLocked section))
      && same_id (ResponseSection.assignedUserId section) currentUserId).

(** The lock button exists only under [isPM &&]; a click sends the
    negation of the flag the component currently shows.  [None]: there is
    no button, nothing is sent. *)
Definition lockButtonClick (users : list User.t) (now : Z)
    (section : ResponseSection.t) (table : SectionTable)
  : option (SectionTable * PatchReply) :=
  if isPM
  then Some (toggleLockMutation users now (ResponseSection.id section)
               (negb (Js.truthy_bool (ResponseSection.isLocked section))) table)
  else None.

(** The assignee select is [disabled={!isPM}]; its [onValueChange] maps
    the item ["unassigned"] to [null].  [None]: the control is disabled,
    nothing is sent. *)
Definition assigneeSelectChange (users : list User.t) (now : Z)
    (section : ResponseSection.t) (value : string) (table : SectionTable)
  : option (SectionTable * PatchReply) :=
  if negb isPM then None
  else Some (assignUserMutation users now (ResponseSection.id section)
               (if String.eqb value "unassigned" then None else Some value)
               table).

End ResponseEditor.

(** ** The specification's wording, for comparison with the code *)

(** The title keywords in the specification's priority order, each group
    with the rate and the category it selects. *)
Definition keyword_groups : list (list string * (Js.number * string)) :=
  [ (["principal"], (250%float, "principal"));
    (["managing"; "director"], (300%float, "managing_director"));
    (["consultant"], (175%float, "consultant"));
    (["research"; "associate"], (125%float, "research_associate"));
    (["copy"; "editor"], (100%float, "copy_editor")) ].

(** The first group, in priority order, one of whose keywords occurs in the
    (already lowercased) title. *)
Definition first_group (title : string) : option (Js.number * string) :=
  option_map snd
    (List.find (fun g => List.existsb (Js.includes title) (fst g)) keyword_groups).

(** No keyword of any group occurs in the title. *)
Definition no_keyword (title : string) : bool :=
  negb (List.existsb (fun g => List.existsb (Js.includes title) (fst g))
          keyword_groups).

(** [effectiveRate(row, person)] as section 4.1 words it: the override,
    else the first matching title group, else the person's own hourly rate,
    else 150. *)
Definition specEffectiveRate (row : BudgetRow.t) (person : User.t) : Js.number :=
  match BudgetRow.customRate row with
  | Some rate => rate
  | None =>
      match first_group (Js.toLowerCase (Js.string_or_empty (User.title person))) with
      | Some (rate, _) => rate
      | None =>
          match User.hourlyRate person with
          | Some h => Js.parseFloat h
          | None => 150%float
          end
      end
  end.

(** [roleCategory(row)] as section 4.1 words it: the same test order on the
    row's own title, with fallback [default]. *)
Definition specRoleCategory (row : BudgetRow.t) : string :=
  match first_group (Js.toLowerCase (BudgetRow.customTitle row)) with
  | Some (_, category) => category
  | None => "default"
  end.

(** The six category names. *)
Definition role_categories : list string :=
  ["principal"; "managing_director"; "consultant"; "research_associate";
   "copy_editor"; "default"].

(** [canEdit(section, actor)] as section 4.3 words it. *)
Definition specCanEdit (actorId : string) (actorIsManager : bool)
    (section : ResponseSection.t) : Prop :=
  actorIsManager = true
  \/ (Js.truthy_bool (ResponseSection.isLocked section) = false
      /\ ResponseSection.assignedUserId section = Some actorId).

(** The cross-check of section 8: the five year totals added up, year 1
    first.  The component itself never forms this sum. *)
Definition sumYearTotals (users : list User.t) (rows : list BudgetRow.t)
  : Js.number :=
  List.fold_left (fun sum year => (sum + calculateYearTotal users rows year)%float)
    all_years 0%float.

(** [|a - b| <= eps] on numbers. *)
Definition withinEpsilon (eps a b : Js.number) : bool :=
  (PrimFloat.abs (a - b) <=? eps)%float.

(** A section is locked exactly when it has a lock holder. *)
Definition lockConsistent (section : ResponseSection.t) : Prop :=
  Js.truthy_bool (ResponseSection.isLocked section) = true
  <-> ResponseSection.lockedByPmId section <> None.

(** ** Sample data *)

Definition sarah : User.t :=
  User.mk "u-sarah" "sarah" "x" "sarah@example.com" "Sarah" "consultant"
    None (Some "Principal").

Definition pmd : User.t :=
  User.mk "u-pmd" "pat" "x" "pat@example.com" "Pat" "managing_director"
    None (Some "Principal Managing Director").

Definition analyst : User.t :=
  User.mk "u-analyst" "ana" "x" "ana@example.com" "Ana" "consultant"
    (Some "187.50") (Some "Analyst").

Definition sample_users : list User.t := [sarah; pmd; analyst].

(** Two managers, and the [users] table with them. *)
Definition pm_a : User.t :=
  User.mk "pm-a" "alex" "x" "alex@example.com" "Alex" "pm" None (Some "Manager").

Definition pm_b : User.t :=
  User.mk "pm-b" "blake" "x" "blake@example.com" "Blake" "pm" None (Some "Manager").

Definition staff : list User.t := [sarah; pmd; analyst; pm_a; pm_b].

Definition sarah_row : BudgetRow.t :=
  BudgetRow.mk 1 "u-sarah" "Principal" None 10%float 0%float 0%float 0%float 0%float.

Definition pmd_row : BudgetRow.t :=
  BudgetRow.mk 2 "u-pmd" "Principal Managing Director" None
    0%float 0%float 0%float 0%float 0%float.

Definition sample_section : ResponseSection.t :=
  ResponseSection.mk 7 1 "Approach" EmptyString 0 (Some "u-sarah") (Some false) None 100 100.

Definition sample_table : SectionTable := {[ 7%Z := sample_section ]}.

Definition stray_row : BudgetRow.t :=
  BudgetRow.mk 9 "u-nobody" EmptyString None
    1%float 2%float 3%float 4%float 5%float.

Definition untitled : User.t :=
  User.mk "u-untitled" "u" "x" "u@example.com" "U" "consultant" None None.

Definition untitled_row : BudgetRow.t :=
  BudgetRow.mk 10 "u-untitled" "Coordinator" None
    0%float 0%float 0%float 0%float 0%float.

Definition locked_section : ResponseSection.t :=
  ResponseSection.mk 7 1 "Approach" EmptyString 0 (Some "u-sarah") (Some true)
    (Some "pm-a") 100 150.

Definition locked_table : SectionTable := {[ 7%Z := locked_section ]}.

(** One row driven through the inputs: 1e308 hours in years 1 and 2 at a
    rate of 0.5. *)
Definition huge_rows : list BudgetRow.t :=
  rateInputOnChange sample_users 1 "0.5"
    (hoursInputOnChange sample_users 1 Y2 "1e308"
       (hoursInputOnChange sample_users 1 Y1 "1e308" [sarah_row])).

(** One row driven through the inputs: 0.1 and 0.2 hours at the Principal
    rate. *)
Definition tenth_rows : list BudgetRow.t :=
  hoursInputOnChange sample_users 1 Y2 "0.2"
    (hoursInputOnChange sample_users 1 Y1 "0.1" [sarah_row]).

(** Three rows with half hours; the analyst's rate is the text [187.50]. *)
Definition half_hour_rows : list BudgetRow.t :=
  [ BudgetRow.mk 1 "u-sarah" "Principal" None
      10%float 7.5%float 0%float 0.5%float 0%float;
    BudgetRow.mk 2 "u-pmd" "Principal Managing Director" (Some 312.5%float)
      0%float 120%float 80.5%float 0%float 0%float;
    BudgetRow.mk 3 "u-analyst" "Analyst" None
      1040%float 1040%float 520%float 0%float 1.5%float ].

(** ** Auxiliary definitions for the statements *)

Definition Year_eqb (a b : Year) : bool :=
  match a, b with
  | Y1, Y1 | Y2, Y2 | Y3, Y3 | Y4, Y4 | Y5, Y5 => true
  | _, _ => false
  end.

(** [{ ...section, updatedAt: now }]: a write that changes no column but
    the time stamp. *)
Definition touched (now : Z) (s : ResponseSection.t) : ResponseSection.t :=
  setColumns now SectionPatch.empty s.

(** The binary64 datum for [z * 2^e], rounded to nearest. *)
Definition dyadic (z e : Z) : spec_float := binary_normalize prec emax z e false.

Abbreviation fexp64 := (fexp prec emax).

(** Equality test on [spec_float]. *)
Definition spec_float_eqb (x y : spec_float) : bool :=
  match x, y with
  | S754_zero s, S754_zero t => Bool.eqb s t
  | S754_infinity s, S754_infinity t => Bool.eqb s t
  | S754_nan, S754_nan => true
  | S754_finite s m e, S754_finite t n f =>
      Bool.eqb s t && Pos.eqb m n && Z.eqb e f
  | _, _ => false
  end.

(** How many units of [2^e] a positive number holds (0 for every other
    number). *)
Definition unitsOf (e : Z) (x : Js.number) : Z :=
  match Prim2SF x with
  | S754_finite false m f =>
      if (e <=? f)%Z then (Zpos m * 2 ^ (f - e))%Z else (Zpos m / 2 ^ (e - f))%Z
  | _ => 0%Z
  end.

(** [x] is [+0] or a positive multiple of [2^e] whose numerator is below
    [2^53]. *)
Definition exactIn (e : Z) (x : Js.number) : bool :=
  (unitsOf e x <? 2 ^ 53)%Z
  && spec_float_eqb (Prim2SF x) (dyadic (unitsOf e x) e).

Fixpoint Zsum (l : list Z) : Z :=
  match l with
  | [] => 0%Z
  | z :: l' => (z + Zsum l')%Z
  end.

Section Units.

Variable users : list User.t.

(** Hours are counted in units of [2^eh], rates in units of [2^er]. *)
Variables eh er : Z.

Definition hourUnits (row : BudgetRow.t) (year : Year) : Z :=
  unitsOf eh (yearHours row year).

Definition rateUnits (row : BudgetRow.t) : Z :=
  unitsOf er (getEffectiveRate users row).

Definition rowHourUnits (row : BudgetRow.t) : Z :=
  (hourUnits row Y1 + hourUnits row Y2 + hourUnits row Y3
   + hourUnits row Y4 + hourUnits row Y5)%Z.

(** The row total, a year total and the grand total as exact integers, in
    units of [2^(eh+er)]. *)
Definition rowUnits (row : BudgetRow.t) : Z :=
  (rowHourUnits row * rateUnits row)%Z.

Definition yearUnits (rows : list BudgetRow.t) (year : Year) : Z :=
  Zsum (List.map (fun row => (hourUnits row year * rateUnits row)%Z) rows).

Definition ledgerUnits (rows : list BudgetRow.t) : Z :=
  Zsum (List.map rowUnits rows).

(** Every hours slot and the rate of the row are exact, and the row's
    hours add up below [2^53] units. *)
Definition exactRow (row : BudgetRow.t) : bool :=
  List.forallb (fun year => exactIn eh (yearHours row year)) all_years
  && exactIn er (getEffectiveRate users row)
  && (rowHourUnits row <? 2 ^ 53)%Z.

(** Every row is exact and the grand total stays below [2^53] units. *)
Definition exactLedger (rows : list BudgetRow.t) : bool :=
  List.forallb exactRow rows && (ledgerUnits rows <? 2 ^ 53)%Z.

End Units.

(** ** More of [BudgetSheet]: loading, saving and the category tabs *)

(** A row of the [budget_items] table; the [decimal] column [hours] is
    delivered as text. *)
Module BudgetItem.
Record t := mk {
  id : Z;
  rfpId : Z;
  userId : string;
  year : Z;
  hours : string;
  createdAt : Z;
  updatedAt : Z
}.
End BudgetItem.

(** [`year${n}` in row]: the key exists for 1 to 5 only. *)
Definition yearOfKey (n : Z) : option Year :=
  match n with
  | 1%Z => Some Y1
  | 2%Z => Some Y2
  | 3%Z => Some Y3
  | 4%Z => Some Y4
  | 5%Z => Some Y5
  | _ => None
  end.

(** The number in the key [`year${year}`]. *)
Definition yearNumber (year : Year) : Z :=
  match year with
  | Y1 => 1%Z
  | Y2 => 2%Z
  | Y3 => 3%Z
  | Y4 => 4%Z
  | Y5 => 5%Z
  end.

(** [grouped.has(userId)] on the insertion-ordered [Map] of rows, kept as
    the list of its values. *)
Definition groupedHas (grouped : list BudgetRow.t) (userId : string) : bool :=
  List.existsb (fun r => String.eqb (BudgetRow.userId r) userId) grouped.

(** One turn of [budgetItems.forEach] in the initial state of [rows]: a
    first item of a person opens a row, and an item of a year from 1 to 5
    writes its hours into the person's row. *)
Definition initialStep (users : list User.t) (grouped : list BudgetRow.t)
    (item : BudgetItem.t) : list BudgetRow.t :=
  let grouped' :=
    if groupedHas grouped (BudgetItem.userId item) then grouped
    else (grouped ++
          [ BudgetRow.mk (BudgetItem.id item) (BudgetItem.userId item)
              (titleOrEmpty (findUser users (BudgetItem.userId item))) None
              0%float 0%float 0%float 0%float 0%float ])%list in
  match yearOfKey (BudgetItem.year item) with
  | Some year =>
      List.map
        (fun r =>
           if String.eqb (BudgetRow.userId r) (BudgetItem.userId item)
           then applyEdit users r
                  (EditYear year (Js.parseFloat (BudgetItem.hours item)))
           else r)
        grouped'
  | None => grouped'
  end.

(** The initial state of [rows]: [Array.from(grouped.values())]. *)
Definition initialRows (users : list User.t) (budgetItems : list BudgetItem.t)
  : list BudgetRow.t :=
  List.fold_left (initialStep users) budgetItems [].

(** An element of the [items] array that [saveMutation] posts. *)
Module SaveItem.
Record t := mk {
  userId : string;
  year : Z;
  hours : Js.number
}.
End SaveItem.

(** [budgetRows.flatMap(row => [1, 2, 3, 4, 5].map(year => ...))] *)
Definition saveItems (budgetRows : list BudgetRow.t) : list SaveItem.t :=
  List.flat_map
    (fun row =>
       List.map
         (fun year =>
            SaveItem.mk (BudgetRow.userId row) (yearNumber year)
              (Js.or_else (yearHours row year) 0%float))
         all_years)
    budgetRows.

(** [Array.from(new Set(values))]: the distinct values in the order of
    their first occurrence. *)
Definition distinct (values : list string) : list string :=
  List.fold_left
    (fun seen v => if List.existsb (String.eqb v) seen then seen else (seen ++ [v])%list)
    values [].

Definition roleCategories (rows : list BudgetRow.t) : list string :=
  distinct (List.map getRoleCategory rows).

Definition filteredRows (activeTab : string) (rows : list BudgetRow.t)
  : list BudgetRow.t :=
  if String.eqb activeTab "all" then rows
  else List.filter (fun r => String.eqb (getRoleCategory r) activeTab) rows.

(** The count shown on the tab of a category:
    [rows.filter(r => getRoleCategory(r) === cat).length]. *)
Definition tabCount (cat : string) (rows : list BudgetRow.t) : nat :=
  List.length (List.filter (fun r => String.eqb (getRoleCategory r) cat) rows).

(** ** More of the server: creating, deleting and saving sections *)

(** The [response_sections] table with the next value of its [serial]
    key. *)
Module Db.
Record t := mk {
  sections : gmap Z ResponseSection.t;
  nextSectionId : Z
}.
End Db.

(** [db.insert(responseSections).values(insertSection).returning()] for
    the columns the route supplies; the others take their defaults. *)
Definition createResponseSection (now : Z) (responseId : Z) (title : string)
    (content : string) (orderIndex : Z) (db : Db.t) : Db.t * ResponseSection.t :=
  let id := Db.nextSectionId db in
  let section :=
    ResponseSection.mk id responseId title content orderIndex None (Some false)
      None now now in
  (Db.mk (<[id := section]> (Db.sections db)) (id + 1)%Z, section).

(** [POST /api/rfps/:id/response/sections], for the response of the RFP
    (created first when missing): [title: req.body.title || "New Section"],
    [orderIndex: req.body.orderIndex || 0]. *)
Definition postSection (now : Z) (responseId : Z) (title : option string)
    (orderIndex : option Z) (db : Db.t) : Db.t * ResponseSection.t :=
  createResponseSection now responseId
    (if Js.truthy_string title then Js.string_or_empty title else "New Section")
    EmptyString
    (match orderIndex with Some n => n | None => 0%Z end)
    db.

(** [db.delete(responseSections).where(eq(id))]; the route answers 204
    whether or not a row was there (a key outside the range of the column
    is refused, and deletes nothing either). *)
Definition deleteResponseSection (id : Z) (table : SectionTable) : SectionTable :=
  delete id table.

(** The loop of [PATCH /api/rfps/:id/response] over [req.body.sections]:
    every element with a truthy id is written with its title, content and
    order index, and nothing else.  An update that throws ends the loop:
    the route answers 500 and the remaining elements are not written. *)
Definition saveFields (section : ResponseSection.t) : SectionPatch.t :=
  {| SectionPatch.responseId := None;
     SectionPatch.title := Some (ResponseSection.title section);
     SectionPatch.content := Some (ResponseSection.content section);
     SectionPatch.orderIndex := Some (ResponseSection.orderIndex section);
     SectionPatch.assignedUserId := None;
     SectionPatch.isLocked := None;
     SectionPatch.lockedByPmId := None |}.

Fixpoint saveSections (users : list User.t) (now : Z)
    (sections : list ResponseSection.t) (table : SectionTable)
  : SectionTable * Outcome unit :=
  match sections with
  | [] => (table, Returns tt)
  | section :: rest =>
      if Z.eqb (ResponseSection.id section) 0
      then saveSections users now rest table
      else
        match updateResponseSection users now (ResponseSection.id section)
                (saveFields section) table with
        | (table', Returns _) => saveSections users now rest table'
        | (table', Throws) => (table', Throws)
        end
  end.

(** The table that the route leaves behind. *)
Definition patchResponse (users : list User.t) (now : Z)
    (sections : list ResponseSection.t) (table : SectionTable) : SectionTable :=
  fst (saveSections users now sections table).

(** What the editor sends: the lock toggle, the assignment, the save, the
    new section and the deletion. *)
Inductive EditorRequest :=
| ReqToggleLock (currentUserId : string) (sectionId : Z) (isLocked : bool)
| ReqAssign (sectionId : Z) (userId : option string)
| ReqSave (sections : list ResponseSection.t)
| ReqAddSection (responseId : Z) (title : option string) (orderIndex : option Z)
| ReqDeleteSection (sectionId : Z).

Definition serve (users : list User.t) (now : Z) (db : Db.t)
    (request : EditorRequest) : Db.t :=
  match request with
  | ReqToggleLock currentUserId sectionId isLocked =>
      Db.mk (fst (toggleLockMutation currentUserId users now sectionId isLocked
                    (Db.sections db)))
        (Db.nextSectionId db)
  | ReqAssign sectionId userId =>
      Db.mk (fst (assignUserMutation users now sectionId userId (Db.sections db)))
        (Db.nextSectionId db)
  | ReqSave sections =>
      Db.mk (patchResponse users now sections (Db.sections db))
        (Db.nextSectionId db)
  | ReqAddSection responseId title orderIndex =>
      fst (postSection now responseId title orderIndex db)
  | ReqDeleteSection sectionId =>
      Db.mk (deleteResponseSection sectionId (Db.sections db))
        (Db.nextSectionId db)
  end.

(** Every stored row sits under its own id, below the next key, and is
    locked exactly when it has a holder. *)
Definition wellFormedDb (db : Db.t) : Prop :=
  forall (id : Z) (section : ResponseSection.t),
    Db.sections db !! id = Some section ->
    ResponseSection.id section = id
    /\ (id < Db.nextSectionId db)%Z
    /\ lockConsistent section.

(** ** More of [ResponseEditor]: sections made in the browser *)

Module UploadedFile.
Record t := mk {
  name : string;
  type : string
}.
End UploadedFile.

(** A row of the [templates] table. *)
Module Template.
Record t := mk {
  id : Z;
  name : string;
  description : option string;
  content : string;
  category : option string;
  createdAt : Z
}.
End Template.

(** [s.endsWith(suffix)] *)
Definition endsWith (s suffix : string) : bool :=
  let n := String.length s in
  let k := String.length suffix in
  (k <=? n)%nat && String.eqb (String.substring (n - k) k s) suffix.

Fixpoint hasDot (s : string) : bool :=
  match s with
  | EmptyString => false
  | String c s' => Ascii.eqb c "." || hasDot s'
  end.

(** [name.replace(/\.[^.]+$/, <empty string>)]: the match is the last dot
    with everything after it, when something follows that dot. *)
Fixpoint stripExtension (s : string) : string :=
  match s with
  | EmptyString => EmptyString
  | String c s' =>
      if Ascii.eqb c "." && negb (hasDot s')
         && negb (String.eqb s' EmptyString)
      then EmptyString
      else String c (stripExtension s')
  end.

(** The section that [loadTemplate] and [handleFileUpload] build:
    [Date.now()] as id, unassigned and unlocked. *)
Definition localSection (now : Z) (responseId : option Z) (title content : string)
    (sections : list ResponseSection.t) : ResponseSection.t :=
  ResponseSection.mk now
    (match responseId with Some n => n | None => 0%Z end)
    title content (Z.of_nat (List.length sections)) None (Some false) None
    now now.

Definition loadTemplate (now : Z) (responseId : option Z) (template : Template.t)
    (sections : list ResponseSection.t) : list ResponseSection.t :=
  (sections ++
   [localSection now responseId (Template.name template)
      (Template.content template) sections])%list.

(** [handleFileUpload]; [file] is [e.target.files?.[0]]. *)
Definition handleFileUpload (now : Z) (responseId : option Z)
    (file : option UploadedFile.t) (sections : list ResponseSection.t)
  : list ResponseSection.t :=
  match file with
  | None => sections
  | Some f =>
      let name := UploadedFile.name f in
      if String.eqb (UploadedFile.type f) "application/pdf" || endsWith name ".pdf"
      then (sections ++
            [localSection now responseId (stripExtension name)
               ("<p>[Content from " ++ name
                ++ "]</p><p>In production, this would use a PDF parsing library to extract and format the document content.</p>")
               sections])%list
      else if endsWith name ".docx" || endsWith name ".doc"
      then (sections ++
            [localSection now responseId (stripExtension name)
               ("<p>[Content from " ++ name
                ++ "]</p><p>In production, this would use a DOCX parsing library (mammoth.js) to extract and format the document content.</p>")
               sections])%list
      else sections
  end.

(** [handleSectionContentChange] *)
Definition handleSectionContentChange (sectionId : Z) (content : string)
    (sections : list ResponseSection.t) : list ResponseSection.t :=
  List.map
    (fun s =>
       if Z.eqb (ResponseSection.id s) sectionId
       then ResponseSection.mk (ResponseSection.id s) (ResponseSection.responseId s)
              (ResponseSection.title s) content (ResponseSection.orderIndex s)
              (ResponseSection.assignedUserId s) (ResponseSection.isLocked s)
              (ResponseSection.lockedByPmId s) (ResponseSection.createdAt s)
              (ResponseSection.updatedAt s)
       else s)
    sections.

(** [getAssignedUser] *)
Definition getAssignedUser (users : list User.t) (userId : option string)
  : option User.t :=
  if Js.truthy_string userId then findUser users (Js.string_or_empty userId)
  else None.

(** ** [searchRfps] of the storage class *)

(** A row of the [rfps] table. *)
Module Rfp.
Record t := mk {
  id : Z;
  title : string;
  source : string;
  agency : option string;
  documentUrl : option string;
  documentContent : option string;
  status : string;
  dueDate : option Z;
  createdAt : Z;
  updatedAt : Z;
  submittedAt : option Z;
  keywords : option (list string);
  state : option string;
  assignedPmId : option string
}.
End Rfp.

(** The query parameters of [GET /api/rfps/search]; each may be absent. *)
Module SearchFilters.
Record t := mk {
  title : option string;
  keywords : option string;
  consultant : option string;
  source : option string;
  state : option string
}.

Definition none : t := mk None None None None None.
End SearchFilters.

(** [s.split(sep)] for a one-character separator. *)
Fixpoint splitOn (sep : ascii) (s : string) : list string :=
  match s with
  | EmptyString => [EmptyString]
  | String c s' =>
      if Ascii.eqb c sep then EmptyString :: splitOn sep s'
      else match splitOn sep s' with
           | h :: t => String c h :: t
           | [] => [String c EmptyString]
           end
  end.

(** White space of ASCII text: tab, line feed, vertical tab, form feed,
    carriage return and space. *)
Definition isSpace (c : ascii) : bool :=
  let n := nat_of_ascii c in
  ((9 <=? n)%nat && (n <=? 13)%nat) || (n =? 32)%nat.

Fixpoint trimStart (s : string) : string :=
  match s with
  | EmptyString => EmptyString
  | String c s' => if isSpace c then trimStart s' else s
  end.

Fixpoint trimEnd (s : string) : string :=
  match s with
  | EmptyString => EmptyString
  | String c s' =>
      let t := trimEnd s' in
      if isSpace c && String.eqb t EmptyString then EmptyString else String c t
  end.

(** [s.trim()] *)
Definition trim (s : string) : string := trimEnd (trimStart s).

Section SearchRfps.

(** What the function reads from the database: the RFPs, newest first,
    the users, and [getResponseByRfp] (the sections of the RFP's response,
    when it has one). *)
Variable allRfps : list Rfp.t.
Variable allUsers : list User.t.
Variable getResponseByRfp : Z -> option (list ResponseSection.t).

(** The ids of the users whose name or e-mail holds the search term; empty
    when there is no consultant filter. *)
Definition consultantUserIds (filters : SearchFilters.t) : list string :=
  if Js.truthy_string (SearchFilters.consultant filters) then
    let searchTerm :=
      Js.toLowerCase (Js.string_or_empty (SearchFilters.consultant filters)) in
    List.map User.id
      (List.filter
         (fun u => Js.includes (Js.toLowerCase (User.fullName u)) searchTerm
                   || Js.includes (Js.toLowerCase (User.email u)) searchTerm)
         allUsers)
  else [].

(** [filters.keywords.toLowerCase().split(",").map(k => k.trim())] *)
Definition searchKeywords (keywords : string) : list string :=
  List.map trim (splitOn "," (Js.toLowerCase keywords)).

Definition hasKeyword (keywords : string) (rfp : Rfp.t) : bool :=
  let rfpKeywords :=
    match Rfp.keywords rfp with
    | Some ks => List.map Js.toLowerCase ks
    | None => []
    end in
  List.existsb
    (fun sk => List.existsb (fun rk => Js.includes rk sk) rfpKeywords
               || Js.includes (Js.toLowerCase (Rfp.title rfp)) sk)
    (searchKeywords keywords).

Definition hasConsultant (ids : list string) (sections : list ResponseSection.t)
  : bool :=
  List.existsb
    (fun s => Js.truthy_string (ResponseSection.assignedUserId s)
              && List.existsb
                   (String.eqb (Js.string_or_empty (ResponseSection.assignedUserId s)))
                   ids)
    sections.

(** One turn of the loop: [true] when no [continue] is taken and the RFP
    is pushed onto the results. *)
Definition keepRfp (filters : SearchFilters.t) (rfp : Rfp.t) : bool :=
  let title := SearchFilters.title filters in
  let source := SearchFilters.source filters in
  let state := SearchFilters.state filters in
  let keywords := SearchFilters.keywords filters in
  let ids := consultantUserIds filters in
  negb (Js.truthy_string title
        && negb (Js.includes (Js.toLowerCase (Rfp.title rfp))
                   (Js.toLowerCase (Js.string_or_empty title))))
  && negb (Js.truthy_string source
           && negb (String.eqb (Js.string_or_empty source) "all")
           && negb (String.eqb (Rfp.source rfp) (Js.string_or_empty source)))
  && negb (Js.truthy_string state
           && (negb (Js.truthy_string (Rfp.state rfp))
               || negb (Js.includes
                          (Js.toLowerCase (Js.string_or_empty (Rfp.state rfp)))
                          (Js.toLowerCase (Js.string_or_empty state)))))
  && (if Js.truthy_string keywords
      then hasKeyword (Js.string_or_empty keywords) rfp else true)
  && (if Js.truthy_string (SearchFilters.consultant filters)
         && (0 <? List.length ids)%nat
      then match getResponseByRfp (Rfp.id rfp) with
           | Some sections => hasConsultant ids sections
           | None => false
           end
      else true).

Definition searchRfps (filters : SearchFilters.t) : list Rfp.t :=
  List.filter (keepRfp filters) allRfps.

End SearchRfps.

(** ** Auxiliary notions for the properties of the added code *)

(** What a write of title, content and order index leaves alone. *)
Definition keepsLockAndAssignment (s s' : ResponseSection.t) : Prop :=
  ResponseSection.id s' = ResponseSection.id s
  /\ ResponseSection.responseId s' = ResponseSection.responseId s
  /\ ResponseSection.assignedUserId s' = ResponseSection.assignedUserId s
  /\ ResponseSection.isLocked s' = ResponseSection.isLocked s
  /\ ResponseSection.lockedByPmId s' = ResponseSection.lockedByPmId s
  /\ ResponseSection.createdAt s' = ResponseSection.createdAt s.

(** A run of editor requests, each with the clock reading at which the
    server handles it. *)
Definition serveAll (users : list User.t) (requests : list (Z * EditorRequest))
    (db : Db.t) : Db.t :=
  List.fold_left (fun db r => serve users (fst r) db (snd r)) requests db.

(** What the server hands back for a saved item: the same person and year,
    and an hours text that parses to the number that was sent. *)
Definition storedAs (stored : BudgetItem.t) (sent : SaveItem.t) : Prop :=
  BudgetItem.userId stored = SaveItem.userId sent
  /\ BudgetItem.year stored = SaveItem.year sent
  /\ Js.parseFloat (BudgetItem.hours stored) = SaveItem.hours sent.

(** What a reload makes of a row. *)
Definition reloadedFrom (users : list User.t) (row' row : BudgetRow.t) : Prop :=
  BudgetRow.userId row' = BudgetRow.userId row
  /\ BudgetRow.customRate row' = None
  /\ BudgetRow.customTitle row'
     = titleOrEmpty (findUser users (BudgetRow.userId row))
  /\ forall year, yearHours row' year = Js.or_else (yearHours row year) 0%float.

(** Filters with every text but the source in lower case, with the
    keywords replaced, and without the consultant. *)
Definition lowerFilters (f : SearchFilters.t) : SearchFilters.t :=
  SearchFilters.mk
    (option_map Js.toLowerCase (SearchFilters.title f))
    (option_map Js.toLowerCase (SearchFilters.keywords f))
    (option_map Js.toLowerCase (SearchFilters.consultant f))
    (SearchFilters.source f)
    (option_map Js.toLowerCase (SearchFilters.state f)).

Definition withKeywords (f : SearchFilters.t) (keywords : option string)
  : SearchFilters.t :=
  SearchFilters.mk (SearchFilters.title f) keywords (SearchFilters.consultant f)
    (SearchFilters.source f) (SearchFilters.state f).

Definition withoutConsultant (f : SearchFilters.t) : SearchFilters.t :=
  SearchFilters.mk (SearchFilters.title f) (SearchFilters.keywords f) None
    (SearchFilters.source f) (SearchFilters.state f).

(** [g] has some of the filters of [f] and no others. *)
Definition keepsOrDrops {A : Type} (x y : option A) : Prop := y = None \/ y = x.

Definition dropsFilters (f g : SearchFilters.t) : Prop :=
  keepsOrDrops (SearchFilters.title f) (SearchFilters.title g)
  /\ keepsOrDrops (SearchFilters.keywords f) (SearchFilters.keywords g)
  /\ keepsOrDrops (SearchFilters.consultant f) (SearchFilters.consultant g)
  /\ keepsOrDrops (SearchFilters.source f) (SearchFilters.source g)
  /\ keepsOrDrops (SearchFilters.state f) (SearchFilters.state g).

(** No filter is given: every parameter is absent or empty, or, for the
    source, the word [all]. *)
Definition noFilters (f : SearchFilters.t) : Prop :=
  Js.truthy_string (SearchFilters.title f) = false
  /\ Js.truthy_string (SearchFilters.keywords f) = false
  /\ Js.truthy_string (SearchFilters.consultant f) = false
  /\ (Js.truthy_string (SearchFilters.source f) = false
      \/ SearchFilters.source f = Some "all")
  /\ Js.truthy_string (SearchFilters.state f) = false.

(** The hours text of the last item of a person and a year, parsed; 0 when
    there is none. *)
Definition lastHours (budgetItems : list BudgetItem.t) (userId : string)
    (year : Year) : Js.number :=
  List.fold_left
    (fun acc item =>
       if String.eqb (BudgetItem.userId item) userId
          && Z.eqb (BudgetItem.year item) (yearNumber year)
       then Js.parseFloat (BudgetItem.hours item) else acc)
    budgetItems 0%float.

(** ** Sample data for the added code *)

(** Stored budget items: two years for Sarah, a second item for her year 1
    and one item for Pat. *)
Definition sample_items : list BudgetItem.t :=
  [ BudgetItem.mk 11 1 "u-sarah" 1 "10.00" 100 100;
    BudgetItem.mk 12 1 "u-sarah" 2 "7.50" 100 100;
    BudgetItem.mk 13 1 "u-pmd" 2 "120.00" 100 100;
    BudgetItem.mk 14 1 "u-sarah" 1 "12.00" 100 100 ].

Definition reloaded_sarah_row : BudgetRow.t :=
  BudgetRow.mk 11 "u-sarah" "Principal" None
    12%float 7.5%float 0%float 0%float 0%float.

(** A sheet with an edited title and an override, and what the server
    stores for it. *)
Definition edited_sheet : list BudgetRow.t :=
  [ BudgetRow.mk 1 "u-sarah" "Lead" (Some 300%float)
      10%float 7.5%float 0%float 0.5%float 0%float;
    pmd_row ].

Definition stored_sheet : list BudgetItem.t :=
  [ BudgetItem.mk 21 1 "u-sarah" 1 "10.00" 200 200;
    BudgetItem.mk 22 1 "u-sarah" 2 "7.50" 200 200;
    BudgetItem.mk 23 1 "u-sarah" 3 "0.00" 200 200;
    BudgetItem.mk 24 1 "u-sarah" 4 "0.50" 200 200;
    BudgetItem.mk 25 1 "u-sarah" 5 "0.00" 200 200;
    BudgetItem.mk 26 1 "u-pmd" 1 "0.00" 200 200;
    BudgetItem.mk 27 1 "u-pmd" 2 "0.00" 200 200;
    BudgetItem.mk 28 1 "u-pmd" 3 "0.00" 200 200;
    BudgetItem.mk 29 1 "u-pmd" 4 "0.00" 200 200;
    BudgetItem.mk 30 1 "u-pmd" 5 "0.00" 200 200 ].

Definition sample_db : Db.t := Db.mk locked_table 8.

Definition sample_template : Template.t :=
  Template.mk 3 "Cover letter" None "<p>Dear</p>" None 50.

(** The locked section as a browser other than the holder's sends it in a
    save, with new content. *)
Definition rewritten_section : ResponseSection.t :=
  ResponseSection.mk 7 1 "Approach" "<p>rewritten</p>" 0 (Some "u-sarah")
    (Some true) (Some "pm-a") 100 150.

(** Another stored section, and the table with both. *)
Definition other_section : ResponseSection.t :=
  ResponseSection.mk 6 1 "Summary" "<p>short</p>" 1 None (Some false) None
    90 90.

Definition two_sections : SectionTable :=
  {[ 6%Z := other_section; 7%Z := locked_section ]}.

Definition sample_requests : list (Z * EditorRequest) :=
  [ (200%Z, ReqAddSection 1 None (Some 1%Z));
    (210%Z, ReqToggleLock "pm-b" 8 true);
    (220%Z, ReqAssign 8 (Some "u-analyst"));
    (230%Z, ReqSave [rewritten_section]);
    (240%Z, ReqDeleteSection 7);
    (250%Z, ReqToggleLock "pm-b" 7 false) ].

Definition sample_rfps : list Rfp.t :=
  [ Rfp.mk 1 "Transit Study" "sam.gov" None None None "active" None 10 10 None
      (Some ["Transit"; "Planning"]) (Some "Texas") None;
    Rfp.mk 2 "Budget Audit" "state" None None None "active" None 5 5 None
      None None None ].

Definition sample_responses (rfpId : Z) : option (list ResponseSection.t) :=
  if Z.eqb rfpId 1 then Some [sample_section] else None.

Definition unknown_consultant : SearchFilters.t :=
  SearchFilters.mk (Some "study") None (Some "zed") None None.
(** ** Binary64 numbers as real numbers *)

(** After [k] one-bit shifts of the mantissa [M]: the quotient, a round
    bit that tells whether the remainder reaches one half of the last
    place, and a sticky bit that is clear only when the remainder is zero
    or exactly one half. *)
Definition shifted (M k : Z) (mrs : shr_record) : Prop :=
  shr_m mrs = (M / 2 ^ k)%Z
  /\ (if shr_r mrs then (2 ^ k <= 2 * (M mod 2 ^ k))%Z
      else (2 * (M mod 2 ^ k) < 2 ^ k)%Z)
  /\ (shr_s mrs = false ->
      (2 * (M mod 2 ^ k) = 0)%Z \/ (2 * (M mod 2 ^ k) = 2 ^ k)%Z).

(** The real number that a binary64 datum stands for (0 for the
    infinities and NaN). *)
Definition SF2R (x : spec_float) : R :=
  match x with
  | S754_finite s m e =>
      ((if s then -1 else 1) * IZR (Zpos m) * powerRZ 2 e)%R
  | _ => 0%R
  end.

Definition valueOf (x : Js.number) : R := SF2R (Prim2SF x).

(** A zero, or a positive number with a 53-bit mantissa. *)
Definition zeroOrNormal (x : spec_float) : Prop :=
  (exists s, x = S754_zero s)
  \/ (exists m e, x = S754_finite false m e /\ Zpos (digits2_pos m) = 53%Z).

(** The unit roundoff of binary64. *)
Definition roundoff : R := (/ 2 ^ 53)%R.

(** The datum [x] is the result of a computation on non-negative numbers
    whose exact result is [r]: it is a zero or a positive normal number
    within [k] roundings of [r], and [r] is zero or at least [2^-1000]. *)
Definition approximates (k : nat) (x : spec_float) (r : R) : Prop :=
  zeroOrNormal x
  /\ (r = 0 \/ powerRZ 2 (-1000) <= r)%R
  /\ (r * (1 - roundoff) ^ k <= SF2R x <= r * (1 + roundoff) ^ k)%R.

(** [x] is a zero or a positive number from [2^-500] up to, but not
    including, [2^500]. *)
Definition inRange (x : Js.number) : bool :=
  match Prim2SF x with
  | S754_zero _ => true
  | S754_finite false m e =>
      (-499 <=? Zpos (digits2_pos m) + e)%Z
      && (Zpos (digits2_pos m) + e <=? 500)%Z
  | _ => false
  end.

Definition rowInRange (users : list User.t) (row : BudgetRow.t) : Prop :=
  (forall year, inRange (yearHours row year) = true)
  /\ inRange (getEffectiveRate users row) = true.

(** At most [2^18] rows, with every hours entry and every effective rate
    in that range. *)
Definition boundedLedger (users : list User.t) (rows : list BudgetRow.t) : bool :=
  (Z.of_nat (List.length rows) <=? 262144)%Z
  && List.forallb
       (fun row =>
          List.forallb (fun year => inRange (yearHours row year)) all_years
          && inRange (getEffectiveRate users row))
       rows.

Definition Rsum (l : list R) : R := List.fold_right Rplus 0%R l.

(** The totals of the specification on real numbers, without rounding. *)
Definition exactRowTotal (users : list User.t) (row : BudgetRow.t) : R :=
  ((valueOf (BudgetRow.year1 row) + valueOf (BudgetRow.year2 row)
    + valueOf (BudgetRow.year3 row) + valueOf (BudgetRow.year4 row)
    + valueOf (BudgetRow.year5 row))
   * valueOf (getEffectiveRate users row))%R.

Definition exactYearTotal (users : list User.t) (rows : list BudgetRow.t)
    (year : Year) : R :=
  Rsum (List.map
          (fun row => (valueOf (yearHours row year)
                       * valueOf (getEffectiveRate users row))%R)
          rows).

Definition exactGrandTotal (users : list User.t) (rows : list BudgetRow.t) : R :=
  Rsum (List.map (exactRowTotal users) rows).

(** A zero or a positive finite number. *)
Definition isNonnegFinite (x : Js.number) : bool :=
  match Prim2SF x with
  | S754_zero _ | S754_finite false _ _ => true
  | _ => false
  end.

(** The ledger of [tenth_rows] with its hours multiplied by [2^60]. *)
Definition scaled_tenth_rows : list BudgetRow.t :=
  hoursInputOnChange sample_users 1 Y2 "230584300921369408"
    (hoursInputOnChange sample_users 1 Y1 "115292150460684704" [sarah_row]).

(** * Properties *)

(** Case analysis on every condition of a chain of [if]s, running [tac]
    after each split. *)
Ltac split_ifs tac :=
  repeat match goal with
         | |- context [if ?b then _ else _] => destruct b; tac
         end.

(** ** Rate and category resolution *)

Lemma first_group_unfold (t : string) :
  first_group t =
    if Js.includes t "principal" then Some (250%float, "principal")
    else if Js.includes t "managing" || Js.includes t "director"
    then Some (300%float, "managing_director")
    else if Js.includes t "consultant" then Some (175%float, "consultant")
    else if Js.includes t "research" || Js.includes t "associate"
    then Some (125%float, "research_associate")
    else if Js.includes t "copy" || Js.includes t "editor"
    then Some (100%float, "copy_editor")
    else None.
Proof.
  unfold first_group, keyword_groups. cbn [List.find List.existsb fst snd].
  rewrite !orb_false_r.
  split_ifs ltac:(cbn [option_map snd]; try reflexivity).
Qed.

Lemma no_keyword_first_group (t : string) :
  no_keyword t = true -> first_group t = None.
Proof.
  unfold no_keyword, first_group. intros H. apply negb_true_iff in H.
  destruct (List.find _ keyword_groups) as [g|] eqn:Hf; [|reflexivity].
  apply List.find_some in Hf as [Hin Hg].
  assert (List.existsb (fun g => List.existsb (Js.includes t) (fst g))
            keyword_groups = true).
  { apply List.existsb_exists. exists g. split; assumption. }
  congruence.
Qed.

Lemma getRoleCategory_spec (row : BudgetRow.t) :
  getRoleCategory row = specRoleCategory row.
Proof.
  unfold getRoleCategory, specRoleCategory. rewrite first_group_unfold.
  split_ifs ltac:(try reflexivity).
Qed.

Lemma getEffectiveRate_title_irrelevant (users : list User.t)
    (row : BudgetRow.t) (t : string) :
  getEffectiveRate users (applyEdit users row (EditCustomTitle t))
  = getEffectiveRate users row.
Proof. destruct row. reflexivity. Qed.

(** C1. For a row and the person it references, [getEffectiveRate] follows
    the precedence of the specification: a non-null override is returned as
    it is; otherwise the first keyword group found in the lowercased title,
    in the order principal (250), managing/director (300), consultant
    (175), research/associate (125), copy/editor (100); otherwise the
    person's own hourly rate when set; otherwise 150.  A person titled
    "Principal Managing Director" gets 250, not 300.  (The rate text of a
    [decimal] column is never empty.) *)
Theorem effective_rate_precedence
    (users : list User.t) (row : BudgetRow.t) (person : User.t) :
  findUser users (BudgetRow.userId row) = Some person ->
  User.hourlyRate person <> Some EmptyString ->
  getEffectiveRate users row = specEffectiveRate row person
  /\ (BudgetRow.customRate row = None ->
      User.title person = Some "Principal Managing Director" ->
      getEffectiveRate users row = 250%float).
Proof.
  intros Hfind Hrate.
  assert (Heq : getEffectiveRate users row = specEffectiveRate row person).
  { unfold getEffectiveRate, specEffectiveRate, getDefaultRate.
    destruct (BudgetRow.customRate row) as [rate|]; [reflexivity|].
    rewrite Hfind, first_group_unfold.
    set (title := Js.toLowerCase _).
    repeat match goal with
           | |- context [if ?b then _ else _] =>
               lazymatch b with
               | Js.truthy_string _ => fail
               | _ => destruct b;
                      cbn [DEFAULT_HOURLY_RATES RateTable.principal
                           RateTable.managing_director RateTable.consultant
                           RateTable.research_associate RateTable.copy_editor];
                      try reflexivity
               end
           end.
    destruct (User.hourlyRate person) as [[|c h]|]; cbn; try reflexivity.
    congruence. }
  split; [exact Heq|].
  intros Hnone Htitle. rewrite Heq. unfold specEffectiveRate.
  rewrite Hnone, Htitle. reflexivity.
Qed.

Lemma effective_rate_precedence_witness :
  getEffectiveRate sample_users pmd_row = specEffectiveRate pmd_row pmd
  /\ getEffectiveRate sample_users pmd_row = 250%float.
Proof.
  pose proof (effective_rate_precedence sample_users pmd_row pmd eq_refl
                ltac:(discriminate)) as [H1 H2].
  split; [exact H1|exact (H2 eq_refl eq_refl)].
Defined.

(** The fallbacks of C1 on data: an override of 99, the person's own rate
    187.50, and the Managing Director rate. *)
Example effective_rate_samples :
  getEffectiveRate sample_users
    (BudgetRow.mk 3 "u-pmd" "x" (Some 99%float)
       0%float 0%float 0%float 0%float 0%float) = 99%float
  /\ getEffectiveRate sample_users
       (BudgetRow.mk 4 "u-analyst" "x" None
          0%float 0%float 0%float 0%float 0%float) = 187.5%float
  /\ getEffectiveRate
       [User.mk "u-md" "m" "x" "m@example.com" "M" "managing_director"
          (Some "500.00") (Some "Managing Director")]
       (BudgetRow.mk 5 "u-md" "x" None
          0%float 0%float 0%float 0%float 0%float) = 300%float.
Proof. repeat split; vm_compute; reflexivity. Qed.

(** C4. [getRoleCategory] reads the row's own title (same keyword order,
    fallback [default]) and [getEffectiveRate] reads the person's title:
    no edit of the row's title changes the rate, and retitling the row of a
    person titled "Principal" to "Consultant", with no override, makes the
    category [consultant] while the rate stays 250. *)
Theorem category_and_rate_independently_keyed
    (users : list User.t) (row : BudgetRow.t) :
  getRoleCategory row = specRoleCategory row
  /\ (forall t : string,
        getEffectiveRate users (applyEdit users row (EditCustomTitle t))
        = getEffectiveRate users row)
  /\ (forall person : User.t,
        findUser users (BudgetRow.userId row) = Some person ->
        User.title person = Some "Principal" ->
        BudgetRow.customRate row = None ->
        let row' := applyEdit users row (EditCustomTitle "Consultant") in
        titleInputOnChange users (BudgetRow.id row) "Consultant" [row] = [row']
        /\ getRoleCategory row' = "consultant"
        /\ getEffectiveRate users row' = 250%float
        /\ getEffectiveRate users row = 250%float).
Proof.
  split; [apply getRoleCategory_spec|].
  split; [apply getEffectiveRate_title_irrelevant|].
  intros person Hfind Htitle Hnone row'.
  assert (Hrate : getEffectiveRate users row = 250%float).
  { unfold getEffectiveRate, getDefaultRate.
    rewrite Hnone, Hfind, Htitle. reflexivity. }
  repeat split.
  - unfold titleInputOnChange, updateRow. cbn [List.map].
    rewrite Z.eqb_refl. reflexivity.
  - subst row'. destruct row. reflexivity.
  - subst row'. rewrite getEffectiveRate_title_irrelevant. exact Hrate.
  - exact Hrate.
Qed.

Lemma category_and_rate_independently_keyed_witness :
  titleInputOnChange sample_users 1 "Consultant" [sarah_row]
  = [applyEdit sample_users sarah_row (EditCustomTitle "Consultant")]
  /\ getRoleCategory (applyEdit sample_users sarah_row (EditCustomTitle "Consultant"))
     = "consultant"
  /\ getEffectiveRate sample_users
       (applyEdit sample_users sarah_row (EditCustomTitle "Consultant"))
     = 250%float
  /\ getEffectiveRate sample_users sarah_row = 250%float.
Proof.
  exact (proj2 (proj2 (category_and_rate_independently_keyed sample_users sarah_row))
           sarah eq_refl eq_refl eq_refl).
Defined.

(** C9. The two resolvers are total functions and raise nothing:
    [getRoleCategory] always answers one of the six categories, and
    [default] when the row's title holds no keyword (an empty title
    included); [getEffectiveRate] answers 150 for a row with no override
    whose person id matches nobody, and for one whose person has no title
    keyword (a missing title included) and no hourly rate. *)
Theorem resolvers_total (users : list User.t) (row : BudgetRow.t) :
  In (getRoleCategory row) role_categories
  /\ (no_keyword (Js.toLowerCase (BudgetRow.customTitle row)) = true ->
      getRoleCategory row = "default")
  /\ (BudgetRow.customRate row = None ->
      findUser users (BudgetRow.userId row) = None ->
      getEffectiveRate users row = 150%float)
  /\ (forall person : User.t,
        BudgetRow.customRate row = None ->
        findUser users (BudgetRow.userId row) = Some person ->
        no_keyword (Js.toLowerCase (Js.string_or_empty (User.title person))) = true ->
        User.hourlyRate person = None ->
        getEffectiveRate users row = 150%float).
Proof.
  split; [|split; [|split]].
  - unfold getRoleCategory, role_categories.
    split_ifs idtac; cbn; tauto.
  - intros H. rewrite getRoleCategory_spec. unfold specRoleCategory.
    rewrite (no_keyword_first_group _ H). reflexivity.
  - intros Hnone Hfind. unfold getEffectiveRate, getDefaultRate.
    rewrite Hnone, Hfind. reflexivity.
  - intros person Hnone Hfind Hkw Hrate.
    unfold getEffectiveRate, getDefaultRate. rewrite Hnone, Hfind.
    pose proof (no_keyword_first_group _ Hkw) as Hfg.
    rewrite first_group_unfold in Hfg.
    set (title := Js.toLowerCase _) in *.
    repeat match type of Hfg with
           | context [if ?b then _ else _] => destruct b; try discriminate Hfg
           end.
    rewrite Hrate. reflexivity.
Qed.

Lemma resolvers_total_witness :
  (getRoleCategory stray_row = "default"
   /\ getEffectiveRate sample_users stray_row = 150%float)
  /\ getEffectiveRate [untitled] untitled_row = 150%float.
Proof.
  split; [split|].
  - exact (proj1 (proj2 (resolvers_total sample_users stray_row)) eq_refl).
  - exact (proj1 (proj2 (proj2 (resolvers_total sample_users stray_row)))
             eq_refl eq_refl).
  - exact (proj2 (proj2 (proj2 (resolvers_total [untitled] untitled_row)))
             untitled eq_refl eq_refl eq_refl eq_refl).
Defined.

(** ** Section locking and assignment *)

Lemma same_id_true (a : option string) (b : string) :
  same_id a b = true <-> a = Some b.
Proof.
  destruct a as [x|]; cbn.
  - rewrite String.eqb_eq. split; congruence.
  - split; discriminate.
Qed.

(** C2. [canEdit] is true exactly when the actor is a manager, or the
    section is not locked and is assigned to the actor.  For the assigned
    actor without manager capability it is the negation of the lock flag,
    and it is false right after a lock is written (by a manager who is a
    user), which leaves the assignment as it was; a lock that the database
    refuses changes nothing. *)
Theorem canEdit_iff (actorId : string) (isManager : bool)
    (section : ResponseSection.t) :
  (canEdit actorId isManager section = true
   <-> specCanEdit actorId isManager section)
  /\ (isManager = false ->
      ResponseSection.assignedUserId section = Some actorId ->
      canEdit actorId isManager section
      = negb (Js.truthy_bool (ResponseSection.isLocked section)))
  /\ (forall (users : list User.t) (pm : string) (now : Z)
             (table : SectionTable),
        isManager = false ->
        ResponseSection.assignedUserId section = Some actorId ->
        table !! ResponseSection.id section = Some section ->
        isUser users pm = true ->
        exists section',
          toggleLockMutation pm users now (ResponseSection.id section) true table
          = (<[ResponseSection.id section := section']> table, Json section')
          /\ ResponseSection.assignedUserId section' = Some actorId
          /\ canEdit actorId isManager section' = false)
  /\ (forall (users : list User.t) (pm : string) (now : Z)
             (table : SectionTable),
        table !! ResponseSection.id section = Some section ->
        isUser users pm = false ->
        toggleLockMutation pm users now (ResponseSection.id section) true table
        = (table, ServerError500)).
Proof.
  split; [|split; [|split]].
  - unfold canEdit, specCanEdit.
    rewrite orb_true_iff, andb_true_iff, negb_true_iff, same_id_true.
    reflexivity.
  - intros -> Ha. unfold canEdit. cbn [orb].
    rewrite (proj2 (same_id_true _ _) Ha), andb_true_r. reflexivity.
  - intros users pm now table -> Ha Hin Hpm.
    unfold toggleLockMutation, patchResponseSection, updateResponseSection.
    rewrite Hin. cbn [toggleLockBody SectionPatch.assignedUserId
                      SectionPatch.lockedByPmId refersToUser andb].
    rewrite Hpm. eexists. split; [reflexivity|]. split; [exact Ha|].
    reflexivity.
  - intros users pm now table Hin Hpm.
    unfold toggleLockMutation, patchResponseSection, updateResponseSection.
    rewrite Hin. cbn [toggleLockBody SectionPatch.assignedUserId
                      SectionPatch.lockedByPmId refersToUser andb].
    rewrite Hpm. reflexivity.
Qed.

Lemma canEdit_iff_witness :
  ((canEdit "u-sarah" false sample_section = true
    <-> specCanEdit "u-sarah" false sample_section)
   /\ canEdit "u-sarah" false sample_section = true)
  /\ (exists section',
        toggleLockMutation "pm-a" staff 200 7 true sample_table
        = (<[7%Z := section']> sample_table, Json section')
        /\ ResponseSection.assignedUserId section' = Some "u-sarah"
        /\ canEdit "u-sarah" false section' = false)
  /\ toggleLockMutation hardcoded_currentUserId staff 200 7 true sample_table
     = (sample_table, ServerError500).
Proof.
  pose proof (canEdit_iff "u-sarah" false sample_section) as [H1 [H2 [H3 H4]]].
  split; [split; [exact H1|]|split].
  - rewrite H2; reflexivity.
  - apply (H3 staff "pm-a" 200%Z sample_table); reflexivity.
  - apply (H4 staff hardcoded_currentUserId 200%Z sample_table); reflexivity.
Defined.

(** With the values the component hard-codes, every section is editable. *)
Example canEdit_hardcoded (section : ResponseSection.t) :
  canEdit hardcoded_currentUserId hardcoded_isPM section = true.
Proof. reflexivity. Qed.

(** C10. A lock-toggle write sets the flag and the holder in one update.
    When the route answers with a row, the stored row has [isLocked] as
    sent and [lockedByPmId] the acting user when locking and null when
    unlocking, so it is locked exactly when it has a holder; that happens
    exactly when the section is stored and, for a lock, the acting user is
    a row of [users].  Otherwise (404 for a missing section, 500 when the
    database refuses the holder or the key) nothing is written.  So a table
    whose rows are locked exactly when they have a holder stays so. *)
Theorem lock_toggle_writes_both (users : list User.t) (currentUserId : string)
    (now id : Z) (isLocked : bool) (table : SectionTable) :
  match toggleLockMutation currentUserId users now id isLocked table with
  | (table', Json section') =>
      table' = <[id := section']> table
      /\ ResponseSection.isLocked section' = Some isLocked
      /\ ResponseSection.lockedByPmId section'
         = (if isLocked then Some currentUserId else None)
      /\ lockConsistent section'
      /\ table !! id <> None
      /\ (isLocked = true -> isUser users currentUserId = true)
  | (table', NotFound404) =>
      table' = table /\ table !! id = None /\ isInt4 id = true
  | (table', ServerError500) =>
      table' = table
      /\ ((table !! id = None /\ isInt4 id = false)
          \/ (table !! id <> None /\ isLocked = true
              /\ isUser users currentUserId = false))
  end
  /\ (table !! id <> None ->
      (isLocked = false \/ isUser users currentUserId = true) ->
      exists section',
        snd (toggleLockMutation currentUserId users now id isLocked table)
        = Json section')
  /\ ((forall i s, table !! i = Some s -> lockConsistent s) ->
      forall i s,
        fst (toggleLockMutation currentUserId users now id isLocked table) !! i
        = Some s ->
        lockConsistent s).
Proof.
  assert (Hcons : forall s : ResponseSection.t,
             lockConsistent (setColumns now (toggleLockBody currentUserId isLocked) s)).
  { intros s. unfold lockConsistent. cbn. destruct isLocked; split; congruence. }
  unfold toggleLockMutation, patchResponseSection, updateResponseSection.
  cbn [toggleLockBody SectionPatch.assignedUserId SectionPatch.lockedByPmId
       refersToUser andb].
  destruct (table !! id) as [s|] eqn:Hs.
  - destruct isLocked.
    + destruct (isUser users currentUserId) eqn:Hu.
      * split; [|split].
        -- split; [reflexivity|]. split; [reflexivity|]. split; [reflexivity|].
           split; [apply Hcons|]. split; [discriminate|]. intros _. reflexivity.
        -- intros _ _. eexists. reflexivity.
        -- intros Hall i s' Hi. cbn [fst] in Hi.
           apply lookup_insert_Some in Hi as [[_ <-]|[_ Hi]];
             [apply Hcons|exact (Hall i s' Hi)].
      * split; [|split].
        -- split; [reflexivity|]. right. split; [discriminate|].
           split; reflexivity.
        -- intros _ [H|H]; discriminate.
        -- intros Hall i s' Hi. exact (Hall i s' Hi).
    + split; [|split].
      * split; [reflexivity|]. split; [reflexivity|]. split; [reflexivity|].
        split; [apply Hcons|]. split; [discriminate|]. discriminate.
      * intros _ _. eexists. reflexivity.
      * intros Hall i s' Hi. cbn [fst] in Hi.
        apply lookup_insert_Some in Hi as [[_ <-]|[_ Hi]];
          [apply Hcons|exact (Hall i s' Hi)].
  - destruct (isInt4 id) eqn:Hr.
    + split; [|split].
      * split; [reflexivity|]. split; reflexivity.
      * intros H. contradiction.
      * intros Hall i s' Hi. exact (Hall i s' Hi).
    + split; [|split].
      * split; [reflexivity|]. left. split; reflexivity.
      * intros H. contradiction.
      * intros Hall i s' Hi. exact (Hall i s' Hi).
Qed.

(** The lock button sends the negation of the flag it shows. *)
Example lock_button_toggles :
  lockButtonClick "pm-a" true staff 200 locked_section locked_table
  = Some (toggleLockMutation "pm-a" staff 200 7 false locked_table)
  /\ lockButtonClick "pm-a" false staff 200 locked_section locked_table = None.
Proof. split; reflexivity. Qed.

(** C6, as the specification states it, fails: a lock by manager [pm-b] on
    a section that [pm-a] holds is answered with the updated row, whose
    holder is now [pm-b]. *)
Lemma lock_by_other_manager_succeeds :
  toggleLockMutation "pm-b" staff 200 7 true locked_table
  = ({[ 7%Z := ResponseSection.mk 7 1 "Approach" EmptyString 0 (Some "u-sarah")
                 (Some true) (Some "pm-b") 100 200 ]},
     Json (ResponseSection.mk 7 1 "Approach" EmptyString 0 (Some "u-sarah")
             (Some true) (Some "pm-b") 100 200)).
Proof. vm_compute. reflexivity. Qed.

(** C6, amended. There is no conflict check.  A lock on an existing section
    by an actor who is a row of [users] succeeds and the last writer wins:
    the stored row is locked and held by the acting user alone, whoever
    held it before, with the assignment untouched; when the section was
    already locked by the same user, only the time stamp changes.  A lock
    by an actor who is no row of [users] is refused by the database: the
    route answers 500 and the table is as it was. *)
Theorem lock_last_writer_wins (users : list User.t) (actor : string)
    (now id : Z) (table : SectionTable) (section : ResponseSection.t) :
  table !! id = Some section ->
  (isUser users actor = true ->
   exists section',
     toggleLockMutation actor users now id true table
     = (<[id := section']> table, Json section')
     /\ ResponseSection.isLocked section' = Some true
     /\ ResponseSection.lockedByPmId section' = Some actor
     /\ (forall holder, ResponseSection.lockedByPmId section' = Some holder ->
                        holder = actor)
     /\ ResponseSection.assignedUserId section'
        = ResponseSection.assignedUserId section
     /\ (ResponseSection.isLocked section = Some true ->
         ResponseSection.lockedByPmId section = Some actor ->
         section' = touched now section))
  /\ (isUser users actor = false ->
      toggleLockMutation actor users now id true table = (table, ServerError500)).
Proof.
  intros Hin.
  unfold toggleLockMutation, patchResponseSection, updateResponseSection.
  rewrite Hin. cbn [toggleLockBody SectionPatch.assignedUserId
                    SectionPatch.lockedByPmId refersToUser andb].
  split; intros Hu; rewrite Hu; [|reflexivity].
  eexists. split; [reflexivity|].
  split; [reflexivity|]. split; [reflexivity|].
  split; [cbn; congruence|]. split; [reflexivity|].
  intros Hl Hh. unfold touched, setColumns. cbn. rewrite Hl, Hh. reflexivity.
Qed.

Lemma lock_last_writer_wins_witness :
  (exists section',
     toggleLockMutation "pm-a" staff 200 7 true locked_table
     = (<[7%Z := section']> locked_table, Json section')
     /\ ResponseSection.isLocked section' = Some true
     /\ ResponseSection.lockedByPmId section' = Some "pm-a"
     /\ (forall holder, ResponseSection.lockedByPmId section' = Some holder ->
                        holder = "pm-a")
     /\ ResponseSection.assignedUserId section'
        = ResponseSection.assignedUserId locked_section
     /\ (ResponseSection.isLocked locked_section = Some true ->
         ResponseSection.lockedByPmId locked_section = Some "pm-a" ->
         section' = touched 200 locked_section))
  /\ toggleLockMutation hardcoded_currentUserId staff 200 7 true locked_table
     = (locked_table, ServerError500).
Proof.
  split.
  - apply (lock_last_writer_wins staff "pm-a" 200%Z 7%Z locked_table
             locked_section); reflexivity.
  - apply (lock_last_writer_wins staff hardcoded_currentUserId 200%Z 7%Z
             locked_table locked_section); reflexivity.
Defined.

(** C7, as the specification states it, fails: for an actor without
    manager capability the assignee control sends nothing, on a locked and
    on an unlocked section alike, and the route itself applies an
    assignment to a locked section and answers with the updated row. *)
Lemma assign_on_locked_raises_no_error :
  assigneeSelectChange false staff 200 locked_section "u-pmd" locked_table = None
  /\ assigneeSelectChange false staff 200 sample_section "u-pmd" sample_table
     = None
  /\ snd (assignUserMutation staff 200 7 (Some "u-pmd") locked_table)
     = Json (ResponseSection.mk 7 1 "Approach" EmptyString 0 (Some "u-pmd")
               (Some true) (Some "pm-a") 100 200).
Proof. repeat split; vm_compute; reflexivity. Qed.

(** C7, amended. Assignment is gated by the role, not by the lock: without
    manager capability the control sends nothing whatever the lock state;
    with it, an assignment to a row of [users], or to nobody, is written
    and [isLocked] and [lockedByPmId] keep their values.  The route treats
    every assignment it receives in the same way, whoever sends it: it
    writes an assignment to a user or to nobody, and answers 500, writing
    nothing, when the assignee is no row of [users]. *)
Theorem assign_gated_by_role_not_lock (users : list User.t) (isPM : bool)
    (now : Z) (table : SectionTable) (section : ResponseSection.t)
    (value : string) :
  table !! ResponseSection.id section = Some section ->
  (isPM = false ->
   assigneeSelectChange isPM users now section value table = None)
  /\ (isPM = true ->
      value = "unassigned" \/ isUser users value = true ->
      exists section',
        assigneeSelectChange isPM users now section value table
        = Some (<[ResponseSection.id section := section']> table, Json section')
        /\ ResponseSection.assignedUserId section'
           = (if String.eqb value "unassigned" then None else Some value)
        /\ ResponseSection.isLocked section' = ResponseSection.isLocked section
        /\ ResponseSection.lockedByPmId section'
           = ResponseSection.lockedByPmId section)
  /\ (forall userId : option string,
        refersToUser users (Some userId) = true ->
        exists section',
          assignUserMutation users now (ResponseSection.id section) userId table
          = (<[ResponseSection.id section := section']> table, Json section')
          /\ ResponseSection.assignedUserId section' = userId
          /\ ResponseSection.isLocked section' = ResponseSection.isLocked section
          /\ ResponseSection.lockedByPmId section'
             = ResponseSection.lockedByPmId section)
  /\ (forall userId : string,
        isUser users userId = false ->
        assignUserMutation users now (ResponseSection.id section) (Some userId)
          table
        = (table, ServerError500)).
Proof.
  intros Hin.
  assert (Hroute : forall userId : option string,
             refersToUser users (Some userId) = true ->
             exists section',
               assignUserMutation users now (ResponseSection.id section) userId
                 table
               = (<[ResponseSection.id section := section']> table, Json section')
               /\ ResponseSection.assignedUserId section' = userId
               /\ ResponseSection.isLocked section'
                  = ResponseSection.isLocked section
               /\ ResponseSection.lockedByPmId section'
                  = ResponseSection.lockedByPmId section).
  { intros userId Hu. unfold assignUserMutation, patchResponseSection,
      updateResponseSection. rewrite Hin.
    cbn [assignUserBody SectionPatch.assignedUserId SectionPatch.lockedByPmId].
    rewrite Hu. cbn [refersToUser andb].
    eexists. split; [reflexivity|]. repeat split. }
  split; [|split; [|split]].
  - intros ->. reflexivity.
  - intros -> Hv. unfold assigneeSelectChange. cbn [negb].
    destruct (Hroute (if String.eqb value "unassigned" then None else Some value))
      as (section' & Heq & Hrest).
    { destruct (String.eqb value "unassigned") eqn:E; [reflexivity|].
      destruct Hv as [->|Hv]; [discriminate|exact Hv]. }
    exists section'. rewrite Heq. split; [reflexivity|exact Hrest].
  - exact Hroute.
  - intros userId Hu. unfold assignUserMutation, patchResponseSection,
      updateResponseSection. rewrite Hin.
    cbn [assignUserBody SectionPatch.assignedUserId SectionPatch.lockedByPmId
         refersToUser].
    rewrite Hu. reflexivity.
Qed.

Lemma assign_gated_by_role_not_lock_witness :
  assigneeSelectChange false staff 200 locked_section "u-pmd" locked_table = None
  /\ (exists section',
        assigneeSelectChange true staff 200 locked_section "u-pmd" locked_table
        = Some (<[7%Z := section']> locked_table, Json section')
        /\ ResponseSection.assignedUserId section' = Some "u-pmd"
        /\ ResponseSection.isLocked section' = Some true
        /\ ResponseSection.lockedByPmId section' = Some "pm-a")
  /\ assignUserMutation staff 200 7 (Some "no-such-user") locked_table
     = (locked_table, ServerError500).
Proof.
  split; [|split].
  - exact (proj1 (assign_gated_by_role_not_lock staff false 200%Z locked_table
                    locked_section "u-pmd" eq_refl) eq_refl).
  - exact (proj1 (proj2 (assign_gated_by_role_not_lock staff true 200%Z
                           locked_table locked_section "u-pmd" eq_refl))
             eq_refl (or_intror eq_refl)).
  - exact (proj2 (proj2 (proj2 (assign_gated_by_role_not_lock staff true 200%Z
                                  locked_table locked_section "u-pmd" eq_refl)))
             "no-such-user" eq_refl).
Defined.

(** ** Row edits *)

Lemma applyEdit_year (users : list User.t) (r : BudgetRow.t) (year : Year)
    (v : Js.number) :
  BudgetRow.id (applyEdit users r (EditYear year v)) = BudgetRow.id r
  /\ BudgetRow.userId (applyEdit users r (EditYear year v)) = BudgetRow.userId r
  /\ BudgetRow.customTitle (applyEdit users r (EditYear year v))
     = BudgetRow.customTitle r
  /\ BudgetRow.customRate (applyEdit users r (EditYear year v))
     = BudgetRow.customRate r
  /\ forall y, yearHours (applyEdit users r (EditYear year v)) y
               = if Year_eqb year y then v else yearHours r y.
Proof.
  destruct r, year; cbn; repeat split; intros []; reflexivity.
Qed.

Lemma applyEdit_year_twice (users : list User.t) (r : BudgetRow.t)
    (year : Year) (v w : Js.number) :
  applyEdit users (applyEdit users r (EditYear year v)) (EditYear year w)
  = applyEdit users r (EditYear year w).
Proof. destruct r, year; reflexivity. Qed.

(** Writing the hours of a year (one of the five slots, by type): in
    every row with the given id the slot of that year becomes the new
    value, the other slots and columns keep theirs, and rows with another
    id are left alone; a second write replaces the first and adds nothing
    to it; the input hands over [parseFloat(text) || 0], with no test of
    its sign. *)
Lemma set_hours_overwrites (users : list User.t) (id : Z) (year : Year)
    (v : Js.number) (rows : list BudgetRow.t) :
  (forall (i : nat) (r : BudgetRow.t),
      nth_error rows i = Some r ->
      exists r',
        nth_error (updateRow users id (EditYear year v) rows) i = Some r'
        /\ BudgetRow.id r' = BudgetRow.id r
        /\ BudgetRow.userId r' = BudgetRow.userId r
        /\ BudgetRow.customTitle r' = BudgetRow.customTitle r
        /\ BudgetRow.customRate r' = BudgetRow.customRate r
        /\ forall y, yearHours r' y
                     = if Z.eqb (BudgetRow.id r) id && Year_eqb year y
                       then v else yearHours r y)
  /\ (forall w : Js.number,
        updateRow users id (EditYear year w)
          (updateRow users id (EditYear year v) rows)
        = updateRow users id (EditYear year w) rows)
  /\ (forall text : string,
        hoursInputOnChange users id year text rows
        = updateRow users id
            (EditYear year (Js.or_else (Js.parseFloat text) 0%float)) rows).
Proof.
  split; [|split].
  - intros i r Hi. unfold updateRow.
    rewrite nth_error_map, Hi. cbn [option_map].
    eexists. split; [reflexivity|].
    destruct (Z.eqb (BudgetRow.id r) id); cbn [negb andb].
    + pose proof (applyEdit_year users r year v) as (H1 & H2 & H3 & H4 & H5).
      repeat split; assumption.
    + repeat split.
  - intros w. unfold updateRow. rewrite List.map_map.
    apply List.map_ext. intros r.
    destruct (Z.eqb (BudgetRow.id r) id) eqn:E; cbn [negb].
    + pose proof (applyEdit_year users r year v) as (H1 & _).
      rewrite H1, E. cbn [negb]. apply applyEdit_year_twice.
    + rewrite E. reflexivity.
  - reflexivity.
Qed.

(** C8. The overwriting half of the claim holds, the rejection does not:
    the hours input declares [min="0"], but its [onChange] hands
    [parseFloat(text) || 0] to [updateRow] without looking at the sign.
    Typing -5 into the year-3 input of Sarah's row (10 hours in year 1) is
    not rejected and does not leave the row unchanged: the row then holds
    -5 hours in year 3, its total drops from 2500 to 1250, and -5 is what
    [saveMutation] posts for that year.  Typing 40 and then 10 leaves 10,
    as the claim says.  On every ledger, typing -5 into the input of a
    year leaves -5 in that slot of the row. *)
Theorem negative_hours_are_stored :
  hoursInputOnChange sample_users 1 Y3 "-5" [sarah_row]
  = [BudgetRow.mk 1 "u-sarah" "Principal" None
       10%float 0%float (-5)%float 0%float 0%float]
  /\ List.map (calculateRowTotal sample_users) [sarah_row] = [2500%float]
  /\ List.map (calculateRowTotal sample_users)
       (hoursInputOnChange sample_users 1 Y3 "-5" [sarah_row])
     = [1250%float]
  /\ List.map SaveItem.hours
       (saveItems (hoursInputOnChange sample_users 1 Y3 "-5" [sarah_row]))
     = [10%float; 0%float; (-5)%float; 0%float; 0%float]
  /\ List.map (fun r => yearHours r Y3)
       (hoursInputOnChange sample_users 1 Y3 "10"
          (hoursInputOnChange sample_users 1 Y3 "40" [sarah_row]))
     = [10%float]
  /\ (forall (users : list User.t) (id : Z) (year : Year)
             (rows : list BudgetRow.t) (i : nat) (r : BudgetRow.t),
        nth_error rows i = Some r ->
        BudgetRow.id r = id ->
        exists r',
          nth_error (hoursInputOnChange users id year "-5" rows) i = Some r'
          /\ yearHours r' year = (-5)%float).
Proof.
  split; [vm_compute; reflexivity|]. split; [vm_compute; reflexivity|].
  split; [vm_compute; reflexivity|]. split; [vm_compute; reflexivity|].
  split; [vm_compute; reflexivity|].
  intros users id year rows i r Hi Hid.
  destruct (proj1 (set_hours_overwrites users id year (-5)%float rows) i r Hi)
    as (r' & Hr' & _ & _ & _ & _ & Hy).
  exists r'. split.
  - rewrite (proj2 (proj2 (set_hours_overwrites users id year (-5)%float rows))
               "-5").
    replace (Js.or_else (Js.parseFloat "-5") 0%float) with (-5)%float
      by (vm_compute; reflexivity).
    exact Hr'.
  - rewrite (Hy year), Hid, Z.eqb_refl.
    destruct year; reflexivity.
Qed.

(** Section 8 of the specification: 40 hours then 10 hours in year 3
    leaves 10. *)
Example set_hours_40_then_10 :
  List.map (fun r => yearHours r Y3)
    (hoursInputOnChange sample_users 1 Y3 "10"
       (hoursInputOnChange sample_users 1 Y3 "40" [sarah_row]))
  = [10%float].
Proof. vm_compute. reflexivity. Qed.

(** C5. The claim holds inside [getEffectiveRate] and breaks at the rate
    input: typing 0 there hands [parseFloat("0") || null], that is null, to
    [updateRow], so the override is cleared instead of set to zero.  For
    Sarah's row (Principal, 10 hours) the row is left as it was and its
    total stays 2500, while the same row with an override of 0 written
    directly has total 0; on every ledger, typing 0 is the edit that clears
    the override. *)
Theorem zero_rate_input_clears_override :
  rateInputOnChange sample_users 1 "0" [sarah_row] = [sarah_row]
  /\ List.map BudgetRow.customRate
       (rateInputOnChange sample_users 1 "0" [sarah_row]) = [None]
  /\ List.map (calculateRowTotal sample_users)
       (rateInputOnChange sample_users 1 "0" [sarah_row]) = [2500%float]
  /\ calculateRowTotal sample_users
       (applyEdit sample_users sarah_row (EditCustomRate (Some 0%float)))
     = 0%float
  /\ (forall (users : list User.t) (id : Z) (rows : list BudgetRow.t),
        rateInputOnChange users id "0" rows
        = updateRow users id (EditCustomRate None) rows).
Proof.
  split; [vm_compute; reflexivity|]. split; [vm_compute; reflexivity|].
  split; [vm_compute; reflexivity|]. split; [vm_compute; reflexivity|].
  intros users id rows. unfold rateInputOnChange.
  replace (Js.or_null (Js.parseFloat "0")) with (@None Js.number)
    by (vm_compute; reflexivity).
  reflexivity.
Qed.

(** ** Binary64 facts *)

Lemma is_finite_spec (x : float) :
  PrimFloat.is_finite x = true ->
  (exists s, Prim2SF x = S754_zero s)
  \/ (exists s m e, Prim2SF x = S754_finite s m e).
Proof.
  unfold PrimFloat.is_finite, PrimFloat.is_nan, PrimFloat.is_infinity.
  rewrite !FloatAxioms.eqb_spec, FloatAxioms.abs_spec.
  destruct (Prim2SF x) as [s|s| |s m e]; eauto.
  - destruct s; discriminate.
  - discriminate.
Qed.

Lemma infinity_leb_finite (eps : float) :
  PrimFloat.is_finite eps = true -> (infinity <=? eps)%float = false.
Proof.
  intros H. rewrite FloatAxioms.leb_spec.
  destruct (is_finite_spec eps H) as [[s ->]|(s & m & e & ->)]; reflexivity.
Qed.

Lemma finite_times_zero (x : float) :
  PrimFloat.is_finite x = true -> (x * 0 =? 0)%float = true.
Proof.
  intros H. rewrite FloatAxioms.eqb_spec, FloatAxioms.mul_spec.
  destruct (is_finite_spec x H) as [[s ->]|(s & m & e & ->)]; reflexivity.
Qed.

(** Inside the ledger a zero override wins: whatever the person's title
    and rate, the row total is zero as soon as the hours add up to a finite
    number. *)
Lemma zero_override_zero_total (users : list User.t) (row : BudgetRow.t) :
  BudgetRow.customRate row = Some 0%float ->
  PrimFloat.is_finite
    (BudgetRow.year1 row + BudgetRow.year2 row + BudgetRow.year3 row
     + BudgetRow.year4 row + BudgetRow.year5 row)%float = true ->
  (calculateRowTotal users row =? 0)%float = true.
Proof.
  intros Hrate Hfin. unfold calculateRowTotal, getEffectiveRate.
  rewrite Hrate. apply finite_times_zero, Hfin.
Qed.

(** ** Exact binary64 arithmetic on dyadic numbers with 53-bit numerators *)

Local Open Scope Z_scope.

Lemma digits2_pos_log2 (p : positive) :
  Zpos (digits2_pos p) = Z.log2 (Zpos p) + 1.
Proof.
  assert (H : forall q, digits2_pos q = Pos.size q).
  { induction q; cbn; congruence. }
  rewrite H. destruct p; cbn [Z.log2 Pos.size]; lia.
Qed.

Lemma Zpos_iter_xO (m d : positive) :
  Zpos (Pos.iter xO m d) = Zpos m * 2 ^ Zpos d.
Proof.
  revert m. induction d using Pos.peano_ind; intros m.
  - cbn. lia.
  - rewrite Pos.iter_succ, Pos2Z.inj_succ, Z.pow_succ_r by lia.
    rewrite Pos2Z.inj_xO, IHd. lia.
Qed.

(** Shifting out bits that were shifted in loses nothing. *)
Lemma iter_shr_1_exact (n m : positive) :
  SpecFloat.iter_pos shr_1 n
    {| shr_m := Zpos (Pos.iter xO m n); shr_r := false; shr_s := false |}
  = {| shr_m := Zpos m; shr_r := false; shr_s := false |}.
Proof.
  revert m.
  induction n as [n IH|n IH|]; intros m; cbn [SpecFloat.iter_pos Pos.iter].
  - cbn [shr_1 orb]. rewrite IH, IH. reflexivity.
  - rewrite IH, IH. reflexivity.
  - reflexivity.
Qed.

Lemma shr_exact (s m : positive) (n e : Z) :
  0 <= n -> Zpos s = Zpos m * 2 ^ n ->
  shr {| shr_m := Zpos s; shr_r := false; shr_s := false |} e n
  = ({| shr_m := Zpos m; shr_r := false; shr_s := false |}, e + n).
Proof.
  intros Hn Hs. destruct n as [|n|n]; [| |lia].
  - cbn. rewrite Z.add_0_r. f_equal. f_equal. lia.
  - cbn [shr]. f_equal.
    assert (s = Pos.iter xO m n) as ->.
    { apply Pos2Z.inj. rewrite Zpos_iter_xO. exact Hs. }
    apply iter_shr_1_exact.
Qed.

Lemma fexp64_normal (x : Z) : -1021 <= x -> fexp64 x = x - 53.
Proof. unfold fexp, SpecFloat.emin, prec, emax. lia. Qed.

Lemma digits_shift (m s : positive) (n : Z) :
  0 <= n -> Zpos s = Zpos m * 2 ^ n ->
  Zpos (digits2_pos s) = Zpos (digits2_pos m) + n.
Proof.
  intros Hn Hs. rewrite !digits2_pos_log2, Hs, Z.log2_mul_pow2; lia.
Qed.

Lemma digits_bound (a : positive) :
  Zpos a < 2 ^ 53 -> 1 <= Zpos (digits2_pos a) <= 53.
Proof.
  intros H. rewrite digits2_pos_log2.
  pose proof (Z.log2_nonneg (Zpos a)).
  assert (Z.log2 (Zpos a) < 53) by (apply Z.log2_lt_pow2; lia). lia.
Qed.

Lemma digits_mono (a b : positive) :
  Zpos a <= Zpos b -> Zpos (digits2_pos a) <= Zpos (digits2_pos b).
Proof.
  intros H. rewrite !digits2_pos_log2.
  pose proof (Z.log2_le_mono _ _ H). lia.
Qed.

Lemma pow2_merge (x y z w : Z) :
  0 <= x -> 0 <= y -> 0 <= z -> 0 <= w -> x + y = z + w ->
  2 ^ x * 2 ^ y = 2 ^ z * 2 ^ w.
Proof.
  intros. rewrite <- !Z.pow_add_r by lia. f_equal. lia.
Qed.

(** Rounding a mantissa whose low [n] bits are zero drops exactly those
    bits, when what is left is in normal form. *)
Lemma binary_round_aux_exact (sx : bool) (s m : positive) (e n : Z) :
  0 <= n ->
  Zpos s = Zpos m * 2 ^ n ->
  fexp64 (Zpos (digits2_pos m) + (e + n)) = e + n ->
  e + n <= emax - prec ->
  binary_round_aux prec emax sx (Zpos s) e loc_Exact = S754_finite sx m (e + n).
Proof.
  intros Hn Hs Hf He.
  unfold binary_round_aux, shr_fexp.
  cbn [shr_record_of_loc Zdigits2].
  pose proof (digits_shift m s n Hn Hs) as Hd.
  replace (fexp64 (Zpos (digits2_pos s) + e) - e) with n
    by (rewrite Hd; replace (Zpos (digits2_pos m) + n + e)
          with (Zpos (digits2_pos m) + (e + n)) by lia; lia).
  rewrite (shr_exact s m n e Hn Hs).
  cbn [shr_m loc_of_shr_record round_nearest_even Zdigits2 shr_record_of_loc].
  rewrite Hf, Z.sub_diag. cbn [shr shr_m].
  apply Z.leb_le in He. rewrite He. reflexivity.
Qed.

Lemma shl_align_le (m : positive) (e e' : Z) :
  e' <= e ->
  exists m', shl_align m e e' = (m', e') /\ Zpos m' = Zpos m * 2 ^ (e - e').
Proof.
  intros H. unfold shl_align. destruct (e' - e) as [|d|d] eqn:E; [| lia |].
  - exists m. assert (e' = e) as -> by lia. rewrite Z.sub_diag.
    split; [reflexivity|lia].
  - exists (Pos.iter xO m d). split; [reflexivity|].
    rewrite Zpos_iter_xO. f_equal. f_equal. lia.
Qed.

Lemma shl_align_ge (m : positive) (e e' : Z) :
  e <= e' -> shl_align m e e' = (m, e).
Proof.
  intros H. unfold shl_align. destruct (e' - e) eqn:E; try reflexivity. lia.
Qed.

(** The normal form of a positive dyadic number with a 53-bit numerator. *)
Lemma dyadic_pos (a : positive) (e : Z) :
  Zpos a < 2 ^ 53 -> -1022 <= e <= 971 ->
  exists m,
    Zpos m = Zpos a * 2 ^ (53 - Zpos (digits2_pos a))
    /\ dyadic (Zpos a) e = S754_finite false m (e + Zpos (digits2_pos a) - 53).
Proof.
  intros Ha He. pose proof (digits_bound a Ha) as Hd.
  unfold dyadic, binary_normalize, binary_round.
  rewrite fexp64_normal by lia.
  destruct (shl_align_le a e (Zpos (digits2_pos a) + e - 53) ltac:(lia))
    as (m & -> & Hm).
  replace (e - (Zpos (digits2_pos a) + e - 53))
    with (53 - Zpos (digits2_pos a)) in Hm by lia.
  exists m. split; [exact Hm|].
  replace (e + Zpos (digits2_pos a) - 53)
    with (Zpos (digits2_pos a) + e - 53 + 0) by lia.
  apply binary_round_aux_exact.
  - lia.
  - lia.
  - rewrite (digits_shift a m (53 - Zpos (digits2_pos a)) ltac:(lia) Hm).
    rewrite fexp64_normal; lia.
  - unfold emax, prec. lia.
Qed.

Lemma dyadic_zero (e : Z) : dyadic 0 e = S754_zero false.
Proof. reflexivity. Qed.

(** Binary64 addition is exact on two such numbers over the same unit when
    the sum of the numerators still has 53 bits. *)
Lemma dyadic_add (a b e : Z) :
  0 <= a -> 0 <= b -> a + b < 2 ^ 53 -> -1022 <= e <= 971 ->
  SF64add (dyadic a e) (dyadic b e) = dyadic (a + b) e.
Proof.
  intros Ha Hb Hab He.
  destruct a as [|a|a]; [| |lia].
  { rewrite Z.add_0_l, dyadic_zero.
    destruct b as [|b|b]; [reflexivity| |lia].
    destruct (dyadic_pos b e ltac:(lia) He) as (m & _ & ->). reflexivity. }
  destruct b as [|b|b]; [| |lia].
  { rewrite Z.add_0_r, dyadic_zero.
    destruct (dyadic_pos a e ltac:(lia) He) as (m & _ & ->). reflexivity. }
  destruct (dyadic_pos a e ltac:(lia) He) as (m1 & Hm1 & ->).
  destruct (dyadic_pos b e ltac:(lia) He) as (m2 & Hm2 & ->).
  change (Z.pos a + Z.pos b) with (Z.pos (a + b)) in *.
  destruct (dyadic_pos (a + b) e ltac:(lia) He) as (m3 & Hm3 & ->).
  pose proof (digits_bound a ltac:(lia)) as Hda.
  pose proof (digits_bound b ltac:(lia)) as Hdb.
  pose proof (digits_bound (a + b) ltac:(lia)) as Hdc.
  pose proof (digits_mono a (a + b) ltac:(lia)) as Hac.
  pose proof (digits_mono b (a + b) ltac:(lia)) as Hbc.
  set (da := Zpos (digits2_pos a)) in *.
  set (db := Zpos (digits2_pos b)) in *.
  set (dc := Zpos (digits2_pos (a + b))) in *.
  unfold SF64add, SFadd.
  set (ez := Z.min (e + da - 53) (e + db - 53)).
  destruct (shl_align_le m1 (e + da - 53) ez ltac:(lia)) as (n1 & -> & Hn1).
  destruct (shl_align_le m2 (e + db - 53) ez ltac:(lia)) as (n2 & -> & Hn2).
  cbn [fst cond_Zopp].
  change (Z.pos n1 + Z.pos n2) with (Z.pos (n1 + n2)).
  cbn [binary_normalize].
  assert (Hs : Zpos (n1 + n2) = Zpos (a + b) * 2 ^ (e - ez)).
  { rewrite !Pos2Z.inj_add, Hn1, Hn2, Hm1, Hm2.
    rewrite <- !Z.mul_assoc.
    rewrite (pow2_merge (53 - da) (e + da - 53 - ez) (e - ez) 0) by lia.
    rewrite (pow2_merge (53 - db) (e + db - 53 - ez) (e - ez) 0) by lia.
    cbn. lia. }
  unfold binary_round.
  rewrite (digits_shift (a + b) (n1 + n2) (e - ez) ltac:(lia) Hs).
  fold dc. rewrite fexp64_normal by lia.
  rewrite shl_align_ge by lia.
  replace (e + dc - 53) with (ez + (e + dc - 53 - ez)) by lia.
  apply binary_round_aux_exact.
  - lia.
  - rewrite Hs, Hm3. fold dc. rewrite <- Z.mul_assoc. f_equal.
    rewrite (pow2_merge (53 - dc) (e + dc - 53 - ez) (e - ez) 0) by lia.
    cbn. lia.
  - rewrite (digits_shift (a + b) m3 (53 - dc) ltac:(lia) Hm3). fold dc.
    rewrite fexp64_normal; lia.
  - unfold emax, prec. lia.
Qed.

(** Binary64 multiplication is exact on two such numbers when the product
    of the numerators still has 53 bits. *)
Lemma dyadic_mul (a b e1 e2 : Z) :
  0 <= a < 2 ^ 53 -> 0 <= b < 2 ^ 53 -> a * b < 2 ^ 53 ->
  -1022 <= e1 <= 971 -> -1022 <= e2 <= 971 -> -1022 <= e1 + e2 <= 971 ->
  SF64mul (dyadic a e1) (dyadic b e2) = dyadic (a * b) (e1 + e2).
Proof.
  intros Ha Hb Hab He1 He2 He.
  destruct a as [|a|a]; [| |lia].
  { rewrite Z.mul_0_l, dyadic_zero.
    destruct b as [|b|b]; [reflexivity| |lia].
    destruct (dyadic_pos b e2 ltac:(lia) He2) as (m & _ & ->). reflexivity. }
  destruct b as [|b|b]; [| |lia].
  { rewrite Z.mul_0_r, dyadic_zero.
    destruct (dyadic_pos a e1 ltac:(lia) He1) as (m & _ & ->). reflexivity. }
  destruct (dyadic_pos a e1 ltac:(lia) He1) as (m1 & Hm1 & ->).
  destruct (dyadic_pos b e2 ltac:(lia) He2) as (m2 & Hm2 & ->).
  change (Z.pos a * Z.pos b) with (Z.pos (a * b)) in *.
  destruct (dyadic_pos (a * b) (e1 + e2) Hab He) as (m3 & Hm3 & ->).
  pose proof (digits_bound a ltac:(lia)) as Hda.
  pose proof (digits_bound b ltac:(lia)) as Hdb.
  pose proof (digits_bound (a * b) Hab) as Hdc.
  pose proof (digits_mono a (a * b) ltac:(rewrite Pos2Z.inj_mul; nia)) as Hac.
  set (da := Zpos (digits2_pos a)) in *.
  set (db := Zpos (digits2_pos b)) in *.
  set (dc := Zpos (digits2_pos (a * b))) in *.
  unfold SF64mul, SFmul. cbn [xorb].
  replace (e1 + e2 + dc - 53)
    with ((e1 + da - 53 + (e2 + db - 53)) + (dc - da - db + 53)) by lia.
  apply binary_round_aux_exact.
  - lia.
  - rewrite Pos2Z.inj_mul, Hm1, Hm2, Hm3, Pos2Z.inj_mul.
    transitivity (Z.pos a * Z.pos b * (2 ^ (53 - da) * 2 ^ (53 - db))); [ring|].
    rewrite (pow2_merge (53 - da) (53 - db) (53 - dc) (dc - da - db + 53)) by lia.
    ring.
  - rewrite (digits_shift (a * b) m3 (53 - dc) ltac:(lia) Hm3). fold dc.
    rewrite fexp64_normal; lia.
  - unfold emax, prec. lia.
Qed.

(** ** The cross-aggregation identity *)

Lemma spec_float_eqb_eq (x y : spec_float) :
  spec_float_eqb x y = true -> x = y.
Proof.
  destruct x as [s|s| |s m e], y as [t|t| |t n f]; cbn; try discriminate;
    try reflexivity.
  - intros H. apply Bool.eqb_prop in H. congruence.
  - intros H. apply Bool.eqb_prop in H. congruence.
  - rewrite !andb_true_iff, Pos.eqb_eq, Z.eqb_eq.
    intros [[H1 H2] H3]. apply Bool.eqb_prop in H1. congruence.
Qed.

Lemma unitsOf_nonneg (e : Z) (x : Js.number) : 0 <= unitsOf e x.
Proof.
  unfold unitsOf. destruct (Prim2SF x) as [| | |[] m f]; try lia.
  destruct (e <=? f) eqn:E.
  - apply Z.leb_le in E. apply Z.mul_nonneg_nonneg; [lia|].
    apply Z.pow_nonneg. lia.
  - apply Z.leb_gt in E. apply Z.div_pos; [lia|].
    apply Z.pow_pos_nonneg; lia.
Qed.

Lemma exactIn_spec (e : Z) (x : Js.number) :
  exactIn e x = true ->
  0 <= unitsOf e x < 2 ^ 53 /\ Prim2SF x = dyadic (unitsOf e x) e.
Proof.
  unfold exactIn. rewrite andb_true_iff, Z.ltb_lt. intros [H1 H2].
  split; [split; [apply unitsOf_nonneg|exact H1]|].
  apply spec_float_eqb_eq, H2.
Qed.

Lemma Zsum_map_le {A : Type} (g1 g2 : A -> Z) (l : list A) :
  Forall (fun a => g1 a <= g2 a) l ->
  Zsum (List.map g1 l) <= Zsum (List.map g2 l).
Proof. induction 1; cbn [List.map Zsum]; lia. Qed.

Lemma Zsum_map_nonneg {A : Type} (g : A -> Z) (l : list A) :
  Forall (fun a => 0 <= g a) l -> 0 <= Zsum (List.map g l).
Proof. induction 1; cbn [List.map Zsum]; lia. Qed.

Lemma Zsum_map_member {A : Type} (g : A -> Z) (l : list A) (a : A) :
  Forall (fun a => 0 <= g a) l -> In a l -> g a <= Zsum (List.map g l).
Proof.
  induction 1 as [|b l Hb Hl IH]; intros Hin; [destruct Hin|].
  pose proof (Zsum_map_nonneg g l Hl).
  cbn [List.map Zsum]. destruct Hin as [->|Hin]; [lia|].
  specialize (IH Hin). lia.
Qed.

(** A [reduce] that adds up exact non-negative terms stays exact as long as
    the running sum fits in 53 bits. *)
Lemma fold_add_exact {A : Type} (f : A -> Js.number) (g : A -> Z) (e : Z)
    (l : list A) :
  -1022 <= e <= 971 ->
  Forall (fun a => 0 <= g a /\ Prim2SF (f a) = dyadic (g a) e) l ->
  forall (acc : Js.number) (z : Z),
    0 <= z -> Prim2SF acc = dyadic z e ->
    z + Zsum (List.map g l) < 2 ^ 53 ->
    Prim2SF (List.fold_left (fun sum a => (sum + f a)%float) l acc)
    = dyadic (z + Zsum (List.map g l)) e.
Proof.
  intros He. induction 1 as [|a l [Hg Hf] Hl IH]; intros acc z Hz Hacc Hb.
  - cbn. rewrite Z.add_0_r. exact Hacc.
  - cbn [List.fold_left List.map Zsum] in *.
    assert (0 <= Zsum (List.map g l)).
    { apply Zsum_map_nonneg. eapply List.Forall_impl; [|exact Hl].
      cbn. tauto. }
    rewrite Z.add_assoc. apply IH; [lia| |lia].
    rewrite FloatAxioms.add_spec, Hacc, Hf. apply dyadic_add; lia.
Qed.

Lemma withinEpsilon_self (x : float) (z e : Z) :
  0 <= z < 2 ^ 53 -> -1022 <= e <= 971 -> Prim2SF x = dyadic z e ->
  withinEpsilon 0%float x x = true.
Proof.
  intros Hz He Hx. unfold withinEpsilon.
  rewrite FloatAxioms.leb_spec, FloatAxioms.abs_spec, FloatAxioms.sub_spec, Hx.
  destruct z as [|a|a]; [reflexivity| |lia].
  destruct (dyadic_pos a e ltac:(lia) He) as (m & _ & ->).
  unfold SF64sub, SFsub. cbn [cond_Zopp]. rewrite Z.sub_diag. reflexivity.
Qed.

Section ExactLedger.

Variable users : list User.t.
Variables eh er : Z.
Hypothesis Heh : -500 <= eh <= 0.
Hypothesis Her : -500 <= er <= 0.

Lemma exactRow_spec (row : BudgetRow.t) :
  exactRow users eh er row = true ->
  (forall y, 0 <= hourUnits eh row y < 2 ^ 53
             /\ Prim2SF (yearHours row y) = dyadic (hourUnits eh row y) eh)
  /\ (0 <= rateUnits users er row < 2 ^ 53
      /\ Prim2SF (getEffectiveRate users row)
         = dyadic (rateUnits users er row) er)
  /\ rowHourUnits eh row < 2 ^ 53.
Proof.
  unfold exactRow. rewrite !andb_true_iff, Z.ltb_lt, List.forallb_forall.
  intros [[Hy Hr] Hs]. split; [|split].
  - intros y. apply exactIn_spec, Hy. destruct y; cbn; tauto.
  - apply exactIn_spec, Hr.
  - exact Hs.
Qed.

Lemma rowUnits_nonneg (row : BudgetRow.t) : 0 <= rowUnits users eh er row.
Proof.
  unfold rowUnits, rowHourUnits, rateUnits, hourUnits.
  pose proof (unitsOf_nonneg eh). pose proof (unitsOf_nonneg er).
  apply Z.mul_nonneg_nonneg; [|auto].
  repeat apply Z.add_nonneg_nonneg; auto.
Qed.

Lemma yearTerm_bounds (row : BudgetRow.t) (y : Year) :
  0 <= hourUnits eh row y * rateUnits users er row <= rowUnits users eh er row.
Proof.
  unfold rowUnits, rowHourUnits, rateUnits, hourUnits.
  pose proof (unitsOf_nonneg eh (yearHours row Y1)).
  pose proof (unitsOf_nonneg eh (yearHours row Y2)).
  pose proof (unitsOf_nonneg eh (yearHours row Y3)).
  pose proof (unitsOf_nonneg eh (yearHours row Y4)).
  pose proof (unitsOf_nonneg eh (yearHours row Y5)).
  pose proof (unitsOf_nonneg er (getEffectiveRate users row)).
  destruct y; nia.
Qed.

Lemma calculateRowTotal_exact (row : BudgetRow.t) :
  exactRow users eh er row = true ->
  rowUnits users eh er row < 2 ^ 53 ->
  Prim2SF (calculateRowTotal users row)
  = dyadic (rowUnits users eh er row) (eh + er).
Proof.
  intros Hrow Hb. destruct (exactRow_spec row Hrow) as (Hy & (HK & HKe) & Hs).
  pose proof (Hy Y1) as [B1 E1]. pose proof (Hy Y2) as [B2 E2].
  pose proof (Hy Y3) as [B3 E3]. pose proof (Hy Y4) as [B4 E4].
  pose proof (Hy Y5) as [B5 E5]. cbn [yearHours] in *.
  unfold calculateRowTotal, rowUnits, rowHourUnits in *.
  rewrite FloatAxioms.mul_spec, !FloatAxioms.add_spec, E1, E2, E3, E4, E5, HKe.
  rewrite !dyadic_add by lia.
  apply dyadic_mul; lia.
Qed.

Lemma yearTerm_exact (row : BudgetRow.t) (y : Year) :
  exactRow users eh er row = true ->
  rowUnits users eh er row < 2 ^ 53 ->
  Prim2SF (yearHours row y * getEffectiveRate users row)%float
  = dyadic (hourUnits eh row y * rateUnits users er row) (eh + er).
Proof.
  intros Hrow Hb. destruct (exactRow_spec row Hrow) as (Hy & (HK & HKe) & Hs).
  destruct (Hy y) as [By Ey]. pose proof (yearTerm_bounds row y).
  rewrite FloatAxioms.mul_spec, Ey, HKe. apply dyadic_mul; lia.
Qed.

(** Rows first or years first: the exact totals agree. *)
Lemma yearUnits_swap (rows : list BudgetRow.t) :
  Zsum (List.map (yearUnits users eh er rows) all_years)
  = ledgerUnits users eh er rows.
Proof.
  unfold all_years, ledgerUnits, yearUnits. cbn [List.map Zsum].
  induction rows as [|row rows IH]; [reflexivity|].
  cbn [List.map Zsum]. rewrite <- IH.
  unfold rowUnits, rowHourUnits. ring.
Qed.

Variable rows : list BudgetRow.t.
Hypothesis Hexact : exactLedger users eh er rows = true.

Lemma exactLedger_rows (row : BudgetRow.t) :
  In row rows -> exactRow users eh er row = true.
Proof.
  unfold exactLedger in Hexact. apply andb_true_iff in Hexact as [Hr _].
  exact (proj1 (List.forallb_forall _ _) Hr row).
Qed.

Lemma exactLedger_bound : ledgerUnits users eh er rows < 2 ^ 53.
Proof.
  unfold exactLedger in Hexact. apply andb_true_iff in Hexact as [_ Hb].
  apply Z.ltb_lt, Hb.
Qed.

Lemma ledgerUnits_nonneg : 0 <= ledgerUnits users eh er rows.
Proof.
  apply Zsum_map_nonneg, List.Forall_forall. intros r _.
  apply rowUnits_nonneg.
Qed.

Lemma rowUnits_le_ledger (row : BudgetRow.t) :
  In row rows -> rowUnits users eh er row <= ledgerUnits users eh er rows.
Proof.
  apply (Zsum_map_member (rowUnits users eh er)).
  apply List.Forall_forall. intros r _. apply rowUnits_nonneg.
Qed.

Lemma grandTotal_exact :
  Prim2SF (grandTotal users rows)
  = dyadic (ledgerUnits users eh er rows) (eh + er).
Proof.
  unfold grandTotal, ledgerUnits.
  rewrite <- (Z.add_0_l (Zsum _)).
  apply fold_add_exact; [lia| |lia|reflexivity|].
  - apply List.Forall_forall. intros row Hin. split; [apply rowUnits_nonneg|].
    apply calculateRowTotal_exact; [apply exactLedger_rows, Hin|].
    pose proof (rowUnits_le_ledger row Hin). pose proof exactLedger_bound. lia.
  - rewrite Z.add_0_l. apply exactLedger_bound.
Qed.

Lemma yearUnits_le_ledger (y : Year) :
  0 <= yearUnits users eh er rows y <= ledgerUnits users eh er rows.
Proof.
  unfold yearUnits, ledgerUnits. split.
  - apply Zsum_map_nonneg, List.Forall_forall. intros row _.
    apply (yearTerm_bounds row y).
  - apply Zsum_map_le, List.Forall_forall. intros row _.
    apply (yearTerm_bounds row y).
Qed.

Lemma calculateYearTotal_exact (y : Year) :
  Prim2SF (calculateYearTotal users rows y)
  = dyadic (yearUnits users eh er rows y) (eh + er).
Proof.
  unfold calculateYearTotal, yearUnits.
  rewrite <- (Z.add_0_l (Zsum _)).
  apply (fold_add_exact
           (fun row => (yearHours row y * getEffectiveRate users row)%float)
           (fun row => hourUnits eh row y * rateUnits users er row));
    [lia| |lia|reflexivity|].
  - apply List.Forall_forall. intros row Hin.
    split; [apply (yearTerm_bounds row y)|].
    apply yearTerm_exact; [apply exactLedger_rows, Hin|].
    pose proof (rowUnits_le_ledger row Hin). pose proof exactLedger_bound. lia.
  - rewrite Z.add_0_l. pose proof (yearUnits_le_ledger y).
    pose proof exactLedger_bound. unfold yearUnits in *. lia.
Qed.

Lemma sumYearTotals_exact :
  Prim2SF (sumYearTotals users rows)
  = dyadic (ledgerUnits users eh er rows) (eh + er).
Proof.
  unfold sumYearTotals. rewrite <- yearUnits_swap.
  rewrite <- (Z.add_0_l (Zsum _)).
  apply fold_add_exact; [lia| |lia|reflexivity|].
  - apply List.Forall_forall. intros y _.
    split; [apply yearUnits_le_ledger|].
    apply calculateYearTotal_exact.
  - rewrite Z.add_0_l, yearUnits_swap. apply exactLedger_bound.
Qed.

End ExactLedger.

(** C3, as the specification states it, fails on binary64 numbers.  With
    1e308 hours in years 1 and 2 at rate 0.5 the hours overflow inside the
    row total, so the grand total is infinite while the year totals add up
    to 1e308: no finite epsilon covers the gap.  With 0.1 and 0.2 hours at
    rate 250 the two sums already differ in the last place, and with these
    hours multiplied by [2^60], far from any overflow, they differ by
    16384: no fixed epsilon holds even where nothing overflows, the gap
    grows with the total. *)
Lemma cross_aggregation_not_within_epsilon :
  grandTotal sample_users huge_rows = infinity
  /\ sumYearTotals sample_users huge_rows = Js.parseFloat "1e308"
  /\ (forall eps : Js.number,
        PrimFloat.is_finite eps = true ->
        withinEpsilon eps (grandTotal sample_users huge_rows)
          (sumYearTotals sample_users huge_rows) = false)
  /\ grandTotal sample_users tenth_rows = Js.parseFloat "75.000000000000014"
  /\ sumYearTotals sample_users tenth_rows = Js.parseFloat "75"
  /\ boundedLedger sample_users scaled_tenth_rows = true
  /\ (grandTotal sample_users scaled_tenth_rows
      - sumYearTotals sample_users scaled_tenth_rows)%float = 16384%float
  /\ withinEpsilon 1000%float (grandTotal sample_users scaled_tenth_rows)
       (sumYearTotals sample_users scaled_tenth_rows) = false.
Proof.
  assert (Hg : grandTotal sample_users huge_rows = infinity)
    by (vm_compute; reflexivity).
  assert (Hs : sumYearTotals sample_users huge_rows = Js.parseFloat "1e308")
    by (vm_compute; reflexivity).
  split; [exact Hg|]. split; [exact Hs|]. split.
  - intros eps Heps. unfold withinEpsilon. rewrite Hg, Hs.
    replace (PrimFloat.abs (infinity - Js.parseFloat "1e308")) with infinity
      by (vm_compute; reflexivity).
    apply infinity_leb_finite, Heps.
  - repeat split; vm_compute; reflexivity.
Qed.

(** On a grid of powers of two nothing is rounded.  When every hours
    entry is [+0] or a positive multiple of [2^eh], every effective rate
    [+0] or a positive multiple of [2^er], each with a numerator below
    [2^53], and the hours of each row and the grand total stay below [2^53]
    units ([exactLedger]; half hours and whole rates are [eh = -1],
    [er = 0]), [grandTotal] is the exact sum over the rows of (sum of the
    five year hours) x rate, each [calculateYearTotal] is the exact sum
    over the rows of hours x rate, the exact totals agree, and
    [grandTotal] equals the sum of the five year totals. *)
Lemma cross_aggregation_exact (users : list User.t) (rows : list BudgetRow.t)
    (eh er : Z) :
  -500 <= eh <= 0 -> -500 <= er <= 0 ->
  exactLedger users eh er rows = true ->
  Prim2SF (grandTotal users rows) = dyadic (ledgerUnits users eh er rows) (eh + er)
  /\ (forall year,
        Prim2SF (calculateYearTotal users rows year)
        = dyadic (yearUnits users eh er rows year) (eh + er))
  /\ ledgerUnits users eh er rows
     = Zsum (List.map (yearUnits users eh er rows) all_years)
  /\ grandTotal users rows = sumYearTotals users rows
  /\ withinEpsilon 0%float (grandTotal users rows) (sumYearTotals users rows)
     = true.
Proof.
  intros Heh Her Hexact.
  pose proof (grandTotal_exact users eh er Heh Her rows Hexact) as Hg.
  pose proof (sumYearTotals_exact users eh er Heh Her rows Hexact) as Hs.
  assert (Heq : grandTotal users rows = sumYearTotals users rows).
  { apply Prim2SF_inj. congruence. }
  split; [exact Hg|]. split; [apply calculateYearTotal_exact; assumption|].
  split; [symmetry; apply yearUnits_swap|]. split; [exact Heq|].
  rewrite <- Heq.
  apply (withinEpsilon_self _ (ledgerUnits users eh er rows) (eh + er));
    [|lia|exact Hg].
  split; [apply ledgerUnits_nonneg|apply (exactLedger_bound users eh er rows Hexact)].
Qed.

Lemma cross_aggregation_exact_witness :
  Prim2SF (grandTotal sample_users half_hour_rows)
  = dyadic (ledgerUnits sample_users (-1) (-1) half_hour_rows) (-1 + -1)
  /\ (forall year,
        Prim2SF (calculateYearTotal sample_users half_hour_rows year)
        = dyadic (yearUnits sample_users (-1) (-1) half_hour_rows year) (-1 + -1))
  /\ ledgerUnits sample_users (-1) (-1) half_hour_rows
     = Zsum (List.map (yearUnits sample_users (-1) (-1) half_hour_rows) all_years)
  /\ grandTotal sample_users half_hour_rows
     = sumYearTotals sample_users half_hour_rows
  /\ withinEpsilon 0%float (grandTotal sample_users half_hour_rows)
       (sumYearTotals sample_users half_hour_rows) = true.
Proof.
  apply (cross_aggregation_exact sample_users half_hour_rows (-1) (-1));
    [lia | lia | vm_compute; reflexivity].
Defined.

(** ** Rounding to binary64: the error of one operation *)

Lemma shifted_start (M : Z) :
  shifted M 0 {| shr_m := M; shr_r := false; shr_s := false |}.
Proof.
  unfold shifted. cbn [shr_m shr_r shr_s].
  rewrite Z.pow_0_r, Z.div_1_r, Z.mod_1_r.
  split; [reflexivity|]. split; [lia|]. intros _. left. lia.
Qed.

Lemma shifted_step (M k : Z) (mrs : shr_record) :
  0 <= M -> 0 <= k -> shifted M k mrs -> shifted M (k + 1) (shr_1 mrs).
Proof.
  intros HM Hk (Hm & Hr & Hs).
  assert (Hp : 0 < 2 ^ k) by (apply Z.pow_pos_nonneg; lia).
  assert (Hpow : 2 ^ (k + 1) = 2 * 2 ^ k) by (rewrite Z.pow_add_r by lia; lia).
  pose proof (Z.mod_pos_bound M (2 ^ k) Hp) as Hrem.
  pose proof (Z.div_mod M (2 ^ k) ltac:(lia)) as Hdm.
  set (q := M / 2 ^ k) in *. set (rem := M mod 2 ^ k) in *.
  assert (Hq : 0 <= q) by (apply Z.div_pos; lia).
  assert (Hdiv : M / 2 ^ (k + 1) = q / 2).
  { rewrite Hpow, Z.mul_comm, <- Z.div_div by lia. reflexivity. }
  assert (Hmod : M mod 2 ^ (k + 1) = (q mod 2) * 2 ^ k + rem).
  { rewrite Hpow. symmetry. apply Z.mod_unique_pos with (q := q / 2).
    - pose proof (Z.mod_pos_bound q 2 ltac:(lia)). nia.
    - pose proof (Z.div_mod q 2 ltac:(lia)). nia. }
  pose proof (Z.mod_pos_bound q 2 ltac:(lia)) as Hq2.
  pose proof (Z.div_mod q 2 ltac:(lia)) as Hqdm.
  destruct mrs as [m r s]. cbn [shr_m shr_r shr_s] in *. subst m.
  unfold shifted. rewrite Hdiv, Hmod.
  assert (Hsticky : (r || s)%bool = false ->
                    2 * ((q mod 2) * 2 ^ k + rem) = 0
                    \/ 2 * ((q mod 2) * 2 ^ k + rem) = 2 ^ (k + 1)).
  { intros H. apply orb_false_iff in H as [-> ->].
    destruct (Hs eq_refl) as [H0|H1]; [|lia].
    assert (q mod 2 = 0 \/ q mod 2 = 1) as [->| ->] by lia; [left|right]; lia. }
  destruct q as [|[p|p|]|p]; cbn [shr_1 shr_m shr_r shr_s]; try lia.
  - (* 0 *)
    change (0 mod 2) with 0 in *. change (0 / 2) with 0.
    split; [reflexivity|]. split; [destruct r; lia|exact Hsticky].
  - (* odd *)
    assert (Z.pos p~1 mod 2 = 1) as E.
    { rewrite Pos2Z.inj_xI, Z.add_comm, Z.mul_comm, Z.mod_add by lia. reflexivity. }
    assert (Z.pos p~1 / 2 = Z.pos p) as E'.
    { rewrite Pos2Z.inj_xI, Z.add_comm, Z.mul_comm, Z.div_add by lia. reflexivity. }
    rewrite E in *. rewrite E'.
    split; [reflexivity|]. split; [lia|exact Hsticky].
  - (* even *)
    assert (Z.pos p~0 mod 2 = 0) as E.
    { rewrite Pos2Z.inj_xO, Z.mul_comm, Z.mod_mul by lia. reflexivity. }
    assert (Z.pos p~0 / 2 = Z.pos p) as E'.
    { rewrite Pos2Z.inj_xO, Z.mul_comm, Z.div_mul by lia. reflexivity. }
    rewrite E in *. rewrite E'.
    split; [reflexivity|]. split; [destruct r; lia|exact Hsticky].
  - (* 1 *)
    change (1 mod 2) with 1 in *. change (1 / 2) with 0.
    split; [reflexivity|]. split; [lia|exact Hsticky].
Qed.

Lemma shifted_iter (M : Z) (n : positive) :
  0 <= M ->
  forall (k : Z) (mrs : shr_record),
    0 <= k -> shifted M k mrs ->
    shifted M (k + Zpos n) (SpecFloat.iter_pos shr_1 n mrs).
Proof.
  intros HM. induction n as [n IH|n IH|]; intros k mrs Hk H;
    cbn [SpecFloat.iter_pos].
  - replace (k + Z.pos n~1) with (k + 1 + Z.pos n + Z.pos n) by lia.
    apply IH; [lia|]. apply IH; [lia|]. apply shifted_step; assumption.
  - replace (k + Z.pos n~0) with (k + Z.pos n + Z.pos n) by lia.
    apply IH; [lia|]. apply IH; assumption.
  - apply shifted_step; assumption.
Qed.

(** Rounding to nearest after [k] shifts is off by at most one half of
    the last place. *)
Lemma round_nearest_even_error (M k : Z) (mrs : shr_record) :
  0 <= M -> 0 <= k -> shifted M k mrs ->
  let q := round_nearest_even (shr_m mrs) (loc_of_shr_record mrs) in
  M / 2 ^ k <= q <= M / 2 ^ k + 1
  /\ 2 * Z.abs (q * 2 ^ k - M) <= 2 ^ k.
Proof.
  intros HM Hk (Hm & Hr & Hs).
  assert (Hp : 0 < 2 ^ k) by (apply Z.pow_pos_nonneg; lia).
  pose proof (Z.mod_pos_bound M (2 ^ k) Hp) as Hrem.
  pose proof (Z.div_mod M (2 ^ k) ltac:(lia)) as Hdm.
  destruct mrs as [m r s]. cbn [shr_m shr_r shr_s] in *. subst m.
  set (q0 := M / 2 ^ k) in *. set (rem := M mod 2 ^ k) in *.
  destruct r, s; cbn [loc_of_shr_record round_nearest_even] in *.
  - split; [lia|]. nia.
  - destruct (Hs eq_refl) as [H0|H1]; [lia|].
    destruct (IntDef.Z.even q0); (split; [lia|nia]).
  - split; [lia|]. nia.
  - split; [lia|]. nia.
Qed.

Lemma digits_spec (m : positive) :
  2 ^ (Zpos (digits2_pos m) - 1) <= Zpos m < 2 ^ Zpos (digits2_pos m).
Proof.
  rewrite digits2_pos_log2.
  pose proof (Z.log2_spec (Zpos m) ltac:(lia)) as H.
  replace (Z.log2 (Z.pos m) + 1 - 1) with (Z.log2 (Z.pos m)) by lia.
  replace (Z.log2 (Z.pos m) + 1) with (Z.succ (Z.log2 (Z.pos m))) by lia.
  exact H.
Qed.

Lemma digits_unique (m : positive) (d : Z) :
  2 ^ (d - 1) <= Zpos m < 2 ^ d -> Zpos (digits2_pos m) = d.
Proof.
  intros H. rewrite digits2_pos_log2.
  assert (0 < d).
  { destruct (Z.le_gt_cases d 0) as [Hd|Hd]; [|exact Hd].
    assert (2 ^ d <= 2 ^ 0) by (apply Z.pow_le_mono_r; lia).
    change (2 ^ 0) with 1 in *. lia. }
  rewrite (Z.log2_unique (Zpos m) (d - 1)); [lia|lia|].
  replace (Z.succ (d - 1)) with d by lia. exact H.
Qed.

(** Rounding a mantissa of at least 53 bits whose value is in the range
    of the normal numbers: the result is a normal number whose distance
    from the exact value is at most [2^-53] times that value. *)
Lemma binary_round_aux_normal (M : positive) (E : Z) :
  53 <= Zpos (digits2_pos M) ->
  -1021 <= Zpos (digits2_pos M) + E <= 1023 ->
  exists (m : positive) (e : Z),
    binary_round_aux prec emax false (Zpos M) E loc_Exact
    = S754_finite false m e
    /\ Zpos (digits2_pos m) = 53
    /\ E <= e <= 971
    /\ 2 ^ 53 * Z.abs (Zpos m * 2 ^ (e - E) - Zpos M) <= Zpos M.
Proof.
  intros Hd HdE.
  pose proof (digits_spec M) as HM.
  set (d := Zpos (digits2_pos M)) in *.
  unfold binary_round_aux, shr_fexp.
  cbn [Zdigits2 shr_record_of_loc]. fold d.
  rewrite fexp64_normal by lia.
  replace (d + E - 53 - E) with (d - 53) by lia.
  destruct (d - 53) as [|n|n] eqn:Hn; [| |lia].
  - (* no shift: the mantissa has 53 bits *)
    cbn [shr shr_m loc_of_shr_record round_nearest_even Zdigits2
         shr_record_of_loc]. fold d.
    rewrite fexp64_normal by lia.
    replace (d + E - 53 - E) with 0 by lia. cbn [shr shr_m].
    replace (E <=? emax - prec) with true
      by (symmetry; apply Z.leb_le; unfold emax, prec; lia).
    exists M, E. split; [reflexivity|]. split; [lia|]. split; [lia|].
    rewrite Z.sub_diag, Z.pow_0_r, Z.mul_1_r, Z.sub_diag. cbn. lia.
  - (* a shift by [n] bits and one rounding *)
    cbn [shr].
    pose proof (shifted_iter (Zpos M) n ltac:(lia) 0 _ ltac:(lia)
                  (shifted_start (Zpos M))) as Hsh.
    rewrite Z.add_0_l in Hsh.
    set (mrs := SpecFloat.iter_pos shr_1 n _) in *.
    destruct (round_nearest_even_error (Zpos M) (Zpos n) mrs ltac:(lia)
                ltac:(lia) Hsh) as [Hq Herr].
    set (q := round_nearest_even (shr_m mrs) (loc_of_shr_record mrs)) in *.
    assert (Hpn : 0 < 2 ^ Zpos n) by (apply Z.pow_pos_nonneg; lia).
    assert (Hsplit : 2 ^ (d - 1) = 2 ^ 52 * 2 ^ Zpos n).
    { rewrite <- Z.pow_add_r by lia. f_equal. lia. }
    assert (Hsplit' : 2 ^ d = 2 ^ 53 * 2 ^ Zpos n).
    { rewrite <- Z.pow_add_r by lia. f_equal. lia. }
    assert (Hq0 : 2 ^ 52 <= Zpos M / 2 ^ Zpos n < 2 ^ 53).
    { split.
      - apply Z.div_le_lower_bound; lia.
      - apply Z.div_lt_upper_bound; lia. }
    assert (Hqpos : 0 < q) by lia.
    destruct q as [|qp|qp] eqn:Eq; [lia| |lia].
    destruct (Z.eq_dec (Zpos qp) (2 ^ 53)) as [Hcarry|Hcarry].
    + (* the rounding carries into a 54th bit *)
      assert (Hdq : Zpos (digits2_pos qp) = 54).
      { apply digits_unique. rewrite Hcarry. split; [cbn; lia|].
        apply Z.pow_lt_mono_r; lia. }
      cbn [Zdigits2 shr_record_of_loc]. rewrite Hdq.
      rewrite fexp64_normal by lia.
      replace (54 + (E + Z.pos n) - 53 - (E + Z.pos n)) with 1 by lia.
      cbn [shr SpecFloat.iter_pos].
      assert (qp = 4503599627370496~0)%positive as ->.
      { apply Pos2Z.inj. rewrite Hcarry. reflexivity. }
      cbn [shr_1 shr_m orb].
      replace (E + Z.pos n + 1 <=? emax - prec) with true
        by (symmetry; apply Z.leb_le; unfold emax, prec; lia).
      exists 4503599627370496%positive, (E + Z.pos n + 1).
      split; [reflexivity|]. split; [reflexivity|]. split; [lia|].
      replace (E + Z.pos n + 1 - E) with (Z.pos n + 1) by lia.
      rewrite Z.pow_add_r by lia.
      change (Z.pos 4503599627370496) with (2 ^ 52).
      change (Z.pos 4503599627370496~0) with (2 ^ 53) in Herr.
      change (2 ^ 1) with 2.
      replace (2 ^ 52 * (2 ^ Z.pos n * 2)) with (2 ^ 53 * 2 ^ Z.pos n)
        by (change (2 ^ 53) with (2 ^ 52 * 2); ring).
      lia.
    + assert (Hdq : Zpos (digits2_pos qp) = 53).
      { apply digits_unique. change (53 - 1) with 52. lia. }
      cbn [Zdigits2 shr_record_of_loc]. rewrite Hdq.
      rewrite fexp64_normal by lia.
      replace (53 + (E + Z.pos n) - 53 - (E + Z.pos n)) with 0 by lia.
      cbn [shr shr_m].
      replace (E + Z.pos n <=? emax - prec) with true
        by (symmetry; apply Z.leb_le; unfold emax, prec; lia).
      exists qp, (E + Z.pos n).
      split; [reflexivity|]. split; [exact Hdq|]. split; [lia|].
      replace (E + Z.pos n - E) with (Z.pos n) by lia.
      lia.
Qed.

Lemma digits_bound_pos (m : positive) : 1 <= Zpos (digits2_pos m).
Proof. lia. Qed.

(** ** Binary64 operations on non-negative numbers, as real numbers *)

Lemma IZR_pow2 (k : Z) : 0 <= k -> IZR (2 ^ k) = powerRZ 2 k.
Proof.
  intros H. rewrite <- (Z2Nat.id k H), <- pow_IZR, pow_powerRZ. reflexivity.
Qed.

Lemma powerRZ2_pos (k : Z) : (0 < powerRZ 2 k)%R.
Proof. apply powerRZ_lt. lra. Qed.

Lemma powerRZ2_add (a b : Z) :
  powerRZ 2 (a + b) = (powerRZ 2 a * powerRZ 2 b)%R.
Proof. apply powerRZ_add. lra. Qed.

Lemma powerRZ2_le (a b : Z) : a <= b -> (powerRZ 2 a <= powerRZ 2 b)%R.
Proof.
  intros H. replace b with (a + (b - a)) by lia. rewrite powerRZ2_add.
  assert (1 <= powerRZ 2 (b - a))%R.
  { rewrite <- IZR_pow2 by lia. apply IZR_le.
    pose proof (Z.pow_pos_nonneg 2 (b - a) ltac:(lia) ltac:(lia)). lia. }
  pose proof (powerRZ2_pos a). nra.
Qed.

Lemma powerRZ2_lt (a b : Z) : a < b -> (powerRZ 2 a < powerRZ 2 b)%R.
Proof.
  intros H. replace b with (a + 1 + (b - a - 1)) by lia.
  rewrite !powerRZ2_add.
  assert (1 <= powerRZ 2 (b - a - 1))%R.
  { rewrite <- IZR_pow2 by lia. apply IZR_le.
    pose proof (Z.pow_pos_nonneg 2 (b - a - 1) ltac:(lia) ltac:(lia)). lia. }
  pose proof (powerRZ2_pos a). change (powerRZ 2 1) with (2 * 1)%R. nra.
Qed.

(** The value of a positive datum lies between the powers of two given by
    the length of its mantissa. *)
Lemma value_bounds (m : positive) (e : Z) :
  (powerRZ 2 (Zpos (digits2_pos m) + e - 1) <= IZR (Zpos m) * powerRZ 2 e
   < powerRZ 2 (Zpos (digits2_pos m) + e))%R.
Proof.
  pose proof (digits_spec m) as [H1 H2].
  pose proof (digits_bound_pos m) as Hd.
  apply IZR_le in H1. apply IZR_lt in H2.
  rewrite IZR_pow2 in H1, H2 by lia.
  pose proof (powerRZ2_pos e).
  replace (Zpos (digits2_pos m) + e - 1) with (Zpos (digits2_pos m) - 1 + e) by lia.
  rewrite !powerRZ2_add. split; nra.
Qed.

Lemma magnitude_in_range (m : positive) (e : Z) :
  (powerRZ 2 (-1022) <= IZR (Zpos m) * powerRZ 2 e)%R ->
  (IZR (Zpos m) * powerRZ 2 e < powerRZ 2 1023)%R ->
  -1021 <= Zpos (digits2_pos m) + e <= 1023.
Proof.
  intros Hlo Hhi. pose proof (value_bounds m e) as [H1 H2].
  split.
  - destruct (Z.le_gt_cases (-1021) (Zpos (digits2_pos m) + e)) as [H|H];
      [exact H|].
    pose proof (powerRZ2_le (Zpos (digits2_pos m) + e) (-1022) ltac:(lia)). lra.
  - destruct (Z.le_gt_cases (Zpos (digits2_pos m) + e) 1023) as [H|H];
      [exact H|].
    pose proof (powerRZ2_le 1023 (Zpos (digits2_pos m) + e - 1) ltac:(lia)). lra.
Qed.

(** The integer bound on the rounding error, read on real numbers. *)
Lemma rounding_error_real (M m : positive) (E e : Z) :
  E <= e ->
  2 ^ 53 * Z.abs (Zpos m * 2 ^ (e - E) - Zpos M) <= Zpos M ->
  (Rabs (IZR (Zpos m) * powerRZ 2 e - IZR (Zpos M) * powerRZ 2 E)
   <= roundoff * (IZR (Zpos M) * powerRZ 2 E))%R.
Proof.
  intros He H. apply IZR_le in H.
  rewrite mult_IZR, abs_IZR, minus_IZR, mult_IZR in H.
  rewrite (IZR_pow2 (e - E)), (IZR_pow2 53) in H by lia.
  replace (powerRZ 2 53) with (2 ^ 53)%R in H
    by (rewrite pow_powerRZ; reflexivity).
  replace e with (e - E + E) at 1 by lia. rewrite powerRZ2_add.
  replace (IZR (Z.pos m) * (powerRZ 2 (e - E) * powerRZ 2 E)
           - IZR (Z.pos M) * powerRZ 2 E)%R
    with ((IZR (Z.pos m) * powerRZ 2 (e - E) - IZR (Z.pos M)) * powerRZ 2 E)%R
    by ring.
  pose proof (powerRZ2_pos E) as HE.
  rewrite Rabs_mult, (Rabs_pos_eq (powerRZ 2 E)) by lra.
  unfold roundoff.
  set (a := Rabs (IZR (Z.pos m) * powerRZ 2 (e - E) - IZR (Z.pos M))) in *.
  assert (Hp : (0 < 2 ^ 53)%R) by (apply pow_lt; lra).
  assert (a <= / 2 ^ 53 * IZR (Z.pos M))%R.
  { apply (Rmult_le_reg_l (2 ^ 53)); [exact Hp|].
    rewrite <- Rmult_assoc, Rinv_r, Rmult_1_l by lra. exact H. }
  nra.
Qed.

(** The product of two positive normal numbers, when it is in the range
    of the normal numbers, is a normal number within one rounding of the
    exact product. *)
Lemma SFmul_normal (m1 m2 : positive) (e1 e2 : Z) :
  Zpos (digits2_pos m1) = 53 -> Zpos (digits2_pos m2) = 53 ->
  (powerRZ 2 (-1022)
   <= (IZR (Zpos m1) * powerRZ 2 e1) * (IZR (Zpos m2) * powerRZ 2 e2))%R ->
  ((IZR (Zpos m1) * powerRZ 2 e1) * (IZR (Zpos m2) * powerRZ 2 e2)
   < powerRZ 2 1023)%R ->
  exists (m : positive) (e : Z),
    SF64mul (S754_finite false m1 e1) (S754_finite false m2 e2)
    = S754_finite false m e
    /\ Zpos (digits2_pos m) = 53
    /\ (Rabs (IZR (Zpos m) * powerRZ 2 e
              - (IZR (Zpos m1) * powerRZ 2 e1) * (IZR (Zpos m2) * powerRZ 2 e2))
        <= roundoff
           * ((IZR (Zpos m1) * powerRZ 2 e1) * (IZR (Zpos m2) * powerRZ 2 e2)))%R.
Proof.
  intros Hd1 Hd2 Hlo Hhi.
  assert (Hv : ((IZR (Zpos m1) * powerRZ 2 e1) * (IZR (Zpos m2) * powerRZ 2 e2)
                = IZR (Zpos (m1 * m2)) * powerRZ 2 (e1 + e2))%R).
  { rewrite Pos2Z.inj_mul, mult_IZR, powerRZ2_add. ring. }
  rewrite Hv in *.
  pose proof (digits_mono m1 (m1 * m2) ltac:(rewrite Pos2Z.inj_mul; nia)) as Hd.
  pose proof (magnitude_in_range _ _ Hlo Hhi) as Hmag.
  destruct (binary_round_aux_normal (m1 * m2) (e1 + e2) ltac:(lia) Hmag)
    as (m & e & Hres & Hdm & He & Herr).
  exists m, e. split; [exact Hres|]. split; [exact Hdm|].
  apply rounding_error_real; [lia|exact Herr].
Qed.

(** The same for the sum. *)
Lemma SFadd_normal (m1 m2 : positive) (e1 e2 : Z) :
  Zpos (digits2_pos m1) = 53 -> Zpos (digits2_pos m2) = 53 ->
  (powerRZ 2 (-1022)
   <= IZR (Zpos m1) * powerRZ 2 e1 + IZR (Zpos m2) * powerRZ 2 e2)%R ->
  (IZR (Zpos m1) * powerRZ 2 e1 + IZR (Zpos m2) * powerRZ 2 e2
   < powerRZ 2 1023)%R ->
  exists (m : positive) (e : Z),
    SF64add (S754_finite false m1 e1) (S754_finite false m2 e2)
    = S754_finite false m e
    /\ Zpos (digits2_pos m) = 53
    /\ (Rabs (IZR (Zpos m) * powerRZ 2 e
              - (IZR (Zpos m1) * powerRZ 2 e1 + IZR (Zpos m2) * powerRZ 2 e2))
        <= roundoff
           * (IZR (Zpos m1) * powerRZ 2 e1 + IZR (Zpos m2) * powerRZ 2 e2))%R.
Proof.
  intros Hd1 Hd2 Hlo Hhi.
  unfold SF64add, SFadd.
  set (ez := Z.min e1 e2).
  destruct (shl_align_le m1 e1 ez ltac:(lia)) as (n1 & -> & Hn1).
  destruct (shl_align_le m2 e2 ez ltac:(lia)) as (n2 & -> & Hn2).
  cbn [fst cond_Zopp].
  change (Z.pos n1 + Z.pos n2) with (Z.pos (n1 + n2)).
  cbn [binary_normalize].
  assert (Hv : (IZR (Zpos m1) * powerRZ 2 e1 + IZR (Zpos m2) * powerRZ 2 e2
                = IZR (Zpos (n1 + n2)) * powerRZ 2 ez)%R).
  { rewrite Pos2Z.inj_add, plus_IZR, Hn1, Hn2, !mult_IZR, !IZR_pow2 by lia.
    replace e1 with (e1 - ez + ez) at 1 by lia.
    replace e2 with (e2 - ez + ez) at 1 by lia.
    rewrite !powerRZ2_add. ring. }
  rewrite Hv in *.
  assert (Hge : Zpos m1 <= Zpos (n1 + n2)).
  { rewrite Pos2Z.inj_add, Hn1.
    pose proof (Z.pow_pos_nonneg 2 (e1 - ez) ltac:(lia) ltac:(lia)). nia. }
  pose proof (digits_mono m1 (n1 + n2) Hge) as Hd.
  pose proof (magnitude_in_range _ _ Hlo Hhi) as Hmag.
  unfold binary_round.
  rewrite fexp64_normal by lia.
  rewrite shl_align_ge by lia.
  destruct (binary_round_aux_normal (n1 + n2) ez ltac:(lia) Hmag)
    as (m & e & Hres & Hdm & He & Herr).
  exists m, e. split; [exact Hres|]. split; [exact Hdm|].
  apply rounding_error_real; [lia|exact Herr].
Qed.

(** ** Accumulated rounding error *)

Lemma roundoff_value : roundoff = (/ 9007199254740992)%R.
Proof. unfold roundoff. rewrite pow_IZR. reflexivity. Qed.

Lemma two_pow_20 : (2 ^ 20 = 1048576)%R.
Proof. rewrite pow_IZR. reflexivity. Qed.

Lemma roundoff_bounds : (0 < roundoff < / 2 ^ 20)%R.
Proof. rewrite roundoff_value, two_pow_20. lra. Qed.

Lemma pow_below_one (x : R) (k : nat) :
  (0 <= x <= 1)%R -> (0 <= x ^ k <= 1)%R.
Proof.
  intros Hx. induction k as [|k IH]; cbn [pow]; [lra|]. nra.
Qed.

Lemma pow_below_one_mono (x : R) (k k' : nat) :
  (0 <= x <= 1)%R -> (k <= k')%nat -> (x ^ k' <= x ^ k)%R.
Proof.
  intros Hx H. induction H as [|k' H IH]; [lra|].
  cbn [pow]. pose proof (pow_below_one x k' Hx). nra.
Qed.

Lemma pow_above_one_mono (x : R) (k k' : nat) :
  (1 <= x)%R -> (k <= k')%nat -> (x ^ k <= x ^ k')%R.
Proof. intros Hx H. apply Rle_pow; assumption. Qed.

(** Bernoulli's inequality and its counterpart. *)
Lemma pow_minus_lower (u : R) (k : nat) :
  (0 <= u <= 1)%R -> (1 - INR k * u <= (1 - u) ^ k)%R.
Proof.
  intros Hu. induction k as [|k IH].
  - cbn. lra.
  - rewrite S_INR. cbn [pow].
    pose proof (pow_below_one (1 - u) k ltac:(lra)) as Hp.
    pose proof (pos_INR k) as Hk. nra.
Qed.

Lemma pow_plus_upper (u : R) (k : nat) :
  (0 <= u)%R -> ((1 + u) ^ k * (1 - INR k * u) <= 1)%R.
Proof.
  intros Hu. induction k as [|k IH].
  - cbn. lra.
  - rewrite S_INR. cbn [pow].
    assert (Hp : (0 <= (1 + u) ^ k)%R) by (apply pow_le; lra).
    pose proof (pos_INR k) as Hk.
    assert (((1 + u) * (1 - (INR k + 1) * u) <= 1 - INR k * u))%R by nra.
    replace ((1 + u) * (1 + u) ^ k * (1 - (INR k + 1) * u))%R
      with ((1 + u) ^ k * ((1 + u) * (1 - (INR k + 1) * u)))%R by ring.
    nra.
Qed.

Lemma pow_plus_linear (u : R) (k : nat) :
  (0 <= u)%R -> (INR k * u <= / 2)%R ->
  ((1 + u) ^ k <= 1 + 2 * (INR k * u))%R.
Proof.
  intros Hu Hk. pose proof (pow_plus_upper u k Hu) as H.
  pose proof (pos_INR k) as Hk0.
  set (t := (INR k * u)%R) in *.
  assert (0 <= t)%R by (unfold t; nra).
  assert (Hp : (0 <= (1 + u) ^ k)%R) by (apply pow_le; lra).
  (* (1+u)^k (1-t) <= 1 <= (1+2t)(1-t) *)
  assert ((1 + u) ^ k * (1 - t) <= (1 + 2 * t) * (1 - t))%R by nra.
  apply (Rmult_le_reg_r (1 - t)); [lra|exact H1].
Qed.

(** As long as the number of roundings stays below [2^20], the
    accumulated factors stay between one half and two. *)
Lemma factors_bounded (k : nat) :
  (INR k <= 2 ^ 20)%R ->
  (/ 2 <= (1 - roundoff) ^ k)%R /\ ((1 + roundoff) ^ k <= 2)%R.
Proof.
  rewrite two_pow_20. intros Hk.
  pose proof roundoff_value as Hv. pose proof (pos_INR k) as Hk0.
  assert (Hu : (0 < roundoff <= / 4194304)%R) by (rewrite Hv; lra).
  assert (Ht : (INR k * roundoff <= / 4)%R) by nra.
  split.
  - pose proof (pow_minus_lower roundoff k ltac:(lra)). lra.
  - pose proof (pow_plus_linear roundoff k ltac:(lra) ltac:(lra)). lra.
Qed.

Lemma range_constants :
  (powerRZ 2 (-1022) <= / 2 * powerRZ 2 (-1000))%R
  /\ (2 * powerRZ 2 1021 < powerRZ 2 1023)%R
  /\ (0 < powerRZ 2 (-1000))%R.
Proof.
  split; [|split].
  - replace (/ 2 * powerRZ 2 (-1000))%R with (powerRZ 2 (-1001)).
    + apply powerRZ2_le. lia.
    + change (-1000) with (1 + -1001). rewrite powerRZ2_add.
      change (powerRZ 2 1) with (2 * 1)%R. field.
  - replace (2 * powerRZ 2 1021)%R with (powerRZ 2 1022).
    + apply powerRZ2_lt. lia.
    + change 1022 with (1 + 1021). rewrite powerRZ2_add.
      change (powerRZ 2 1) with (2 * 1)%R. ring.
  - apply powerRZ2_pos.
Qed.

Lemma zeroOrNormal_value (x : spec_float) :
  zeroOrNormal x ->
  (exists s, x = S754_zero s) /\ SF2R x = 0%R
  \/ (exists m e, x = S754_finite false m e /\ Zpos (digits2_pos m) = 53
                  /\ SF2R x = (IZR (Zpos m) * powerRZ 2 e)%R
                  /\ (0 < SF2R x)%R).
Proof.
  intros [[s ->]|(m & e & -> & Hd)].
  - left. split; [eauto|reflexivity].
  - right. exists m, e. split; [reflexivity|]. split; [exact Hd|].
    cbn [SF2R]. rewrite Rmult_1_l. split; [reflexivity|].
    pose proof (powerRZ2_pos e). assert (0 < IZR (Zpos m))%R by (apply IZR_lt; lia).
    nra.
Qed.

Lemma approximates_nonneg (k : nat) (x : spec_float) (r : R) :
  approximates k x r -> (0 <= r)%R.
Proof.
  intros (_ & [->|H] & _); [lra|].
  pose proof (powerRZ2_pos (-1000)). lra.
Qed.

Lemma approximates_weaken (k k' : nat) (x : spec_float) (r : R) :
  (k <= k')%nat -> approximates k x r -> approximates k' x r.
Proof.
  intros Hk H. pose proof (approximates_nonneg k x r H) as Hr.
  destruct H as (Hx & Hok & Hlo & Hhi).
  pose proof roundoff_bounds as Hu.
  assert (/ 2 ^ 20 <= 1)%R by (rewrite two_pow_20; lra).
  pose proof (pow_below_one_mono (1 - roundoff) k k' ltac:(lra) Hk).
  pose proof (pow_above_one_mono (1 + roundoff) k k' ltac:(lra) Hk).
  split; [exact Hx|]. split; [exact Hok|]. split; nra.
Qed.

Lemma approximates_exact (x : spec_float) :
  zeroOrNormal x ->
  (SF2R x = 0 \/ powerRZ 2 (-1000) <= SF2R x)%R ->
  approximates 0 x (SF2R x).
Proof.
  intros Hx Hok. split; [exact Hx|]. split; [exact Hok|]. cbn [pow]. lra.
Qed.

Lemma approximates_zero (k : nat) (x : spec_float) (r : R) :
  (INR k <= 2 ^ 20)%R -> approximates k x r -> SF2R x = 0%R -> r = 0%R.
Proof.
  intros Hk H Hv. pose proof (approximates_nonneg k x r H) as Hr.
  destruct H as (_ & _ & Hlo & _). rewrite Hv in Hlo.
  destruct (factors_bounded k Hk) as [HA _]. nra.
Qed.

Lemma approximates_positive (k : nat) (x : spec_float) (r : R) :
  approximates k x r -> (0 < SF2R x)%R -> (powerRZ 2 (-1000) <= r)%R.
Proof.
  intros (_ & [->|H] & _ & Hhi) Hv; [|exact H]. lra.
Qed.

(** One addition costs one rounding. *)
Lemma approximates_add (k : nat) (x y : spec_float) (rx ry : R) :
  (INR (S k) <= 2 ^ 20)%R ->
  approximates k x rx -> approximates k y ry ->
  (rx + ry <= powerRZ 2 1021)%R ->
  approximates (S k) (SF64add x y) (rx + ry).
Proof.
  intros HSk Hx Hy Hsum.
  assert (Hk : (INR k <= 2 ^ 20)%R) by (rewrite S_INR in HSk; lra).
  pose proof (approximates_nonneg k x rx Hx) as Hrx.
  pose proof (approximates_nonneg k y ry Hy) as Hry.
  destruct (zeroOrNormal_value x (proj1 Hx))
    as [[[sx ->] Hvx]|(m1 & e1 & -> & Hd1 & Hvx & Hpx)].
  - (* 0 + y *)
    pose proof (approximates_zero k _ rx Hk Hx Hvx) as ->.
    rewrite Rplus_0_l.
    destruct (zeroOrNormal_value y (proj1 Hy))
      as [[[sy ->] Hvy]|(m2 & e2 & -> & Hd2 & Hvy & Hpy)].
    + pose proof (approximates_zero k _ ry Hk Hy Hvy) as ->.
      split; [|split; [left; reflexivity|]].
      * left. destruct sx, sy; cbn; eauto.
      * replace (SF2R (SF64add (S754_zero sx) (S754_zero sy))) with 0%R
          by (destruct sx, sy; reflexivity).
        lra.
    + apply (approximates_weaken k); [lia|exact Hy].
  - destruct (zeroOrNormal_value y (proj1 Hy))
      as [[[sy ->] Hvy]|(m2 & e2 & -> & Hd2 & Hvy & Hpy)].
    + (* x + 0 *)
      pose proof (approximates_zero k _ ry Hk Hy Hvy) as ->.
      rewrite Rplus_0_r. apply (approximates_weaken k); [lia|exact Hx].
    + (* two positive numbers *)
      pose proof (approximates_positive k _ rx Hx Hpx) as Hlx.
      pose proof (approximates_positive k _ ry Hy Hpy) as Hly.
      destruct Hx as (_ & _ & Hx1 & Hx2). destruct Hy as (_ & _ & Hy1 & Hy2).
      rewrite Hvx in *. rewrite Hvy in *.
      destruct (factors_bounded k Hk) as [HA HB].
      destruct range_constants as (C1 & C2 & C3).
      set (vx := (IZR (Z.pos m1) * powerRZ 2 e1)%R) in *.
      set (vy := (IZR (Z.pos m2) * powerRZ 2 e2)%R) in *.
      set (A := ((1 - roundoff) ^ k)%R) in *.
      set (B := ((1 + roundoff) ^ k)%R) in *.
      assert (Hlow : (powerRZ 2 (-1022) <= vx + vy)%R) by nra.
      assert (Hupp : (vx + vy < powerRZ 2 1023)%R) by nra.
      destruct (SFadd_normal m1 m2 e1 e2 Hd1 Hd2 Hlow Hupp)
        as (m & e & -> & Hd & Herr).
      fold vx vy in Herr.
      split; [right; eauto|]. split; [right; lra|].
      cbn [SF2R pow]. rewrite Rmult_1_l.
      fold A B.
      set (v := (IZR (Z.pos m) * powerRZ 2 e)%R) in *.
      pose proof roundoff_bounds as Hu.
      assert (Hu1 : (roundoff < 1)%R).
      { destruct Hu as [_ Hu]. rewrite two_pow_20 in Hu. lra. }
      assert (Hv : ((vx + vy) * (1 - roundoff) <= v <= (vx + vy) * (1 + roundoff))%R).
      { revert Herr. unfold Rabs. destruct (Rcase_abs _); intros; lra. }
      split.
      * apply Rle_trans with ((vx + vy) * (1 - roundoff))%R; [|lra].
        replace ((rx + ry) * ((1 - roundoff) * A))%R
          with (((rx + ry) * A) * (1 - roundoff))%R by ring.
        apply Rmult_le_compat_r; [lra|]. lra.
      * apply Rle_trans with ((vx + vy) * (1 + roundoff))%R; [lra|].
        replace ((rx + ry) * ((1 + roundoff) * B))%R
          with (((rx + ry) * B) * (1 + roundoff))%R by ring.
        apply Rmult_le_compat_r; [lra|]. lra.
Qed.

(** One multiplication costs the roundings of both factors and one
    more. *)
Lemma approximates_mul (k1 k2 : nat) (x y : spec_float) (rx ry : R) :
  (INR (S (k1 + k2)) <= 2 ^ 20)%R ->
  approximates k1 x rx -> approximates k2 y ry ->
  (rx * ry = 0 \/ powerRZ 2 (-1000) <= rx * ry)%R ->
  (rx * ry <= powerRZ 2 1021)%R ->
  approximates (S (k1 + k2)) (SF64mul x y) (rx * ry).
Proof.
  intros HSk Hx Hy Hok Hprod.
  assert (Hk : (INR (k1 + k2) <= 2 ^ 20)%R) by (rewrite S_INR in HSk; lra).
  assert (Hk1 : (INR k1 <= 2 ^ 20)%R).
  { rewrite plus_INR in Hk. pose proof (pos_INR k2). lra. }
  assert (Hk2 : (INR k2 <= 2 ^ 20)%R).
  { rewrite plus_INR in Hk. pose proof (pos_INR k1). lra. }
  pose proof (approximates_nonneg k1 x rx Hx) as Hrx.
  pose proof (approximates_nonneg k2 y ry Hy) as Hry.
  assert (Hzero : forall s, approximates (S (k1 + k2)) (S754_zero s) 0).
  { intros s. split; [left; eauto|]. split; [left; reflexivity|].
    cbn [SF2R]. lra. }
  destruct (zeroOrNormal_value x (proj1 Hx))
    as [[[sx ->] Hvx]|(m1 & e1 & -> & Hd1 & Hvx & Hpx)].
  - pose proof (approximates_zero k1 _ rx Hk1 Hx Hvx) as ->.
    rewrite Rmult_0_l.
    destruct (proj1 Hy) as [[sy ->]|(m2 & e2 & -> & _)]; apply Hzero.
  - destruct (zeroOrNormal_value y (proj1 Hy))
      as [[[sy ->] Hvy]|(m2 & e2 & -> & Hd2 & Hvy & Hpy)].
    + pose proof (approximates_zero k2 _ ry Hk2 Hy Hvy) as ->.
      rewrite Rmult_0_r. apply Hzero.
    + pose proof (approximates_positive k1 _ rx Hx Hpx) as Hlx.
      pose proof (approximates_positive k2 _ ry Hy Hpy) as Hly.
      destruct range_constants as (C1 & C2 & C3).
      assert (Hlow0 : (powerRZ 2 (-1000) <= rx * ry)%R).
      { destruct Hok as [H0|H1]; [|exact H1]. nra. }
      destruct Hx as (_ & _ & Hx1 & Hx2). destruct Hy as (_ & _ & Hy1 & Hy2).
      rewrite Hvx in *. rewrite Hvy in *.
      destruct (factors_bounded (k1 + k2) Hk) as [HA HB].
      rewrite !pow_add in HA, HB.
      pose proof roundoff_bounds as Hu.
      assert (Hu1 : (roundoff < 1)%R).
      { destruct Hu as [_ Hu]. rewrite two_pow_20 in Hu. lra. }
      assert (HA1 : (0 <= (1 - roundoff) ^ k1)%R) by (apply pow_le; lra).
      assert (HA2 : (0 <= (1 - roundoff) ^ k2)%R) by (apply pow_le; lra).
      assert (HB1 : (0 <= (1 + roundoff) ^ k1)%R) by (apply pow_le; lra).
      assert (HB2 : (0 <= (1 + roundoff) ^ k2)%R) by (apply pow_le; lra).
      set (vx := (IZR (Z.pos m1) * powerRZ 2 e1)%R) in *.
      set (vy := (IZR (Z.pos m2) * powerRZ 2 e2)%R) in *.
      set (A1 := ((1 - roundoff) ^ k1)%R) in *.
      set (A2 := ((1 - roundoff) ^ k2)%R) in *.
      set (B1 := ((1 + roundoff) ^ k1)%R) in *.
      set (B2 := ((1 + roundoff) ^ k2)%R) in *.
      assert (Hl : ((rx * ry) * (A1 * A2) <= vx * vy)%R).
      { replace ((rx * ry) * (A1 * A2))%R with ((rx * A1) * (ry * A2))%R by ring.
        apply Rmult_le_compat; nra. }
      assert (Hh : (vx * vy <= (rx * ry) * (B1 * B2))%R).
      { replace ((rx * ry) * (B1 * B2))%R with ((rx * B1) * (ry * B2))%R by ring.
        apply Rmult_le_compat; nra. }
      assert (Hlow : (powerRZ 2 (-1022) <= vx * vy)%R) by nra.
      assert (Hupp : (vx * vy < powerRZ 2 1023)%R) by nra.
      destruct (SFmul_normal m1 m2 e1 e2 Hd1 Hd2 Hlow Hupp)
        as (m & e & -> & Hd & Herr).
      fold vx vy in Herr.
      split; [right; eauto|]. split; [right; exact Hlow0|].
      cbn [SF2R pow]. rewrite Rmult_1_l. rewrite !pow_add.
      fold A1 A2 B1 B2.
      set (v := (IZR (Z.pos m) * powerRZ 2 e)%R) in *.
      assert (Hv : ((vx * vy) * (1 - roundoff) <= v
                    <= (vx * vy) * (1 + roundoff))%R).
      { revert Herr. unfold Rabs. destruct (Rcase_abs _); intros; lra. }
      split.
      * apply Rle_trans with ((vx * vy) * (1 - roundoff))%R; [|lra].
        replace (rx * ry * ((1 - roundoff) * (A1 * A2)))%R
          with (((rx * ry) * (A1 * A2)) * (1 - roundoff))%R by ring.
        apply Rmult_le_compat_r; [lra|exact Hl].
      * apply Rle_trans with ((vx * vy) * (1 + roundoff))%R; [lra|].
        replace (rx * ry * ((1 + roundoff) * (B1 * B2)))%R
          with (((rx * ry) * (B1 * B2)) * (1 + roundoff))%R by ring.
        apply Rmult_le_compat_r; [lra|exact Hh].
Qed.

(** ** The totals of a ledger with hours and rates in range *)

Lemma inRange_spec (x : Js.number) :
  inRange x = true ->
  approximates 0 (Prim2SF x) (valueOf x)
  /\ (valueOf x = 0 \/ powerRZ 2 (-500) <= valueOf x)%R
  /\ (valueOf x <= powerRZ 2 500)%R.
Proof.
  unfold inRange, valueOf. pose proof (FloatAxioms.Prim2SF_valid x) as Hvalid.
  destruct (Prim2SF x) as [s|s| |[] m e]; try discriminate.
  - intros _. split; [|split].
    + apply approximates_exact; [left; eauto|left; reflexivity].
    + left. reflexivity.
    + cbn [SF2R]. pose proof (powerRZ2_pos 500). lra.
  - rewrite andb_true_iff, !Z.leb_le. intros [Hlo Hhi].
    cbn [SpecFloat.valid_binary] in Hvalid.
    unfold SpecFloat.bounded, canonical_mantissa in Hvalid.
    apply andb_true_iff in Hvalid as [Hcan _]. apply Z.eqb_eq in Hcan.
    rewrite fexp64_normal in Hcan by lia.
    assert (Hd : Zpos (digits2_pos m) = 53) by lia.
    pose proof (value_bounds m e) as [Hv1 Hv2].
    pose proof (powerRZ2_le (-500) (Zpos (digits2_pos m) + e - 1) ltac:(lia)).
    pose proof (powerRZ2_le (Zpos (digits2_pos m) + e) 500 ltac:(lia)).
    pose proof (powerRZ2_le (-1000) (-500) ltac:(lia)).
    assert (Hval : SF2R (S754_finite false m e)
                   = (IZR (Z.pos m) * powerRZ 2 e)%R) by (cbn [SF2R]; ring).
    split; [|split; [right; rewrite Hval; lra|rewrite Hval; lra]].
    apply (approximates_exact (S754_finite false m e)).
    + right. eauto.
    + right. rewrite Hval. lra.
Qed.

Lemma approximates_zero_float (k : nat) : approximates k (Prim2SF 0%float) 0.
Proof.
  split; [left; exists false; reflexivity|]. split; [left; reflexivity|].
  replace (SF2R (Prim2SF 0)) with 0%R by reflexivity. lra.
Qed.

Lemma Rsum_nonneg (l : list R) : Forall (fun r => 0 <= r)%R l -> (0 <= Rsum l)%R.
Proof. induction 1; cbn [Rsum List.fold_right]; [lra|]. fold (Rsum l). lra. Qed.

Lemma Rsum_bound (l : list R) (b : R) :
  Forall (fun r => r <= b)%R l -> (Rsum l <= INR (List.length l) * b)%R.
Proof.
  induction 1 as [|r l Hr _ IH].
  - cbn. lra.
  - cbn [Rsum List.fold_right List.length]. fold (Rsum l). rewrite S_INR. lra.
Qed.

(** A left-to-right sum of [n] terms, each within [k] roundings of its
    exact value, is within [k + n] roundings of the exact sum. *)
Lemma fold_approximates {A : Type} (f : A -> Js.number) (g : A -> R) (k : nat)
    (l : list A) :
  Forall (fun a => approximates k (Prim2SF (f a)) (g a)) l ->
  forall (acc : Js.number) (racc : R) (j : nat),
    (k <= j)%nat ->
    approximates j (Prim2SF acc) racc ->
    (INR (j + List.length l) <= 2 ^ 20)%R ->
    (racc + Rsum (List.map g l) <= powerRZ 2 1021)%R ->
    approximates (j + List.length l)
      (Prim2SF (List.fold_left (fun sum a => (sum + f a)%float) l acc))
      (racc + Rsum (List.map g l)).
Proof.
  induction 1 as [|a l Ha Hl IH]; intros acc racc j Hkj Hacc Hn Hsum.
  - cbn [List.fold_left List.map Rsum List.fold_right List.length].
    rewrite Nat.add_0_r, Rplus_0_r. exact Hacc.
  - cbn [List.fold_left List.map Rsum List.fold_right List.length] in *.
    fold (Rsum (List.map g l)) in *.
    assert (Hrest : (0 <= Rsum (List.map g l))%R).
    { apply Rsum_nonneg. apply List.Forall_map.
      eapply List.Forall_impl; [|exact Hl].
      intros b Hb. exact (approximates_nonneg _ _ _ Hb). }
    replace (j + S (List.length l))%nat with (S j + List.length l)%nat in * by lia.
    replace (racc + (g a + Rsum (List.map g l)))%R
      with ((racc + g a) + Rsum (List.map g l))%R in * by ring.
    apply IH; [lia| |exact Hn|exact Hsum].
    rewrite FloatAxioms.add_spec.
    apply approximates_add.
    + rewrite plus_INR in Hn. pose proof (pos_INR (List.length l)). lra.
    + exact Hacc.
    + apply (approximates_weaken k); [exact Hkj|exact Ha].
    + pose proof (approximates_nonneg _ _ _ Ha). lra.
Qed.

Lemma ledger_constants :
  (powerRZ 2 (-500) * powerRZ 2 (-500) = powerRZ 2 (-1000))%R
  /\ (0 < powerRZ 2 (-500))%R
  /\ (1 <= powerRZ 2 500)%R
  /\ (2097152 * (powerRZ 2 500 * powerRZ 2 500) = powerRZ 2 1021)%R.
Proof.
  split; [|split; [|split]].
  - rewrite <- powerRZ2_add. reflexivity.
  - apply powerRZ2_pos.
  - change 1%R with (powerRZ 2 0). apply powerRZ2_le. lia.
  - rewrite <- powerRZ2_add. change (500 + 500) with 1000.
    change 1021 with (21 + 1000). rewrite powerRZ2_add.
    rewrite <- (IZR_pow2 21) by lia. reflexivity.
Qed.

Section BoundedLedger.

Variable users : list User.t.

Lemma boundedLedger_rows (rows : list BudgetRow.t) :
  boundedLedger users rows = true ->
  (INR (List.length rows) <= 262144)%R /\ Forall (rowInRange users) rows.
Proof.
  unfold boundedLedger. rewrite andb_true_iff, Z.leb_le.
  intros [Hn Hall]. split.
  - rewrite INR_IZR_INZ. apply IZR_le. exact Hn.
  - apply List.Forall_forall. intros row Hrow.
    rewrite List.forallb_forall in Hall. specialize (Hall row Hrow).
    apply andb_true_iff in Hall as [Hh Hp]. split; [|exact Hp].
    rewrite List.forallb_forall in Hh. intros year. apply Hh.
    destruct year; cbn; tauto.
Qed.

(** A product of hours and rate costs one rounding. *)
Lemma yearTerm_approximates (row : BudgetRow.t) (year : Year) :
  rowInRange users row ->
  approximates 1
    (Prim2SF (yearHours row year * getEffectiveRate users row)%float)
    (valueOf (yearHours row year) * valueOf (getEffectiveRate users row))
  /\ (valueOf (yearHours row year) * valueOf (getEffectiveRate users row)
      <= powerRZ 2 500 * powerRZ 2 500)%R.
Proof.
  intros [Hh Hp].
  destruct (inRange_spec _ (Hh year)) as (Ah & Lh & Uh).
  destruct (inRange_spec _ Hp) as (Ap & Lp & Up).
  pose proof (approximates_nonneg _ _ _ Ah) as Nh.
  pose proof (approximates_nonneg _ _ _ Ap) as Np.
  destruct ledger_constants as (C1 & C2 & C3 & C4).
  set (h := valueOf (yearHours row year)) in *.
  set (p := valueOf (getEffectiveRate users row)) in *.
  assert (Hup : (h * p <= powerRZ 2 500 * powerRZ 2 500)%R)
    by (apply Rmult_le_compat; lra).
  split; [|exact Hup].
  rewrite FloatAxioms.mul_spec.
  apply (approximates_mul 0 0); [rewrite two_pow_20; cbn; lra|exact Ah|exact Ap| |].
  - destruct Lh as [->|Lh]; [left; ring|].
    destruct Lp as [->|Lp]; [left; ring|].
    right. rewrite <- C1. apply Rmult_le_compat; lra.
  - rewrite <- C4. nra.
Qed.

(** A row total costs five roundings: four additions and one
    multiplication. *)
Lemma rowTotal_approximates (row : BudgetRow.t) :
  rowInRange users row ->
  approximates 5 (Prim2SF (calculateRowTotal users row))
    (exactRowTotal users row)
  /\ (exactRowTotal users row <= 5 * (powerRZ 2 500 * powerRZ 2 500))%R.
Proof.
  intros [Hh Hp].
  destruct (inRange_spec _ (Hh Y1)) as (A1 & L1 & U1).
  destruct (inRange_spec _ (Hh Y2)) as (A2 & L2 & U2).
  destruct (inRange_spec _ (Hh Y3)) as (A3 & L3 & U3).
  destruct (inRange_spec _ (Hh Y4)) as (A4 & L4 & U4).
  destruct (inRange_spec _ (Hh Y5)) as (A5 & L5 & U5).
  destruct (inRange_spec _ Hp) as (Ap & Lp & Up).
  cbn [yearHours] in *.
  pose proof (approximates_nonneg _ _ _ A1) as N1.
  pose proof (approximates_nonneg _ _ _ A2) as N2.
  pose proof (approximates_nonneg _ _ _ A3) as N3.
  pose proof (approximates_nonneg _ _ _ A4) as N4.
  pose proof (approximates_nonneg _ _ _ A5) as N5.
  pose proof (approximates_nonneg _ _ _ Ap) as Np.
  destruct ledger_constants as (C1 & C2 & C3 & C4).
  unfold exactRowTotal, calculateRowTotal.
  set (h1 := valueOf (BudgetRow.year1 row)) in *.
  set (h2 := valueOf (BudgetRow.year2 row)) in *.
  set (h3 := valueOf (BudgetRow.year3 row)) in *.
  set (h4 := valueOf (BudgetRow.year4 row)) in *.
  set (h5 := valueOf (BudgetRow.year5 row)) in *.
  set (p := valueOf (getEffectiveRate users row)) in *.
  set (hi := powerRZ 2 500) in *.
  assert (Hbig : (5 * hi <= powerRZ 2 1021)%R) by (rewrite <- C4; nra).
  assert (Hup : ((h1 + h2 + h3 + h4 + h5) * p <= 5 * (hi * hi))%R).
  { replace (5 * (hi * hi))%R with ((5 * hi) * hi)%R by ring.
    apply Rmult_le_compat; lra. }
  split; [|exact Hup].
  assert (K : forall k : nat, (k <= 6)%nat -> (INR k <= 2 ^ 20)%R).
  { intros k Hk. rewrite two_pow_20. apply le_INR in Hk.
    replace (INR 6) with 6%R in Hk by (cbn; lra). lra. }
  assert (S2 : approximates 1
                 (Prim2SF (BudgetRow.year1 row + BudgetRow.year2 row)%float)
                 (h1 + h2)).
  { rewrite FloatAxioms.add_spec.
    apply approximates_add; [apply K; lia|exact A1|exact A2|lra]. }
  assert (S3 : approximates 2
                 (Prim2SF (BudgetRow.year1 row + BudgetRow.year2 row
                           + BudgetRow.year3 row)%float)
                 (h1 + h2 + h3)).
  { rewrite FloatAxioms.add_spec.
    apply approximates_add; [apply K; lia|exact S2| |lra].
    apply (approximates_weaken 0); [lia|exact A3]. }
  assert (S4 : approximates 3
                 (Prim2SF (BudgetRow.year1 row + BudgetRow.year2 row
                           + BudgetRow.year3 row + BudgetRow.year4 row)%float)
                 (h1 + h2 + h3 + h4)).
  { rewrite FloatAxioms.add_spec.
    apply approximates_add; [apply K; lia|exact S3| |lra].
    apply (approximates_weaken 0); [lia|exact A4]. }
  assert (S5 : approximates 4
                 (Prim2SF (BudgetRow.year1 row + BudgetRow.year2 row
                           + BudgetRow.year3 row + BudgetRow.year4 row
                           + BudgetRow.year5 row)%float)
                 (h1 + h2 + h3 + h4 + h5)).
  { rewrite FloatAxioms.add_spec.
    apply approximates_add; [apply K; lia|exact S4| |lra].
    apply (approximates_weaken 0); [lia|exact A5]. }
  cbn zeta. rewrite FloatAxioms.mul_spec.
  apply (approximates_mul 4 0); [apply (K 5%nat); lia|exact S5|exact Ap| |].
  - destruct Lp as [->|Lp]; [left; ring|].
    assert (Hsum : (h1 + h2 + h3 + h4 + h5 = 0
                    \/ powerRZ 2 (-500) <= h1 + h2 + h3 + h4 + h5)%R).
    { destruct L1 as [E1|L1]; [|right; lra].
      destruct L2 as [E2|L2]; [|right; lra].
      destruct L3 as [E3|L3]; [|right; lra].
      destruct L4 as [E4|L4]; [|right; lra].
      destruct L5 as [E5|L5]; [|right; lra].
      left. lra. }
    destruct Hsum as [->|Hsum]; [left; ring|].
    right. rewrite <- C1. apply Rmult_le_compat; lra.
  - rewrite <- C4. fold hi. nra.
Qed.

Lemma exactYearTotals_add_up (rows : list BudgetRow.t) :
  Rsum (List.map (exactYearTotal users rows) all_years)
  = exactGrandTotal users rows.
Proof.
  unfold exactGrandTotal, exactYearTotal.
  cbn [all_years List.map Rsum List.fold_right].
  induction rows as [|row rows IH].
  - cbn. lra.
  - cbn [List.map Rsum List.fold_right yearHours] in *.
    fold (Rsum (List.map (exactRowTotal users) rows)) in *.
    unfold Rsum in *. rewrite <- IH. unfold exactRowTotal. ring.
Qed.
End BoundedLedger.

Lemma zeroOrNormal_finite (x : Js.number) :
  zeroOrNormal (Prim2SF x) -> isNonnegFinite x = true.
Proof.
  unfold isNonnegFinite. intros [[s ->]|(m & e & -> & _)]; reflexivity.
Qed.

(** Two results within [k] roundings of the same exact value differ by at
    most [3 k] unit roundoffs of that value. *)
Lemma approximates_distance (k : nat) (x y : spec_float) (r : R) :
  (INR k <= 2 ^ 20)%R ->
  approximates k x r -> approximates k y r ->
  (Rabs (SF2R x - SF2R y) <= 3 * INR k * roundoff * r)%R.
Proof.
  rewrite two_pow_20. intros Hk Hx Hy.
  pose proof (approximates_nonneg _ _ _ Hx) as Hr.
  destruct Hx as (_ & _ & Hx1 & Hx2). destruct Hy as (_ & _ & Hy1 & Hy2).
  pose proof roundoff_value as Hv. pose proof (pos_INR k) as Hk0.
  assert (Hu : (0 < roundoff <= / 4194304)%R) by (rewrite Hv; lra).
  assert (Ht : (INR k * roundoff <= / 4)%R) by nra.
  pose proof (pow_minus_lower roundoff k ltac:(lra)) as HA.
  pose proof (pow_plus_linear roundoff k ltac:(lra) ltac:(lra)) as HB.
  set (A := ((1 - roundoff) ^ k)%R) in *.
  set (B := ((1 + roundoff) ^ k)%R) in *.
  assert (HrA : (r * (1 - INR k * roundoff) <= r * A)%R)
    by (apply Rmult_le_compat_l; lra).
  assert (HrB : (r * B <= r * (1 + 2 * (INR k * roundoff)))%R)
    by (apply Rmult_le_compat_l; lra).
  apply Rabs_le. split; nra.
Qed.

(** C3, amended.  [grandTotal] and the year totals are binary64 sums and
    products, rounded at every step.  For every ledger of at most [2^18]
    rows in which each hours entry and each effective rate is a zero or a
    positive number from [2^-500] up to [2^500], both [grandTotal()] and
    the sum of the five year totals are finite, the exact totals of the
    specification agree, and the two computed numbers differ by at most
    3 (n + 6) 2^-53 times the exact grand total, [n] being the number of
    rows; so for at most 1000 rows and a grand total of at most 10^9 they
    agree within 0.001. *)
Theorem cross_aggregation_within_rounding (users : list User.t)
    (rows : list BudgetRow.t) :
  boundedLedger users rows = true ->
  isNonnegFinite (grandTotal users rows) = true
  /\ isNonnegFinite (sumYearTotals users rows) = true
  /\ Rsum (List.map (exactYearTotal users rows) all_years)
     = exactGrandTotal users rows
  /\ (Rabs (valueOf (grandTotal users rows) - valueOf (sumYearTotals users rows))
      <= 3 * INR (List.length rows + 6) * roundoff * exactGrandTotal users rows)%R
  /\ ((INR (List.length rows) <= 1000)%R ->
      (exactGrandTotal users rows <= 10 ^ 9)%R ->
      (Rabs (valueOf (grandTotal users rows)
             - valueOf (sumYearTotals users rows)) <= / 1000)%R).
Proof.
  intros Hb. destruct (boundedLedger_rows users rows Hb) as [Hn Hrows].
  destruct ledger_constants as (C1 & C2 & C3 & C4).
  set (n := List.length rows) in *.
  pose proof (pos_INR n) as Hn0.
  assert (Hrow : Forall (fun row => approximates 5
                                      (Prim2SF (calculateRowTotal users row))
                                      (exactRowTotal users row)) rows).
  { eapply List.Forall_impl; [|exact Hrows].
    intros row Hr. exact (proj1 (rowTotal_approximates users row Hr)). }
  assert (Hrowb : Forall (fun r => (r <= 5 * (powerRZ 2 500 * powerRZ 2 500))%R)
                    (List.map (exactRowTotal users) rows)).
  { apply List.Forall_map. eapply List.Forall_impl; [|exact Hrows].
    intros row Hr. exact (proj2 (rowTotal_approximates users row Hr)). }
  pose proof (Rsum_bound _ _ Hrowb) as HT. rewrite List.length_map in HT.
  fold n in HT. fold (exactGrandTotal users rows) in HT.
  assert (HTnn : (0 <= exactGrandTotal users rows)%R).
  { apply Rsum_nonneg, List.Forall_map.
    eapply List.Forall_impl; [|exact Hrow].
    intros row Hr. exact (approximates_nonneg _ _ _ Hr). }
  assert (Hbig : (exactGrandTotal users rows <= powerRZ 2 1021)%R).
  { rewrite <- C4.
    assert (0 < powerRZ 2 500 * powerRZ 2 500)%R by nra. nra. }
  assert (Hcount : forall k : nat, (k <= 6)%nat -> (INR (k + n) <= 2 ^ 20)%R).
  { intros k Hk. rewrite two_pow_20, plus_INR. apply le_INR in Hk.
    replace (INR 6) with 6%R in Hk by (cbn; lra). lra. }
  (* the grand total *)
  assert (HG : approximates (5 + n) (Prim2SF (grandTotal users rows))
                 (exactGrandTotal users rows)).
  { pose proof (fold_approximates (calculateRowTotal users) (exactRowTotal users)
                  5 rows Hrow 0%float 0%R 5%nat (le_n 5)
                  (approximates_zero_float 5)) as H.
    fold n in H. fold (exactGrandTotal users rows) in H.
    rewrite Rplus_0_l in H. apply H; [apply Hcount; lia|exact Hbig]. }
  (* the year totals *)
  assert (Hsumyears := exactYearTotals_add_up users rows).
  assert (HY : forall year,
             approximates (1 + n) (Prim2SF (calculateYearTotal users rows year))
               (exactYearTotal users rows year)
             /\ (0 <= exactYearTotal users rows year)%R).
  { intros year.
    assert (Hterm : Forall (fun row =>
                              approximates 1
                                (Prim2SF (yearHours row year
                                          * getEffectiveRate users row)%float)
                                (valueOf (yearHours row year)
                                 * valueOf (getEffectiveRate users row)))
                      rows).
    { eapply List.Forall_impl; [|exact Hrows].
      intros row Hr. exact (proj1 (yearTerm_approximates users row year Hr)). }
    assert (Htermb : Forall (fun r => (r <= powerRZ 2 500 * powerRZ 2 500)%R)
                       (List.map (fun row => (valueOf (yearHours row year)
                                              * valueOf (getEffectiveRate users row))%R)
                                 rows)).
    { apply List.Forall_map. eapply List.Forall_impl; [|exact Hrows].
      intros row Hr. exact (proj2 (yearTerm_approximates users row year Hr)). }
    pose proof (Rsum_bound _ _ Htermb) as HTy. rewrite List.length_map in HTy.
    fold n in HTy. fold (exactYearTotal users rows year) in HTy.
    assert (Hnn : (0 <= exactYearTotal users rows year)%R).
    { apply Rsum_nonneg, List.Forall_map.
      eapply List.Forall_impl; [|exact Hterm].
      intros row Hr. exact (approximates_nonneg _ _ _ Hr). }
    split; [|exact Hnn].
    pose proof (fold_approximates
                  (fun row => (yearHours row year * getEffectiveRate users row)%float)
                  (fun row => (valueOf (yearHours row year)
                               * valueOf (getEffectiveRate users row))%R)
                  1 rows Hterm 0%float 0%R 1%nat (le_n 1)
                  (approximates_zero_float 1)) as H.
    fold n in H. fold (exactYearTotal users rows year) in H.
    rewrite Rplus_0_l in H. apply H; [apply Hcount; lia|].
    rewrite <- C4. assert (0 < powerRZ 2 500 * powerRZ 2 500)%R by nra. nra. }
  (* the sum of the year totals *)
  assert (HS : approximates (1 + n + 5) (Prim2SF (sumYearTotals users rows))
                 (exactGrandTotal users rows)).
  { assert (Hall : Forall (fun year =>
                             approximates (1 + n)
                               (Prim2SF (calculateYearTotal users rows year))
                               (exactYearTotal users rows year)) all_years).
    { apply List.Forall_forall. intros year _. exact (proj1 (HY year)). }
    pose proof (fold_approximates (calculateYearTotal users rows)
                  (exactYearTotal users rows) (1 + n) all_years Hall
                  0%float 0%R (1 + n)%nat (le_n _)
                  (approximates_zero_float (1 + n))) as H.
    rewrite Hsumyears, Rplus_0_l in H.
    apply H; [|exact Hbig].
    change (List.length all_years) with 5%nat.
    replace (1 + n + 5)%nat with (6 + n)%nat by lia. apply Hcount. lia. }
  assert (HG' : approximates (n + 6) (Prim2SF (grandTotal users rows))
                  (exactGrandTotal users rows))
    by (apply (approximates_weaken (5 + n)); [lia|exact HG]).
  assert (HS' : approximates (n + 6) (Prim2SF (sumYearTotals users rows))
                  (exactGrandTotal users rows))
    by (apply (approximates_weaken (1 + n + 5)); [lia|exact HS]).
  assert (Hdist := approximates_distance (n + 6) _ _ _
                     ltac:(rewrite Nat.add_comm; apply Hcount; lia) HG' HS').
  fold (valueOf (grandTotal users rows)) in Hdist.
  fold (valueOf (sumYearTotals users rows)) in Hdist.
  split; [apply zeroOrNormal_finite, HG|].
  split; [apply zeroOrNormal_finite, HS|].
  split; [exact Hsumyears|]. split; [exact Hdist|].
  intros Hn1000 HT9.
  eapply Rle_trans; [exact Hdist|].
  rewrite plus_INR. replace (INR 6) with 6%R by (cbn; lra).
  rewrite roundoff_value.
  replace (10 ^ 9)%R with 1000000000%R in HT9 by (rewrite pow_IZR; reflexivity).
  set (T := exactGrandTotal users rows) in *.
  assert (3 * (INR n + 6) * / 9007199254740992 <= / 2000000000000)%R by lra.
  assert (0 <= 3 * (INR n + 6) * / 9007199254740992)%R by lra.
  nra.
Qed.

Lemma cross_aggregation_within_rounding_witness :
  isNonnegFinite (grandTotal sample_users tenth_rows) = true
  /\ isNonnegFinite (sumYearTotals sample_users tenth_rows) = true
  /\ Rsum (List.map (exactYearTotal sample_users tenth_rows) all_years)
     = exactGrandTotal sample_users tenth_rows
  /\ (Rabs (valueOf (grandTotal sample_users tenth_rows)
            - valueOf (sumYearTotals sample_users tenth_rows))
      <= 3 * INR (List.length tenth_rows + 6) * roundoff
         * exactGrandTotal sample_users tenth_rows)%R
  /\ ((INR (List.length tenth_rows) <= 1000)%R ->
      (exactGrandTotal sample_users tenth_rows <= 10 ^ 9)%R ->
      (Rabs (valueOf (grandTotal sample_users tenth_rows)
             - valueOf (sumYearTotals sample_users tenth_rows)) <= / 1000)%R).
Proof.
  apply (cross_aggregation_within_rounding sample_users tenth_rows).
  vm_compute. reflexivity.
Defined.

(** The end-to-end scenario of section 8: Sarah, Principal, 10 hours in
    year 1. *)
Example sarah_scenario :
  calculateRowTotal sample_users sarah_row = 2500%float
  /\ List.map (calculateYearTotal sample_users [sarah_row]) all_years
     = [2500%float; 0%float; 0%float; 0%float; 0%float]
  /\ grandTotal sample_users [sarah_row] = 2500%float
  /\ sumYearTotals sample_users [sarah_row] = 2500%float.
Proof. repeat split; vm_compute; reflexivity. Qed.

(** * Properties of the rest of the code *)


(** ** Loading the budget rows *)

Lemma existsb_eqb_In (x : string) (l : list string) :
  List.existsb (String.eqb x) l = true <-> In x l.
Proof.
  rewrite List.existsb_exists. split.
  - intros (y & Hy & E). apply String.eqb_eq in E. subst. exact Hy.
  - intros H. exists x. split; [exact H|apply String.eqb_refl].
Qed.

Lemma distinct_snoc (l : list string) (x : string) :
  distinct (l ++ [x])
  = if List.existsb (String.eqb x) (distinct l) then distinct l
    else (distinct l ++ [x])%list.
Proof. unfold distinct. rewrite List.fold_left_app. reflexivity. Qed.

Lemma distinct_In (l : list string) (x : string) :
  In x (distinct l) <-> In x l.
Proof.
  induction l as [|y l IH] using List.rev_ind; [reflexivity|].
  rewrite distinct_snoc, List.in_app_iff.
  destruct (List.existsb (String.eqb y) (distinct l)) eqn:E.
  - apply existsb_eqb_In in E. rewrite IH. cbn.
    split; [tauto|]. intros [H|[->|[]]]; [exact H|]. apply IH, E.
  - rewrite List.in_app_iff, IH. reflexivity.
Qed.

Lemma distinct_NoDup (l : list string) : List.NoDup (distinct l).
Proof.
  induction l as [|y l IH] using List.rev_ind; [constructor|].
  rewrite distinct_snoc.
  destruct (List.existsb (String.eqb y) (distinct l)) eqn:E; [exact IH|].
  assert (Hn : ~ In y (distinct l)).
  { intros H. apply existsb_eqb_In in H. congruence. }
  clear E. induction (distinct l) as [|z d IHd]; cbn.
  - constructor; [intros []|constructor].
  - apply List.NoDup_cons_iff in IH as [Hz Hd]. constructor.
    + rewrite List.in_app_iff. cbn. intros [H|[->|[]]]; [tauto|].
      apply Hn. left. reflexivity.
    + apply IHd; [exact Hd|]. intros H. apply Hn. right. exact H.
Qed.

Lemma groupedHas_In (grouped : list BudgetRow.t) (userId : string) :
  groupedHas grouped userId
  = List.existsb (String.eqb userId) (List.map BudgetRow.userId grouped).
Proof.
  unfold groupedHas. induction grouped as [|r g IH]; [reflexivity|].
  cbn. rewrite IH, (String.eqb_sym (BudgetRow.userId r)). reflexivity.
Qed.

Lemma applyEdit_year_userId (users : list User.t) (r : BudgetRow.t)
    (year : Year) (v : Js.number) :
  BudgetRow.userId (applyEdit users r (EditYear year v)) = BudgetRow.userId r.
Proof. destruct r, year; reflexivity. Qed.

Lemma initialRows_snoc (users : list User.t) (items : list BudgetItem.t)
    (item : BudgetItem.t) :
  initialRows users (items ++ [item])
  = initialStep users (initialRows users items) item.
Proof. unfold initialRows. rewrite List.fold_left_app. reflexivity. Qed.

Lemma initialStep_userIds (users : list User.t) (grouped : list BudgetRow.t)
    (item : BudgetItem.t) :
  List.map BudgetRow.userId (initialStep users grouped item)
  = if groupedHas grouped (BudgetItem.userId item)
    then List.map BudgetRow.userId grouped
    else (List.map BudgetRow.userId grouped ++ [BudgetItem.userId item])%list.
Proof.
  unfold initialStep.
  assert (Hmap : forall (y : Year) (l : list BudgetRow.t),
             List.map BudgetRow.userId
               (List.map
                  (fun r =>
                     if String.eqb (BudgetRow.userId r) (BudgetItem.userId item)
                     then applyEdit users r
                            (EditYear y (Js.parseFloat (BudgetItem.hours item)))
                     else r) l)
             = List.map BudgetRow.userId l).
  { intros y l. rewrite List.map_map. apply List.map_ext. intros r.
    destruct (String.eqb _ _); [apply applyEdit_year_userId|reflexivity]. }
  destruct (groupedHas grouped (BudgetItem.userId item));
    destruct (yearOfKey (BudgetItem.year item)); rewrite ?Hmap;
    rewrite ?List.map_app; reflexivity.
Qed.

Lemma initialRows_userIds (users : list User.t) (items : list BudgetItem.t) :
  List.map BudgetRow.userId (initialRows users items)
  = distinct (List.map BudgetItem.userId items).
Proof.
  induction items as [|item items IH] using List.rev_ind; [reflexivity|].
  rewrite initialRows_snoc, initialStep_userIds, List.map_app.
  cbn [List.map]. rewrite distinct_snoc, groupedHas_In, IH. reflexivity.
Qed.

(** X1. The rows rebuilt from the stored budget items hold one row per
    person, in the order in which the persons first occur in the items. *)
Theorem initial_rows_one_per_person (users : list User.t)
    (items : list BudgetItem.t) :
  List.NoDup (List.map BudgetRow.userId (initialRows users items))
  /\ List.map BudgetRow.userId (initialRows users items)
     = distinct (List.map BudgetItem.userId items)
  /\ (forall userId : string,
        In userId (List.map BudgetRow.userId (initialRows users items))
        <-> In userId (List.map BudgetItem.userId items)).
Proof.
  split; [|split].
  - rewrite initialRows_userIds. apply distinct_NoDup.
  - apply initialRows_userIds.
  - intros userId. rewrite initialRows_userIds. apply distinct_In.
Qed.

Lemma yearOfKey_yearNumber (n : Z) (year : Year) :
  yearOfKey n = Some year <-> n = yearNumber year.
Proof.
  split.
  - unfold yearOfKey.
    repeat match goal with
           | |- context [match ?x with _ => _ end] => destruct x
           end; try discriminate; intros [= <-]; reflexivity.
  - intros ->. destruct year; reflexivity.
Qed.

Lemma yearOfKey_eqb (n : Z) (year y : Year) :
  yearOfKey n = Some year -> Z.eqb n (yearNumber y) = Year_eqb year y.
Proof.
  intros H. apply yearOfKey_yearNumber in H. subst.
  destruct year, y; reflexivity.
Qed.

Lemma yearOfKey_none (n : Z) (y : Year) :
  yearOfKey n = None -> Z.eqb n (yearNumber y) = false.
Proof.
  intros H. apply Z.eqb_neq. intros E.
  apply yearOfKey_yearNumber in E. congruence.
Qed.

Lemma applyEdit_year_hours (users : list User.t) (r : BudgetRow.t)
    (year y : Year) (v : Js.number) :
  yearHours (applyEdit users r (EditYear year v)) y
  = if Year_eqb year y then v else yearHours r y.
Proof. destruct r, year, y; reflexivity. Qed.

Lemma lastHours_snoc (items : list BudgetItem.t) (item : BudgetItem.t)
    (userId : string) (year : Year) :
  lastHours (items ++ [item]) userId year
  = if String.eqb (BudgetItem.userId item) userId
       && Z.eqb (BudgetItem.year item) (yearNumber year)
    then Js.parseFloat (BudgetItem.hours item)
    else lastHours items userId year.
Proof. unfold lastHours. rewrite List.fold_left_app. reflexivity. Qed.

Lemma lastHours_absent (items : list BudgetItem.t) (userId : string)
    (year : Year) :
  ~ In userId (List.map BudgetItem.userId items) ->
  lastHours items userId year = 0%float.
Proof.
  induction items as [|item items IH] using List.rev_ind; [reflexivity|].
  rewrite List.map_app, List.in_app_iff. cbn [List.map In]. intros H.
  rewrite lastHours_snoc.
  destruct (String.eqb (BudgetItem.userId item) userId) eqn:E.
  - apply String.eqb_eq in E. tauto.
  - cbn [andb]. apply IH. tauto.
Qed.

(** The rows of one turn of the loop: the rows before it, changed in
    place, and the row the item opens. *)
Lemma initialStep_In (users : list User.t) (grouped : list BudgetRow.t)
    (item : BudgetItem.t) (r' : BudgetRow.t) :
  In r' (initialStep users grouped item) ->
  exists r,
    (In r grouped
     \/ (groupedHas grouped (BudgetItem.userId item) = false
         /\ r = BudgetRow.mk (BudgetItem.id item) (BudgetItem.userId item)
                  (titleOrEmpty (findUser users (BudgetItem.userId item))) None
                  0%float 0%float 0%float 0%float 0%float))
    /\ r' = match yearOfKey (BudgetItem.year item) with
            | Some year =>
                if String.eqb (BudgetRow.userId r) (BudgetItem.userId item)
                then applyEdit users r
                       (EditYear year (Js.parseFloat (BudgetItem.hours item)))
                else r
            | None => r
            end.
Proof.
  unfold initialStep.
  set (newRow := BudgetRow.mk _ _ _ _ _ _ _ _ _).
  assert (Hg : forall r,
             In r (if groupedHas grouped (BudgetItem.userId item) then grouped
                   else (grouped ++ [newRow])%list) ->
             In r grouped
             \/ (groupedHas grouped (BudgetItem.userId item) = false
                 /\ r = newRow)).
  { intros r. destruct (groupedHas grouped _); [tauto|].
    rewrite List.in_app_iff. cbn. intros [H|[<-|[]]]; tauto. }
  destruct (yearOfKey (BudgetItem.year item)) as [year|].
  - rewrite List.in_map_iff. intros (r & <- & Hr).
    exists r. split; [apply Hg, Hr|reflexivity].
  - intros Hr. exists r'. split; [apply Hg, Hr|reflexivity].
Qed.

(** X2. A reload never restores an override or an edited title: every
    rebuilt row has a null rate override, the title of its person (empty
    when the person is unknown or untitled), and the id of one of the
    person's items. *)
Theorem initial_rows_reset_rate_and_title (users : list User.t)
    (items : list BudgetItem.t) (row : BudgetRow.t) :
  In row (initialRows users items) ->
  BudgetRow.customRate row = None
  /\ BudgetRow.customTitle row
     = titleOrEmpty (findUser users (BudgetRow.userId row))
  /\ exists item,
       In item items
       /\ BudgetItem.userId item = BudgetRow.userId row
       /\ BudgetItem.id item = BudgetRow.id row.
Proof.
  revert row.
  induction items as [|item items IH] using List.rev_ind; [intros ? []|].
  intros row. rewrite initialRows_snoc. intros Hin.
  apply initialStep_In in Hin as (r & Hr & ->).
  assert (Hbase : BudgetRow.customRate r = None
                  /\ BudgetRow.customTitle r
                     = titleOrEmpty (findUser users (BudgetRow.userId r))
                  /\ exists it,
                       In it (items ++ [item])%list
                       /\ BudgetItem.userId it = BudgetRow.userId r
                       /\ BudgetItem.id it = BudgetRow.id r).
  { destruct Hr as [Hr|[_ ->]].
    - destruct (IH r Hr) as (H1 & H2 & it & Hit & H3 & H4).
      split; [exact H1|]. split; [exact H2|].
      exists it. rewrite List.in_app_iff. tauto.
    - cbn. split; [reflexivity|]. split; [reflexivity|].
      exists item. rewrite List.in_app_iff. cbn. tauto. }
  destruct (yearOfKey (BudgetItem.year item)) as [year|]; [|exact Hbase].
  destruct (String.eqb (BudgetRow.userId r) (BudgetItem.userId item));
    [|exact Hbase].
  destruct (applyEdit_year users r year (Js.parseFloat (BudgetItem.hours item)))
    as (E1 & E2 & E3 & E4 & _).
  rewrite E1, E2, E3, E4. exact Hbase.
Qed.

(** X3. In a rebuilt row the hours of a year are those of the person's
    last item for that year, parsed from its text, and 0 when the person
    has no item for the year; items of a year outside 1..5 write no
    hours. *)
Theorem initial_rows_hours (users : list User.t) (items : list BudgetItem.t)
    (row : BudgetRow.t) (year : Year) :
  In row (initialRows users items) ->
  yearHours row year = lastHours items (BudgetRow.userId row) year.
Proof.
  revert row.
  induction items as [|item items IH] using List.rev_ind; [intros ? []|].
  intros row. rewrite initialRows_snoc. intros Hin.
  apply initialStep_In in Hin as (r & Hr & ->).
  assert (Hbase : yearHours r year = lastHours items (BudgetRow.userId r) year).
  { destruct Hr as [Hr|[Hnew ->]]; [apply IH, Hr|].
    cbn [BudgetRow.userId]. rewrite lastHours_absent; [destruct year; reflexivity|].
    intros Hin. rewrite <- distinct_In, <- (initialRows_userIds users) in Hin.
    apply existsb_eqb_In in Hin. rewrite <- groupedHas_In in Hin. congruence. }
  rewrite lastHours_snoc.
  destruct (yearOfKey (BudgetItem.year item)) as [yr|] eqn:Ey.
  - destruct (String.eqb (BudgetRow.userId r) (BudgetItem.userId item)) eqn:E.
    + rewrite applyEdit_year_userId, applyEdit_year_hours.
      rewrite String.eqb_sym, E, (yearOfKey_eqb _ yr year Ey). cbn [andb].
      destruct (Year_eqb yr year); [reflexivity|exact Hbase].
    + rewrite String.eqb_sym, E. exact Hbase.
  - rewrite (yearOfKey_none _ year Ey), andb_false_r. exact Hbase.
Qed.

(** ** Saving the budget rows *)

Lemma or_else_not_nan (x : Js.number) :
  PrimFloat.is_nan (Js.or_else x 0%float) = false.
Proof.
  unfold Js.or_else, Js.truthy.
  destruct (PrimFloat.is_nan x) eqn:E; cbn [orb negb]; [reflexivity|].
  destruct (PrimFloat.is_zero x); cbn [negb]; [reflexivity|exact E].
Qed.

Lemma saveItems_cons (row : BudgetRow.t) (rows : list BudgetRow.t) :
  saveItems (row :: rows)
  = (List.map
       (fun year =>
          SaveItem.mk (BudgetRow.userId row) (yearNumber year)
            (Js.or_else (yearHours row year) 0%float))
       all_years ++ saveItems rows)%list.
Proof. reflexivity. Qed.

(** X4. [saveMutation] posts five items per row, one per year 1..5 and in
    that order, each with the row's person and the row's hours of that
    year: the items of the row at position [i] sit at positions [5i] to
    [5i+4], the one of year [y] at [5i+y-1], and there are no others;
    hours that are NaN go out as 0, so no item carries NaN, and neither the
    rate override nor the edited title is part of what is saved. *)
Theorem save_items_shape (rows : list BudgetRow.t) :
  List.length (saveItems rows) = (5 * List.length rows)%nat
  /\ (forall (i : nat) (row : BudgetRow.t) (year : Year),
        nth_error rows i = Some row ->
        nth_error (saveItems rows) (5 * i + (Z.to_nat (yearNumber year) - 1))
        = Some (SaveItem.mk (BudgetRow.userId row) (yearNumber year)
                  (Js.or_else (yearHours row year) 0%float)))
  /\ (forall item : SaveItem.t,
        In item (saveItems rows) ->
        exists (row : BudgetRow.t) (year : Year),
          In row rows
          /\ SaveItem.userId item = BudgetRow.userId row
          /\ SaveItem.year item = yearNumber year
          /\ SaveItem.hours item = Js.or_else (yearHours row year) 0%float
          /\ PrimFloat.is_nan (SaveItem.hours item) = false).
Proof.
  split; [|split].
  - induction rows as [|row rows IH]; [reflexivity|].
    rewrite saveItems_cons, List.length_app, List.length_map, IH. cbn. lia.
  - induction rows as [|row rows IH]; intros i r year Hi.
    + destruct i; discriminate.
    + rewrite saveItems_cons. destruct i as [|i].
      * injection Hi as <-. destruct year; reflexivity.
      * cbn [nth_error] in Hi.
        replace (5 * S i + (Z.to_nat (yearNumber year) - 1))%nat
          with (5 + (5 * i + (Z.to_nat (yearNumber year) - 1)))%nat by lia.
        rewrite List.nth_error_app2 by (rewrite List.length_map; cbn; lia).
        rewrite List.length_map.
        replace (5 + (5 * i + (Z.to_nat (yearNumber year) - 1))
                 - List.length all_years)%nat
          with (5 * i + (Z.to_nat (yearNumber year) - 1))%nat by (cbn; lia).
        exact (IH i r year Hi).
  - intros item. unfold saveItems. rewrite List.in_flat_map.
    intros (row & Hrow & Hitem). apply List.in_map_iff in Hitem as (year & <- & _).
    exists row, year. cbn. repeat split; [exact Hrow|apply or_else_not_nan].
Qed.

Lemma map_unchanged {A : Type} (f : A -> A) (l : list A) :
  (forall x, In x l -> f x = x) -> List.map f l = l.
Proof.
  induction l as [|x l IH]; intros H; [reflexivity|].
  cbn. rewrite (H x (or_introl eq_refl)), IH; [reflexivity|].
  intros y Hy. apply H. right. exact Hy.
Qed.

Lemma groupedHas_false (grouped : list BudgetRow.t) (userId : string) :
  ~ In userId (List.map BudgetRow.userId grouped) ->
  groupedHas grouped userId = false.
Proof.
  intros H. rewrite groupedHas_In.
  destruct (List.existsb _ _) eqn:E; [|reflexivity].
  apply existsb_eqb_In in E. contradiction.
Qed.

Lemma initialStep_tail (users : list User.t) (grouped : list BudgetRow.t)
    (r : BudgetRow.t) (item : BudgetItem.t) (year : Year) :
  ~ In (BudgetItem.userId item) (List.map BudgetRow.userId grouped) ->
  BudgetRow.userId r = BudgetItem.userId item ->
  BudgetItem.year item = yearNumber year ->
  initialStep users (grouped ++ [r]) item
  = (grouped ++
     [applyEdit users r (EditYear year (Js.parseFloat (BudgetItem.hours item)))])%list.
Proof.
  intros Hg Hr Hy. unfold initialStep.
  assert (Hhas : groupedHas (grouped ++ [r]) (BudgetItem.userId item) = true).
  { rewrite groupedHas_In. apply existsb_eqb_In.
    rewrite List.map_app, List.in_app_iff. right. left. exact Hr. }
  rewrite Hhas, (proj2 (yearOfKey_yearNumber _ _) Hy), List.map_app.
  cbn [List.map]. rewrite Hr, String.eqb_refl. f_equal.
  apply map_unchanged. intros x Hx.
  destruct (String.eqb (BudgetRow.userId x) (BudgetItem.userId item)) eqn:E;
    [|reflexivity].
  apply String.eqb_eq in E. exfalso. apply Hg. rewrite <- E.
  apply List.in_map, Hx.
Qed.

Lemma initialStep_new (users : list User.t) (grouped : list BudgetRow.t)
    (item : BudgetItem.t) (year : Year) :
  ~ In (BudgetItem.userId item) (List.map BudgetRow.userId grouped) ->
  BudgetItem.year item = yearNumber year ->
  initialStep users grouped item
  = (grouped ++
     [applyEdit users
        (BudgetRow.mk (BudgetItem.id item) (BudgetItem.userId item)
           (titleOrEmpty (findUser users (BudgetItem.userId item))) None
           0%float 0%float 0%float 0%float 0%float)
        (EditYear year (Js.parseFloat (BudgetItem.hours item)))])%list.
Proof.
  intros Hg Hy. unfold initialStep.
  rewrite (groupedHas_false _ _ Hg), (proj2 (yearOfKey_yearNumber _ _) Hy).
  rewrite List.map_app. cbn [List.map BudgetRow.userId].
  rewrite String.eqb_refl. f_equal.
  apply map_unchanged. intros x Hx.
  destruct (String.eqb (BudgetRow.userId x) (BudgetItem.userId item)) eqn:E;
    [|reflexivity].
  apply String.eqb_eq in E. exfalso. apply Hg. rewrite <- E.
  apply List.in_map, Hx.
Qed.

Lemma reload_from (users : list User.t) (rows : list BudgetRow.t) :
  forall (stored : list BudgetItem.t) (grouped : list BudgetRow.t),
    List.Forall2 storedAs stored (saveItems rows) ->
    List.NoDup (List.map BudgetRow.userId rows) ->
    (forall r, In r rows ->
               ~ In (BudgetRow.userId r) (List.map BudgetRow.userId grouped)) ->
    exists rows',
      List.fold_left (initialStep users) stored grouped = (grouped ++ rows')%list
      /\ List.Forall2 (reloadedFrom users) rows' rows.
Proof.
  induction rows as [|row rows IH]; intros stored grouped Hst Hnd Hg.
  - inversion Hst; subst. exists []. split; [cbn; rewrite List.app_nil_r; reflexivity|].
    constructor.
  - cbn [saveItems List.flat_map all_years List.map List.app] in Hst.
    fold (saveItems rows) in Hst.
    inversion Hst as [|s1 i1 st1 l1 (U1 & Y1' & P1) H1]; subst; clear Hst.
    inversion H1 as [|s2 i2 st2 l2 (U2 & Y2' & P2) H2]; subst; clear H1.
    inversion H2 as [|s3 i3 st3 l3 (U3 & Y3' & P3) H3]; subst; clear H2.
    inversion H3 as [|s4 i4 st4 l4 (U4 & Y4' & P4) H4]; subst; clear H3.
    inversion H4 as [|s5 i5 st5 l5 (U5 & Y5' & P5) H5]; subst; clear H4.
    cbn [SaveItem.userId SaveItem.year SaveItem.hours] in *.
    assert (Hrow : ~ In (BudgetRow.userId row) (List.map BudgetRow.userId grouped))
      by (apply Hg; left; reflexivity).
    cbn [List.fold_left].
    rewrite (initialStep_new users grouped s1 Y1) by (rewrite ?U1; assumption).
    rewrite (initialStep_tail users grouped _ s2 Y2);
      [|rewrite U2; exact Hrow|rewrite applyEdit_year_userId; cbn; congruence
       |assumption].
    rewrite (initialStep_tail users grouped _ s3 Y3);
      [|rewrite U3; exact Hrow|rewrite !applyEdit_year_userId; cbn; congruence
       |assumption].
    rewrite (initialStep_tail users grouped _ s4 Y4);
      [|rewrite U4; exact Hrow|rewrite !applyEdit_year_userId; cbn; congruence
       |assumption].
    rewrite (initialStep_tail users grouped _ s5 Y5);
      [|rewrite U5; exact Hrow|rewrite !applyEdit_year_userId; cbn; congruence
       |assumption].
    cbn [List.map] in Hnd. apply List.NoDup_cons_iff in Hnd as [Hfresh Hnd].
    match goal with
    | |- context [List.fold_left _ st5 (grouped ++ [?r])%list] => set (row' := r)
    end.
    destruct (IH st5 (grouped ++ [row'])%list H5 Hnd) as (rows' & Hfold & Hall).
    { intros r Hr. rewrite List.map_app, List.in_app_iff. cbn [List.map In].
      intros [H|[H|[]]].
      - apply (Hg r); [right; exact Hr|exact H].
      - apply Hfresh. replace (BudgetRow.userId row) with (BudgetRow.userId r).
        + apply List.in_map, Hr.
        + rewrite <- H. subst row'. rewrite !applyEdit_year_userId. cbn. exact U1. }
    exists (row' :: rows'). split.
    + rewrite Hfold, <- List.app_assoc. reflexivity.
    + constructor; [|exact Hall]. subst row'. unfold reloadedFrom.
      rewrite !applyEdit_year_userId.
      destruct (applyEdit_year users
                  (BudgetRow.mk (BudgetItem.id s1) (BudgetItem.userId s1)
                     (titleOrEmpty (findUser users (BudgetItem.userId s1))) None
                     0%float 0%float 0%float 0%float 0%float)
                  Y1 (Js.parseFloat (BudgetItem.hours s1))) as (_ & _ & T1 & R1 & _).
      cbn [BudgetRow.userId].
      split; [exact U1|]. split; [reflexivity|]. split; [rewrite U1; reflexivity|].
      intros year. rewrite P1, P2, P3, P4, P5. destruct year; reflexivity.
Qed.

(** X5. Saving and reloading keeps the persons, their order and the hours
    (NaN hours come back as 0) but loses every rate override and every
    edited title: when no two rows share a person and the stored items
    come back in the order sent, with hours texts that parse to the numbers
    sent, each rebuilt row has the person of the row it came from, that
    row's hours, a null override and the person's own title. *)
Theorem save_then_reload (users : list User.t) (rows : list BudgetRow.t)
    (stored : list BudgetItem.t) :
  List.NoDup (List.map BudgetRow.userId rows) ->
  List.Forall2 storedAs stored (saveItems rows) ->
  List.Forall2 (reloadedFrom users) (initialRows users stored) rows.
Proof.
  intros Hnd Hst.
  destruct (reload_from users rows stored [] Hst Hnd) as (rows' & Hfold & Hall).
  { intros r _ []. }
  unfold initialRows. rewrite Hfold. exact Hall.
Qed.

(** ** Adding and removing rows *)

Lemma existsb_userId_In (rows : list BudgetRow.t) (u : User.t) :
  List.existsb (fun r => String.eqb (BudgetRow.userId r) (User.id u)) rows = true
  <-> In (User.id u) (List.map BudgetRow.userId rows).
Proof.
  rewrite List.existsb_exists, List.in_map_iff. split.
  - intros (r & Hr & E). apply String.eqb_eq in E. eauto.
  - intros (r & E & Hr). exists r. split; [exact Hr|].
    rewrite E. apply String.eqb_refl.
Qed.

Lemma NoDup_snoc {A : Type} (l : list A) (x : A) :
  List.NoDup l -> ~ In x l -> List.NoDup (l ++ [x]).
Proof.
  intros Hl Hx. induction l as [|y l IH]; cbn.
  - constructor; [intros []|constructor].
  - apply List.NoDup_cons_iff in Hl as [Hy Hl]. constructor.
    + rewrite List.in_app_iff. cbn. intros [H|[->|[]]]; [tauto|].
      apply Hx. left. reflexivity.
    + apply IH; [exact Hl|]. intros H. apply Hx. right. exact H.
Qed.

(** X6. [addRow] never gives a person a second row: it appends one row
    with zero hours and no override for the first team member who has no
    row yet, and changes nothing when every member has one (or there is no
    member); a sheet with one row per person stays so. *)
Theorem addRow_one_row_per_person (users : list User.t) (now : Z)
    (rows : list BudgetRow.t) :
  ((forall u, In u users -> In (User.id u) (List.map BudgetRow.userId rows)) ->
   addRow users now rows = rows)
  /\ ((exists u, In u users
                 /\ ~ In (User.id u) (List.map BudgetRow.userId rows)) ->
      exists u before after,
        users = (before ++ u :: after)%list
        /\ (forall v, In v before ->
                      In (User.id v) (List.map BudgetRow.userId rows))
        /\ ~ In (User.id u) (List.map BudgetRow.userId rows)
        /\ addRow users now rows
           = (rows ++
              [BudgetRow.mk now (User.id u) (Js.string_or_empty (User.title u))
                 None 0%float 0%float 0%float 0%float 0%float])%list)
  /\ (List.NoDup (List.map BudgetRow.userId rows) ->
      List.NoDup (List.map BudgetRow.userId (addRow users now rows))).
Proof.
  set (unused := fun u : User.t =>
                   negb (List.existsb
                           (fun r => String.eqb (BudgetRow.userId r) (User.id u))
                           rows)).
  assert (Hun : forall u, unused u = true
                          <-> ~ In (User.id u) (List.map BudgetRow.userId rows)).
  { intros u. unfold unused. rewrite negb_true_iff, <- existsb_userId_In.
    destruct (List.existsb _ rows); split; congruence. }
  assert (Hadd : addRow users now rows
                 = match List.filter unused users with
                   | [] => rows
                   | user :: _ =>
                       (rows ++
                        [BudgetRow.mk now (User.id user)
                           (Js.string_or_empty (User.title user)) None
                           0%float 0%float 0%float 0%float 0%float])%list
                   end).
  { unfold addRow. destruct users; reflexivity. }
  assert (Hsplit : forall us u rest,
             List.filter unused us = u :: rest ->
             exists before after,
               us = (before ++ u :: after)%list
               /\ (forall v, In v before -> unused v = false)
               /\ unused u = true).
  { induction us as [|v us IH]; intros u rest; [discriminate|].
    cbn [List.filter]. destruct (unused v) eqn:Ev.
    - intros [= -> _]. exists [], us. split; [reflexivity|].
      split; [intros ? []|exact Ev].
    - intros H. destruct (IH u rest H) as (before & after & -> & Hb & Hu).
      exists (v :: before), after. split; [reflexivity|].
      split; [|exact Hu]. intros w [<-|Hw]; [exact Ev|apply Hb, Hw]. }
  split; [|split].
  - intros Hall. rewrite Hadd.
    destruct (List.filter unused users) as [|u rest] eqn:Ef; [reflexivity|].
    assert (Hu : In u (List.filter unused users)) by (rewrite Ef; left; reflexivity).
    apply List.filter_In in Hu as [Hin Hu]. apply Hun in Hu.
    exfalso. apply Hu, Hall, Hin.
  - intros (u0 & Hin0 & Hu0). rewrite Hadd.
    destruct (List.filter unused users) as [|u rest] eqn:Ef.
    + exfalso. assert (In u0 (List.filter unused users)) as Hf.
      { apply List.filter_In. split; [exact Hin0|apply Hun, Hu0]. }
      rewrite Ef in Hf. destruct Hf.
    + destruct (Hsplit users u rest Ef) as (before & after & Hus & Hb & Hu).
      exists u, before, after. split; [exact Hus|].
      split; [|split; [apply Hun, Hu|reflexivity]].
      intros v Hv. specialize (Hb v Hv).
      destruct (List.existsb
                  (fun r => String.eqb (BudgetRow.userId r) (User.id v)) rows)
        eqn:E.
      * apply existsb_userId_In, E.
      * unfold unused in Hb. rewrite E in Hb. discriminate.
  - intros Hnd. rewrite Hadd.
    destruct (List.filter unused users) as [|u rest] eqn:Ef; [exact Hnd|].
    rewrite List.map_app. cbn [List.map BudgetRow.userId].
    apply NoDup_snoc; [exact Hnd|].
    assert (Hu : In u (List.filter unused users)) by (rewrite Ef; left; reflexivity).
    apply List.filter_In in Hu as [_ Hu]. apply Hun, Hu.
Qed.


(** ** Totals and the category tabs *)

Lemma fold_left_map_ext {A B : Type} (f : B -> A -> B) (g : A -> A)
    (l : list A) :
  (forall acc a, f acc (g a) = f acc a) ->
  forall acc, List.fold_left f (List.map g l) acc = List.fold_left f l acc.
Proof.
  intros H. induction l as [|a l IH]; intros acc; [reflexivity|].
  cbn. rewrite H. apply IH.
Qed.

Lemma applyEdit_title_hours (users : list User.t) (r : BudgetRow.t)
    (t : string) (y : Year) :
  yearHours (applyEdit users r (EditCustomTitle t)) y = yearHours r y.
Proof. destruct r, y; reflexivity. Qed.

Lemma calculateRowTotal_title (users : list User.t) (r : BudgetRow.t)
    (t : string) :
  calculateRowTotal users (applyEdit users r (EditCustomTitle t))
  = calculateRowTotal users r.
Proof. destruct r. reflexivity. Qed.

(** X8. Editing the title of a row moves it between category tabs but
    never changes money: every row total, every year total and the grand
    total are the same before and after the edit. *)
Theorem title_edit_keeps_totals (users : list User.t) (id : Z) (text : string)
    (rows : list BudgetRow.t) :
  List.map (calculateRowTotal users) (titleInputOnChange users id text rows)
  = List.map (calculateRowTotal users) rows
  /\ (forall year,
        calculateYearTotal users (titleInputOnChange users id text rows) year
        = calculateYearTotal users rows year)
  /\ grandTotal users (titleInputOnChange users id text rows)
     = grandTotal users rows.
Proof.
  unfold titleInputOnChange, updateRow. split; [|split].
  - rewrite List.map_map. apply List.map_ext. intros r.
    destruct (negb (BudgetRow.id r =? id)); [reflexivity|].
    apply calculateRowTotal_title.
  - intros year. unfold calculateYearTotal. apply fold_left_map_ext.
    intros acc r. destruct (negb (BudgetRow.id r =? id)); [reflexivity|].
    rewrite applyEdit_title_hours, getEffectiveRate_title_irrelevant.
    reflexivity.
  - unfold grandTotal. apply fold_left_map_ext.
    intros acc r. destruct (negb (BudgetRow.id r =? id)); [reflexivity|].
    rewrite calculateRowTotal_title. reflexivity.
Qed.

Lemma getRoleCategory_range (row : BudgetRow.t) :
  In (getRoleCategory row) role_categories.
Proof.
  unfold getRoleCategory, role_categories. split_ifs idtac; cbn; tauto.
Qed.

Lemma list_sum_map_add {A : Type} (f g : A -> nat) (l : list A) :
  List.list_sum (List.map (fun x => (f x + g x)%nat) l)
  = (List.list_sum (List.map f l) + List.list_sum (List.map g l))%nat.
Proof.
  unfold List.list_sum. induction l as [|x l IH]; [reflexivity|].
  cbn [List.map List.fold_right]. rewrite IH. lia.
Qed.

Lemma indicator_sum (k : string) (tabs : list string) :
  List.NoDup tabs ->
  List.list_sum
    (List.map (fun t => if String.eqb k t then 1%nat else 0%nat) tabs)
  = if List.existsb (String.eqb k) tabs then 1%nat else 0%nat.
Proof.
  induction 1 as [|t tabs Ht Hnd IH]; [reflexivity|].
  unfold List.list_sum in *. cbn [List.map List.fold_right List.existsb].
  rewrite IH.
  destruct (String.eqb k t) eqn:E; cbn [orb]; [|reflexivity].
  apply String.eqb_eq in E. subst t.
  destruct (List.existsb (String.eqb k) tabs) eqn:E'; [|reflexivity].
  apply existsb_eqb_In in E'. contradiction.
Qed.

(** The rows a value-keyed family of tabs shows add up to all the rows,
    when the tabs are distinct and every row's value has a tab. *)
Lemma tab_counts_add_up {A : Type} (key : A -> string) (tabs : list string)
    (l : list A) :
  List.NoDup tabs ->
  (forall a, In a l -> In (key a) tabs) ->
  List.list_sum
    (List.map
       (fun tab => List.length (List.filter (fun a => String.eqb (key a) tab) l))
       tabs)
  = List.length l.
Proof.
  intros Hnd. induction l as [|a l IH]; intros Hin.
  - clear. induction tabs as [|t tabs IHt]; [reflexivity|exact IHt].
  - specialize (IH (fun x Hx => Hin x (or_intror Hx))).
    specialize (Hin a (or_introl eq_refl)).
    rewrite (List.map_ext _
               (fun tab =>
                  ((if String.eqb (key a) tab then 1 else 0)
                   + List.length
                       (List.filter (fun x => String.eqb (key x) tab) l))%nat)).
    + rewrite list_sum_map_add, IH, (indicator_sum _ _ Hnd).
      rewrite (proj2 (existsb_eqb_In _ _) Hin). reflexivity.
    + intros tab. cbn [List.filter].
      destruct (String.eqb (key a) tab); reflexivity.
Qed.

(** X9. The category tabs split the rows: the tabs are distinct, each is
    one of the six categories and shows at least one row, a category tab
    shows exactly the rows of its category, the tab [all] shows every row,
    and the counts on the category tabs add up to the number of rows. *)
Theorem category_tabs_partition (rows : list BudgetRow.t) :
  List.NoDup (roleCategories rows)
  /\ (forall cat, In cat (roleCategories rows) ->
                  In cat role_categories /\ (0 < tabCount cat rows)%nat)
  /\ (forall cat r, cat <> "all" ->
                    (In r (filteredRows cat rows)
                     <-> In r rows /\ getRoleCategory r = cat))
  /\ filteredRows "all" rows = rows
  /\ List.list_sum (List.map (fun cat => tabCount cat rows) (roleCategories rows))
     = List.length rows.
Proof.
  assert (Hin : forall cat, In cat (roleCategories rows)
                            <-> exists r, In r rows /\ getRoleCategory r = cat).
  { intros cat. unfold roleCategories. rewrite distinct_In, List.in_map_iff.
    split; intros (r & H1 & H2); exists r; tauto. }
  split; [apply distinct_NoDup|]. split; [|split; [|split]].
  - intros cat Hcat. apply Hin in Hcat as (r & Hr & <-).
    split; [apply getRoleCategory_range|].
    unfold tabCount.
    assert (Hf : In r (List.filter
                         (fun x => String.eqb (getRoleCategory x) (getRoleCategory r))
                         rows)).
    { apply List.filter_In. split; [exact Hr|apply String.eqb_refl]. }
    destruct (List.filter _ rows); [destruct Hf|cbn; lia].
  - intros cat r Hcat. unfold filteredRows.
    destruct (String.eqb cat "all") eqn:E;
      [apply String.eqb_eq in E; contradiction|].
    rewrite List.filter_In, String.eqb_eq. reflexivity.
  - reflexivity.
  - unfold tabCount. apply (tab_counts_add_up getRoleCategory).
    + apply distinct_NoDup.
    + intros r Hr. apply Hin. exists r. tauto.
Qed.

(** ** Saving, creating and deleting sections *)

Lemma keepsLockAndAssignment_refl (s : ResponseSection.t) :
  keepsLockAndAssignment s s.
Proof. repeat split. Qed.

Lemma keepsLockAndAssignment_trans (s1 s2 s3 : ResponseSection.t) :
  keepsLockAndAssignment s1 s2 -> keepsLockAndAssignment s2 s3 ->
  keepsLockAndAssignment s1 s3.
Proof.
  intros (A1 & A2 & A3 & A4 & A5 & A6) (B1 & B2 & B3 & B4 & B5 & B6).
  repeat split; congruence.
Qed.

Lemma updateResponseSection_lookup (users : list User.t) (now sid : Z)
    (p : SectionPatch.t) (table : SectionTable) (id : Z) :
  fst (updateResponseSection users now sid p table) !! id
  = if Z.eqb sid id
       && (refersToUser users (SectionPatch.assignedUserId p)
           && refersToUser users (SectionPatch.lockedByPmId p))
    then setColumns now p <$> (table !! id) else table !! id.
Proof.
  unfold updateResponseSection.
  destruct (Z.eqb sid id) eqn:E; cbn [andb].
  - apply Z.eqb_eq in E. subst sid.
    destruct (table !! id) as [s|] eqn:Hs.
    + destruct (_ && _); cbn [fst]; [|exact Hs].
      rewrite lookup_insert_eq. reflexivity.
    + destruct (isInt4 id), (_ && _); cbn [fst]; rewrite Hs; reflexivity.
  - apply Z.eqb_neq in E.
    destruct (table !! sid) as [s|].
    + destruct (_ && _); cbn [fst]; [|reflexivity].
      rewrite lookup_insert_ne by exact E. reflexivity.
    + destruct (isInt4 sid); reflexivity.
Qed.

(** One update of the save loop: the row, when there is one, gets the
    title, content and order index sent; a key that matches no row is
    skipped, or refused when it is outside the range of the column. *)
Lemma saveFields_update (users : list User.t) (now : Z)
    (section : ResponseSection.t) (table : SectionTable) :
  updateResponseSection users now (ResponseSection.id section)
    (saveFields section) table
  = match table !! ResponseSection.id section with
    | Some s =>
        (<[ResponseSection.id section := setColumns now (saveFields section) s]>
           table,
         Returns (Some (setColumns now (saveFields section) s)))
    | None =>
        (table, if isInt4 (ResponseSection.id section) then Returns None
                else Throws)
    end.
Proof.
  unfold updateResponseSection.
  destruct (table !! ResponseSection.id section); [reflexivity|].
  destruct (isInt4 _); reflexivity.
Qed.

Lemma saveSections_app (users : list User.t) (now : Z)
    (before after : list ResponseSection.t) :
  forall table : SectionTable,
    saveSections users now (before ++ after) table
    = match saveSections users now before table with
      | (table', Returns _) => saveSections users now after table'
      | (table', Throws) => (table', Throws)
      end.
Proof.
  induction before as [|x before IH]; intros table; [reflexivity|].
  cbn [List.app saveSections].
  destruct (Z.eqb (ResponseSection.id x) 0); [apply IH|].
  destruct (updateResponseSection users now (ResponseSection.id x)
              (saveFields x) table) as [table' [r|]]; [apply IH|reflexivity].
Qed.

(** The save loop goes on from what it has written, or stops there. *)
Lemma patchResponse_snoc (users : list User.t) (now : Z)
    (sections : list ResponseSection.t) (section : ResponseSection.t)
    (table : SectionTable) :
  patchResponse users now (sections ++ [section]) table
  = patchResponse users now sections table
  \/ patchResponse users now (sections ++ [section]) table
     = fst (updateResponseSection users now (ResponseSection.id section)
              (saveFields section) (patchResponse users now sections table)).
Proof.
  unfold patchResponse. rewrite saveSections_app.
  destruct (saveSections users now sections table) as [table' [r|]];
    [|left; reflexivity].
  cbn [saveSections fst].
  destruct (Z.eqb (ResponseSection.id section) 0); [left; reflexivity|].
  right.
  destruct (updateResponseSection users now (ResponseSection.id section)
              (saveFields section) table') as [table'' [r'|]]; reflexivity.
Qed.

Lemma patchResponse_lookup (users : list User.t) (now : Z)
    (sections : list ResponseSection.t) (table : SectionTable) (id : Z) :
  match table !! id with
  | Some s =>
      exists s', patchResponse users now sections table !! id = Some s'
                 /\ keepsLockAndAssignment s s'
  | None => patchResponse users now sections table !! id = None
  end.
Proof.
  induction sections as [|x sections IH] using List.rev_ind.
  - cbn. destruct (table !! id) as [s|]; [|reflexivity].
    exists s. split; [reflexivity|]. apply keepsLockAndAssignment_refl.
  - destruct (patchResponse_snoc users now sections x table) as [-> | ->];
      [exact IH|].
    rewrite updateResponseSection_lookup.
    destruct (Z.eqb (ResponseSection.id x) id && _); [|exact IH].
    destruct (table !! id) as [s|].
    + destruct IH as (s' & -> & K). eexists. split; [reflexivity|].
      apply (keepsLockAndAssignment_trans _ _ _ K). repeat split.
    + rewrite IH. reflexivity.
Qed.

(** X10. Save never changes who holds a lock, whether a section is locked,
    or whom it is assigned to, whatever sections the editor sends and
    wherever the loop stops: a stored section keeps its id, response,
    assignment, lock flag, lock holder and creation time, and no section
    is created or deleted by a save. *)
Theorem save_keeps_lock_and_assignment (users : list User.t) (now : Z)
    (sections : list ResponseSection.t) (table : SectionTable) (id : Z) :
  match table !! id with
  | Some s =>
      exists s', patchResponse users now sections table !! id = Some s'
                 /\ keepsLockAndAssignment s s'
                 /\ (lockConsistent s -> lockConsistent s')
  | None => patchResponse users now sections table !! id = None
  end.
Proof.
  pose proof (patchResponse_lookup users now sections table id) as H.
  destruct (table !! id) as [s|]; [|exact H].
  destruct H as (s' & Hs' & K). exists s'. split; [exact Hs'|]. split; [exact K|].
  destruct K as (_ & _ & _ & K4 & K5 & _).
  unfold lockConsistent. rewrite K4, K5. tauto.
Qed.

Lemma patchResponse_unstored (users : list User.t) (now : Z)
    (sections : list ResponseSection.t) (table : SectionTable) :
  List.Forall (fun s => table !! ResponseSection.id s = None) sections ->
  patchResponse users now sections table = table.
Proof.
  induction sections as [|x sections IH] using List.rev_ind; [reflexivity|].
  intros H. apply List.Forall_app in H as [Hs Hx].
  apply List.Forall_inv in Hx.
  destruct (patchResponse_snoc users now sections x table) as [-> | ->];
    rewrite (IH Hs); [reflexivity|].
  rewrite saveFields_update, Hx. reflexivity.
Qed.

(** X11. A section made in the browser, from a template or an uploaded
    file, is not stored by Save: its id is the clock reading, and when the
    table holds no row under that id the save writes exactly what it would
    have written without the new section. *)
Theorem save_skips_local_sections (users : list User.t) (now saveTime : Z)
    (responseId : option Z) (template : Template.t)
    (file : option UploadedFile.t) (sections : list ResponseSection.t)
    (table : SectionTable) :
  table !! now = None ->
  patchResponse users saveTime (loadTemplate now responseId template sections)
    table
  = patchResponse users saveTime sections table
  /\ patchResponse users saveTime
       (handleFileUpload now responseId file sections) table
     = patchResponse users saveTime sections table
  /\ patchResponse users saveTime
       (loadTemplate now responseId template []) table = table.
Proof.
  intros Hnow.
  assert (Hskip : forall title content,
             patchResponse users saveTime
               (sections ++ [localSection now responseId title content sections])
               table
             = patchResponse users saveTime sections table).
  { intros title content.
    destruct (patchResponse_snoc users saveTime sections
                (localSection now responseId title content sections) table)
      as [-> | ->]; [reflexivity|].
    rewrite saveFields_update. cbn [localSection ResponseSection.id].
    pose proof (patchResponse_lookup users saveTime sections table now) as H.
    rewrite Hnow in H. rewrite H. reflexivity. }
  split; [apply Hskip|]. split.
  - unfold handleFileUpload. destruct file as [f|]; [|reflexivity].
    destruct (_ || _); [apply Hskip|].
    destruct (_ || _); [apply Hskip|reflexivity].
  - apply patchResponse_unstored. constructor; [exact Hnow|constructor].
Qed.

(** ** The section table under the editor's requests *)

Lemma patchResponseSection_table (users : list User.t) (now id : Z)
    (body : SectionPatch.t) (table : SectionTable) :
  fst (patchResponseSection users now id body table)
  = fst (updateResponseSection users now id body table).
Proof.
  unfold patchResponseSection.
  destruct (updateResponseSection users now id body table) as [t [[s|]|]];
    reflexivity.
Qed.

Lemma patchResponseSection_absent (users : list User.t) (now id : Z)
    (body : SectionPatch.t) (table : SectionTable) :
  table !! id = None ->
  patchResponseSection users now id body table
  = (table, if isInt4 id then NotFound404 else ServerError500).
Proof.
  intros H. unfold patchResponseSection, updateResponseSection.
  rewrite H. destruct (isInt4 id); reflexivity.
Qed.

Lemma serve_lookup_patch (users : list User.t) (now sid : Z)
    (body : SectionPatch.t) (table : SectionTable) (id : Z)
    (section : ResponseSection.t) :
  fst (patchResponseSection users now sid body table) !! id = Some section ->
  exists old, table !! id = Some old
              /\ (section = old \/ section = setColumns now body old).
Proof.
  rewrite patchResponseSection_table, updateResponseSection_lookup.
  destruct (Z.eqb sid id && _).
  - destruct (table !! id) as [old|]; cbn; [|discriminate].
    intros [= <-]. exists old. split; [reflexivity|right; reflexivity].
  - intros H. exists section. split; [exact H|left; reflexivity].
Qed.

Lemma wellFormedDb_serve (users : list User.t) (now : Z) (db : Db.t)
    (request : EditorRequest) :
  wellFormedDb db -> wellFormedDb (serve users now db request).
Proof.
  intros WF id section. destruct request as [u sid b|sid uid|body|rid title oi|sid];
    cbn [serve Db.sections Db.nextSectionId].
  - unfold toggleLockMutation. intros H.
    apply serve_lookup_patch in H as (old & Hold & [->| ->]);
      destruct (WF id old Hold) as (Hid & Hlt & Hlock).
    + repeat split; try assumption; apply Hlock.
    + split; [exact Hid|]. split; [exact Hlt|].
      unfold lockConsistent. cbn. destruct b; cbn; split; congruence.
  - unfold assignUserMutation. intros H.
    apply serve_lookup_patch in H as (old & Hold & [->| ->]);
      destruct (WF id old Hold) as (Hid & Hlt & Hlock).
    + repeat split; try assumption; apply Hlock.
    + split; [exact Hid|]. split; [exact Hlt|]. exact Hlock.
  - intros H.
    pose proof (patchResponse_lookup users now body (Db.sections db) id) as P.
    destruct (Db.sections db !! id) as [old|] eqn:Hold; [|congruence].
    destruct P as (s' & Hs' & K1 & _ & _ & K4 & K5 & _).
    rewrite Hs' in H. injection H as <-.
    destruct (WF id old Hold) as (Hid & Hlt & Hlock).
    split; [congruence|]. split; [exact Hlt|].
    unfold lockConsistent. rewrite K4, K5. exact Hlock.
  - unfold postSection, createResponseSection.
    cbn [fst Db.sections Db.nextSectionId]. intros H.
    apply lookup_insert_Some in H as [[<- <-]|[Hne H]].
    + cbn. split; [reflexivity|]. split; [lia|].
      unfold lockConsistent. cbn. split; [discriminate|congruence].
    + destruct (WF id section H) as (Hid & Hlt & Hlock).
      split; [exact Hid|]. split; [lia|exact Hlock].
  - unfold deleteResponseSection. intros H.
    apply lookup_delete_Some in H as [_ H]. exact (WF id section H).
Qed.

(** X12. The editor's requests keep the section table well formed: after
    any run of lock toggles, assignments, saves, new sections and
    deletions, every stored section sits under its own id, ids stay below
    the next serial key, and a section is locked exactly when it has a lock
    holder. *)
Theorem editor_requests_keep_table_well_formed (users : list User.t)
    (requests : list (Z * EditorRequest)) (db : Db.t) :
  wellFormedDb db -> wellFormedDb (serveAll users requests db).
Proof.
  revert db. unfold serveAll.
  induction requests as [|[now request] requests IH]; intros db WF; [exact WF|].
  cbn [List.fold_left fst snd]. apply IH, wellFormedDb_serve, WF.
Qed.


(** X14. A deleted section is gone for every later request: the lock
    toggle and the assignment answer 404 (500 for an id outside the range
    of the key, which no stored section has) and write nothing, a save
    that still lists the section writes nothing for it (and, for an id
    outside the range, nothing at all), the other sections are untouched,
    and deleting an id that is not stored changes nothing. *)
Theorem deleted_section_is_gone (users : list User.t) (id : Z)
    (table : SectionTable) :
  let table' := deleteResponseSection id table in
  table' !! id = None
  /\ (forall id', id' <> id -> table' !! id' = table !! id')
  /\ (forall actor now isLocked,
        toggleLockMutation actor users now id isLocked table'
        = (table', if isInt4 id then NotFound404 else ServerError500))
  /\ (forall now userId,
        assignUserMutation users now id userId table'
        = (table', if isInt4 id then NotFound404 else ServerError500))
  /\ (forall now section sections,
        ResponseSection.id section = id ->
        patchResponse users now (section :: sections) table'
        = if isInt4 id then patchResponse users now sections table' else table')
  /\ (table !! id = None -> table' = table)
  /\ deleteResponseSection id table' = table'.
Proof.
  cbn zeta. unfold deleteResponseSection.
  assert (Hgone : delete id table !! id = None) by apply lookup_delete_eq.
  split; [exact Hgone|].
  split; [intros id' Hne; apply lookup_delete_ne; congruence|].
  split; [intros; apply patchResponseSection_absent, Hgone|].
  split; [intros; apply patchResponseSection_absent, Hgone|].
  split.
  { intros now section sections <-. unfold patchResponse.
    cbn [saveSections].
    destruct (Z.eqb (ResponseSection.id section) 0) eqn:E.
    - apply Z.eqb_eq in E. rewrite E. reflexivity.
    - rewrite saveFields_update, Hgone.
      destruct (isInt4 (ResponseSection.id section)); reflexivity. }
  split; [intros H; apply delete_id, H|].
  apply delete_id, Hgone.
Qed.

(** X15. Any manager can release any lock: when a stored section is
    locked, by whomever, a click on its lock button by a manager stores the
    section unlocked and without a holder, with its assignment unchanged,
    so that its assignee can edit it again. *)
Theorem any_manager_can_unlock (users : list User.t) (manager : string)
    (now : Z) (section : ResponseSection.t) (table : SectionTable) :
  table !! ResponseSection.id section = Some section ->
  Js.truthy_bool (ResponseSection.isLocked section) = true ->
  exists table' section',
    lockButtonClick manager true users now section table
    = Some (table', Json section')
    /\ table' !! ResponseSection.id section = Some section'
    /\ ResponseSection.isLocked section' = Some false
    /\ ResponseSection.lockedByPmId section' = None
    /\ ResponseSection.assignedUserId section'
       = ResponseSection.assignedUserId section
    /\ (forall assignee,
          ResponseSection.assignedUserId section = Some assignee ->
          canEdit assignee false section = false
          /\ canEdit assignee false section' = true).
Proof.
  intros Hs Hl.
  unfold lockButtonClick, toggleLockMutation, patchResponseSection,
    updateResponseSection.
  rewrite Hs, Hl. cbn [negb].
  eexists. eexists. split; [reflexivity|].
  split; [apply lookup_insert_eq|].
  split; [reflexivity|]. split; [reflexivity|]. split; [reflexivity|].
  intros assignee Ha. unfold canEdit. cbn.
  rewrite Hl, Ha. cbn. rewrite String.eqb_refl. split; reflexivity.
Qed.

(** ** Uploaded files *)

Lemma substring_all (s : string) : String.substring 0 (String.length s) s = s.
Proof. induction s as [|c s IH]; [reflexivity|]. cbn. rewrite IH. reflexivity. Qed.

Lemma substring_app_r (a b : string) :
  String.substring (String.length a) (String.length b) (a ++ b) = b.
Proof. induction a as [|c a IH]; [apply substring_all|exact IH]. Qed.

Lemma string_length_app (a b : string) :
  String.length (a ++ b) = (String.length a + String.length b)%nat.
Proof.
  induction a as [|c a IH]; [reflexivity|].
  change (S (String.length (a ++ b))
          = S (String.length a + String.length b)%nat).
  f_equal. exact IH.
Qed.

Lemma endsWith_app (a suffix : string) : endsWith (a ++ suffix) suffix = true.
Proof.
  unfold endsWith. rewrite string_length_app.
  replace (String.length a + String.length suffix - String.length suffix)%nat
    with (String.length a) by lia.
  rewrite substring_app_r, String.eqb_refl, andb_true_r.
  apply Nat.leb_le. lia.
Qed.

Lemma substring_split (s : string) :
  forall n k, (n + k)%nat = String.length s ->
              s = String.substring 0 n s ++ String.substring n k s.
Proof.
  induction s as [|c s IH]; intros n k H.
  - destruct n; destruct k; try discriminate; reflexivity.
  - destruct n as [|n].
    + cbn in H. subst k.
      change (String c s = String.substring 0 (String.length (String c s)) (String c s)).
      symmetry. apply substring_all.
    + cbn in H. injection H as H.
      change (String c s
              = String c (String.substring 0 n s ++ String.substring n k s)).
      f_equal. exact (IH n k H).
Qed.

Lemma endsWith_inv (s suffix : string) :
  endsWith s suffix = true -> exists a, s = a ++ suffix.
Proof.
  unfold endsWith. intros H. apply andb_true_iff in H as [Hle Heq].
  apply Nat.leb_le in Hle. apply String.eqb_eq in Heq.
  exists (String.substring 0 (String.length s - String.length suffix) s).
  pose proof (substring_split s (String.length s - String.length suffix)
                (String.length suffix)) as H.
  rewrite Heq in H. apply H. lia.
Qed.

Lemma hasDot_app (a b : string) : hasDot (a ++ b) = hasDot a || hasDot b.
Proof.
  induction a as [|c a IH]; [reflexivity|].
  change (Ascii.eqb c "." || hasDot (a ++ b)
          = (Ascii.eqb c "." || hasDot a) || hasDot b).
  rewrite IH, orb_assoc. reflexivity.
Qed.

Lemma stripExtension_app (base ext : string) :
  ext <> EmptyString -> hasDot ext = false ->
  stripExtension (base ++ "." ++ ext) = base.
Proof.
  intros Hne Hnd. induction base as [|c base IH].
  - change (stripExtension (String "." ext) = EmptyString).
    cbn [stripExtension]. rewrite Hnd, Ascii.eqb_refl.
    destruct ext; [contradiction|reflexivity].
  - change (stripExtension (String c (base ++ "." ++ ext)) = String c base).
    cbn [stripExtension]. rewrite hasDot_app.
    change (hasDot ("." ++ ext)) with (Ascii.eqb "." "." || hasDot ext).
    rewrite Ascii.eqb_refl, orb_true_r. cbn [orb negb].
    rewrite andb_false_r. cbn [andb]. rewrite IH. reflexivity.
Qed.

Lemma stripExtension_no_dot (s : string) :
  hasDot s = false -> stripExtension s = s.
Proof.
  induction s as [|c s IH]; [reflexivity|]. cbn. intros H.
  apply orb_false_iff in H as [Hc Hs]. rewrite Hc. cbn. rewrite (IH Hs). reflexivity.
Qed.

(** X16. An upload is accepted by its name or its MIME type and titled by
    its name without the extension: a file named [base.pdf], [base.docx] or
    [base.doc], of any MIME type, appends one unassigned, unlocked section
    titled [base] after the existing ones; a file of type application/pdf
    whose name has no dot is titled by its whole name; and a file that is
    neither of type application/pdf nor named with one of the three
    extensions leaves the sections as they are. *)
Theorem upload_accepts_by_name_or_type (now : Z) (responseId : option Z)
    (sections : list ResponseSection.t) :
  (forall base ext type,
      In ext ["pdf"; "docx"; "doc"] ->
      exists content,
        handleFileUpload now responseId
          (Some (UploadedFile.mk (base ++ "." ++ ext) type)) sections
        = (sections ++ [localSection now responseId base content sections])%list)
  /\ (forall name,
        hasDot name = false ->
        exists content,
          handleFileUpload now responseId
            (Some (UploadedFile.mk name "application/pdf")) sections
          = (sections ++ [localSection now responseId name content sections])%list)
  /\ (forall file,
        UploadedFile.type file <> "application/pdf" ->
        (forall base ext, In ext ["pdf"; "docx"; "doc"] ->
                          UploadedFile.name file <> base ++ "." ++ ext) ->
        handleFileUpload now responseId (Some file) sections = sections)
  /\ handleFileUpload now responseId None sections = sections.
Proof.
  split; [|split; [|split; [|reflexivity]]].
  - intros base ext type Hext. unfold handleFileUpload.
    cbn [UploadedFile.name UploadedFile.type].
    assert (Hstrip : stripExtension (base ++ "." ++ ext) = base).
    { apply stripExtension_app;
        destruct Hext as [<-|[<-|[<-|[]]]]; (discriminate || reflexivity). }
    assert (Hend : endsWith (base ++ "." ++ ext) ".pdf"
                   || (endsWith (base ++ "." ++ ext) ".docx"
                       || endsWith (base ++ "." ++ ext) ".doc") = true).
    { destruct Hext as [<-|[<-|[<-|[]]]].
      - replace (endsWith (base ++ "." ++ "pdf") ".pdf") with true
          by (symmetry; exact (endsWith_app base ".pdf")).
        reflexivity.
      - replace (endsWith (base ++ "." ++ "docx") ".docx") with true
          by (symmetry; exact (endsWith_app base ".docx")).
        apply orb_true_r.
      - replace (endsWith (base ++ "." ++ "doc") ".doc") with true
          by (symmetry; exact (endsWith_app base ".doc")).
        rewrite !orb_true_r. reflexivity. }
    rewrite Hstrip.
    destruct (String.eqb type "application/pdf"); cbn [orb];
      [eexists; reflexivity|].
    destruct (endsWith (base ++ "." ++ ext) ".pdf"); [eexists; reflexivity|].
    cbn [orb] in Hend. rewrite Hend. eexists. reflexivity.
  - intros name Hnd. unfold handleFileUpload.
    cbn [UploadedFile.name UploadedFile.type]. rewrite String.eqb_refl. cbn [orb].
    rewrite (stripExtension_no_dot name Hnd). eexists. reflexivity.
  - intros file Htype Hname. unfold handleFileUpload.
    assert (Hno : forall ext, In ext ["pdf"; "docx"; "doc"] ->
                              endsWith (UploadedFile.name file) ("." ++ ext) = false).
    { intros ext Hext. destruct (endsWith _ _) eqn:E; [|reflexivity].
      apply endsWith_inv in E as [a Ha]. exfalso. exact (Hname a ext Hext Ha). }
    apply String.eqb_neq in Htype. rewrite Htype. cbn [orb].
    replace (endsWith (UploadedFile.name file) ".pdf") with false
      by (symmetry; apply (Hno "pdf"); cbn; tauto).
    replace (endsWith (UploadedFile.name file) ".docx") with false
      by (symmetry; apply (Hno "docx"); cbn; tauto).
    replace (endsWith (UploadedFile.name file) ".doc") with false
      by (symmetry; apply (Hno "doc"); cbn; tauto).
    reflexivity.
Qed.

(** ** Searching RFPs *)

Lemma includes_empty (s : string) : Js.includes s EmptyString = true.
Proof. destruct s; reflexivity. Qed.

Lemma lower_ascii_idem (c : ascii) :
  Js.lower_ascii (Js.lower_ascii c) = Js.lower_ascii c.
Proof.
  destruct c as [[] [] [] [] [] [] [] []]; vm_compute; reflexivity.
Qed.

Lemma toLowerCase_idem (s : string) :
  Js.toLowerCase (Js.toLowerCase s) = Js.toLowerCase s.
Proof.
  induction s as [|c s IH]; [reflexivity|].
  cbn [Js.toLowerCase]. rewrite lower_ascii_idem, IH. reflexivity.
Qed.

Lemma toLowerCase_app (a b : string) :
  Js.toLowerCase (a ++ b) = Js.toLowerCase a ++ Js.toLowerCase b.
Proof.
  induction a as [|c a IH]; [reflexivity|].
  change (String (Js.lower_ascii c) (Js.toLowerCase (a ++ b))
          = String (Js.lower_ascii c) (Js.toLowerCase a ++ Js.toLowerCase b)).
  rewrite IH. reflexivity.
Qed.

Lemma truthy_lower (s : option string) :
  Js.truthy_string (option_map Js.toLowerCase s) = Js.truthy_string s.
Proof. destruct s as [[|c s]|]; reflexivity. Qed.

Lemma or_empty_lower (s : option string) :
  Js.string_or_empty (option_map Js.toLowerCase s)
  = Js.toLowerCase (Js.string_or_empty s).
Proof. destruct s; reflexivity. Qed.

Lemma splitOn_nonempty (sep : ascii) (s : string) : splitOn sep s <> [].
Proof.
  destruct s as [|c s]; cbn [splitOn]; [discriminate|].
  destruct (Ascii.eqb c sep); [discriminate|].
  destruct (splitOn sep s); discriminate.
Qed.

Lemma splitOn_snoc (sep : ascii) (s : string) :
  splitOn sep (s ++ String sep EmptyString)
  = (splitOn sep s ++ [EmptyString])%list.
Proof.
  induction s as [|c s IH].
  - change (splitOn sep (String sep EmptyString) = [EmptyString; EmptyString]).
    cbn [splitOn]. rewrite Ascii.eqb_refl. reflexivity.
  - change (splitOn sep (String c (s ++ String sep EmptyString))
            = (splitOn sep (String c s) ++ [EmptyString])%list).
    cbn [splitOn]. rewrite IH.
    destruct (Ascii.eqb c sep); [reflexivity|].
    destruct (splitOn sep s) eqn:E; [|reflexivity].
    exfalso. exact (splitOn_nonempty sep s E).
Qed.

Lemma hasKeyword_blank (keywords : string) (rfp : Rfp.t) :
  In EmptyString (searchKeywords keywords) -> hasKeyword keywords rfp = true.
Proof.
  intros H. unfold hasKeyword. apply List.existsb_exists.
  exists EmptyString. split; [exact H|].
  rewrite includes_empty. apply orb_true_r.
Qed.

Lemma hasKeyword_lower (keywords : string) (rfp : Rfp.t) :
  hasKeyword (Js.toLowerCase keywords) rfp = hasKeyword keywords rfp.
Proof. unfold hasKeyword, searchKeywords. rewrite toLowerCase_idem. reflexivity. Qed.

Lemma consultantUserIds_lower (allUsers : list User.t) (f : SearchFilters.t) :
  consultantUserIds allUsers (lowerFilters f) = consultantUserIds allUsers f.
Proof.
  unfold consultantUserIds, lowerFilters. cbn [SearchFilters.consultant].
  rewrite truthy_lower, or_empty_lower, toLowerCase_idem. reflexivity.
Qed.

Section SearchProperties.

Variable allRfps : list Rfp.t.
Variable allUsers : list User.t.
Variable getResponseByRfp : Z -> option (list ResponseSection.t).

(** X17. Without filters the search returns every RFP, in the order of the
    table; with filters it returns some of them, and dropping filters never
    loses a result. *)
Theorem search_filters_only_narrow :
  (forall f, noFilters f ->
             searchRfps allRfps allUsers getResponseByRfp f = allRfps)
  /\ (forall f rfp,
        In rfp (searchRfps allRfps allUsers getResponseByRfp f) ->
        In rfp allRfps)
  /\ (forall f g rfp,
        dropsFilters f g ->
        In rfp (searchRfps allRfps allUsers getResponseByRfp f) ->
        In rfp (searchRfps allRfps allUsers getResponseByRfp g)).
Proof.
  split; [|split].
  - intros f (Ht & Hk & Hc & Hs & Hst). unfold searchRfps.
    rewrite <- (List.filter_true allRfps) at 2.
    apply List.filter_ext. intros rfp; cbn beta. unfold keepRfp.
    rewrite Ht, Hk, Hc, Hst. cbn.
    destruct Hs as [-> | ->]; reflexivity.
  - intros f rfp H. apply List.filter_In in H. apply H.
  - intros f g rfp (Dt & Dk & Dc & Ds & Dst) H. unfold searchRfps in *.
    apply List.filter_In in H as [Hin Hkeep]. apply List.filter_In.
    split; [exact Hin|]. unfold keepRfp in *.
    apply andb_true_iff in Hkeep as [Hkeep H5].
    apply andb_true_iff in Hkeep as [Hkeep H4].
    apply andb_true_iff in Hkeep as [Hkeep H3].
    apply andb_true_iff in Hkeep as [H1 H2].
    repeat (apply andb_true_iff; split).
    + destruct Dt as [-> | ->]; [reflexivity|exact H1].
    + destruct Ds as [-> | ->]; [reflexivity|exact H2].
    + destruct Dst as [-> | ->]; [reflexivity|exact H3].
    + destruct Dk as [-> | ->]; [reflexivity|exact H4].
    + destruct Dc as [Dc | Dc].
      * rewrite Dc. reflexivity.
      * unfold consultantUserIds in *. rewrite Dc. exact H5.
Qed.

(** X18. A consultant term that matches no user is ignored, not answered
    with an empty result: when no user's name or e-mail holds the term,
    the search returns what it returns without the consultant filter. *)
Theorem unknown_consultant_is_ignored (f : SearchFilters.t) :
  consultantUserIds allUsers f = [] ->
  searchRfps allRfps allUsers getResponseByRfp f
  = searchRfps allRfps allUsers getResponseByRfp (withoutConsultant f).
Proof.
  intros H. unfold searchRfps. apply List.filter_ext. intros rfp.
  unfold keepRfp. rewrite H. cbn [List.length Nat.ltb Nat.leb].
  rewrite andb_false_r. reflexivity.
Qed.

(** X19. A keywords filter with an empty element filters nothing: with a
    trailing or a leading comma the empty keyword occurs in every title,
    so the search returns what it returns without the keywords filter. *)
Theorem blank_keyword_matches_every_rfp (f : SearchFilters.t) (k : string) :
  searchRfps allRfps allUsers getResponseByRfp
    (withKeywords f (Some (k ++ ",")))
  = searchRfps allRfps allUsers getResponseByRfp (withKeywords f None)
  /\ searchRfps allRfps allUsers getResponseByRfp
       (withKeywords f (Some ("," ++ k)))
     = searchRfps allRfps allUsers getResponseByRfp (withKeywords f None).
Proof.
  assert (Hgen : forall keywords,
             In EmptyString (searchKeywords keywords) ->
             searchRfps allRfps allUsers getResponseByRfp
               (withKeywords f (Some keywords))
             = searchRfps allRfps allUsers getResponseByRfp (withKeywords f None)).
  { intros keywords Hin. unfold searchRfps. apply List.filter_ext. intros rfp.
    unfold keepRfp, withKeywords, consultantUserIds.
    cbn [SearchFilters.title SearchFilters.keywords SearchFilters.consultant
         SearchFilters.source SearchFilters.state Js.string_or_empty].
    rewrite (hasKeyword_blank keywords rfp Hin).
    destruct (Js.truthy_string (Some keywords)); reflexivity. }
  split; apply Hgen; unfold searchKeywords.
  - rewrite toLowerCase_app.
    change (Js.toLowerCase ",") with (String "," EmptyString).
    rewrite splitOn_snoc, List.map_app. apply List.in_or_app. right. left.
    reflexivity.
  - change ("," ++ k) with (String "," k). cbn [Js.toLowerCase].
    change (Js.lower_ascii ",") with ","%char. cbn [splitOn].
    rewrite Ascii.eqb_refl. left. reflexivity.
Qed.

(** X20. The search ignores the case of the title, keywords, consultant
    and state terms: putting them in lower case does not change the
    result.  (The source is compared exactly.) *)
Theorem search_ignores_case_of_terms (f : SearchFilters.t) :
  searchRfps allRfps allUsers getResponseByRfp (lowerFilters f)
  = searchRfps allRfps allUsers getResponseByRfp f.
Proof.
  unfold searchRfps. apply List.filter_ext. intros rfp. unfold keepRfp.
  rewrite consultantUserIds_lower. unfold lowerFilters.
  cbn [SearchFilters.title SearchFilters.keywords SearchFilters.consultant
       SearchFilters.source SearchFilters.state].
  rewrite !truthy_lower, !or_empty_lower, !toLowerCase_idem, hasKeyword_lower.
  reflexivity.
Qed.

End SearchProperties.

Lemma patchResponse_lookup_other (users : list User.t) (now : Z)
    (sections : list ResponseSection.t) (id : Z) :
  (forall s, In s sections -> ResponseSection.id s <> id) ->
  forall table : SectionTable,
    patchResponse users now sections table !! id = table !! id.
Proof.
  induction sections as [|x sections IH] using List.rev_ind; intros H table;
    [reflexivity|].
  assert (Hs : forall s, In s sections -> ResponseSection.id s <> id).
  { intros s Hin. apply H, List.in_or_app. left. exact Hin. }
  destruct (patchResponse_snoc users now sections x table) as [-> | ->];
    [apply IH, Hs|].
  rewrite updateResponseSection_lookup.
  assert (Hx : ResponseSection.id x <> id).
  { apply H, List.in_or_app. right. left. reflexivity. }
  apply Z.eqb_neq in Hx. rewrite Hx. apply IH, Hs.
Qed.

Lemma patchResponse_app (users : list User.t) (now : Z)
    (before after : list ResponseSection.t) (table : SectionTable) :
  snd (saveSections users now before table) = Returns tt ->
  patchResponse users now (before ++ after) table
  = patchResponse users now after (patchResponse users now before table).
Proof.
  unfold patchResponse. rewrite saveSections_app.
  destruct (saveSections users now before table) as [table' [[]|]];
    [reflexivity|discriminate].
Qed.

(** The loop runs to its end when every key is within the range of the
    column. *)
Lemma saveSections_returns (users : list User.t) (now : Z)
    (sections : list ResponseSection.t) :
  List.Forall (fun s => isInt4 (ResponseSection.id s) = true) sections ->
  forall table : SectionTable,
    snd (saveSections users now sections table) = Returns tt.
Proof.
  induction 1 as [|x sections Hx _ IH]; intros table; [reflexivity|].
  cbn [saveSections].
  destruct (Z.eqb (ResponseSection.id x) 0); [apply IH|].
  rewrite saveFields_update, Hx.
  destruct (table !! ResponseSection.id x); apply IH.
Qed.

(** X21. The save route writes whatever the lock says.  When the sections
    listed before it have ids within the range of the key, and no section
    listed after it has its id, a listed section that is stored gets the
    title, content and order index sent, whether it is locked or not and
    whoever holds the lock; its lock and assignment stay as they were.
    After a section whose id is outside the range and matches no row, as
    the ids of sections made in the browser are, nothing more is
    written. *)
Theorem save_writes_locked_sections (users : list User.t) (now : Z)
    (before after : list ResponseSection.t) (section old : ResponseSection.t)
    (table : SectionTable) :
  List.Forall (fun s => isInt4 (ResponseSection.id s) = true) before ->
  (forall s, In s after -> ResponseSection.id s <> ResponseSection.id section) ->
  ResponseSection.id section <> 0 ->
  table !! ResponseSection.id section = Some old ->
  (exists stored,
     patchResponse users now (before ++ section :: after) table
     !! ResponseSection.id section = Some stored
     /\ ResponseSection.title stored = ResponseSection.title section
     /\ ResponseSection.content stored = ResponseSection.content section
     /\ ResponseSection.orderIndex stored = ResponseSection.orderIndex section
     /\ ResponseSection.updatedAt stored = now
     /\ keepsLockAndAssignment old stored)
  /\ (forall local : ResponseSection.t,
        isInt4 (ResponseSection.id local) = false ->
        table !! ResponseSection.id local = None ->
        patchResponse users now (before ++ local :: section :: after) table
        = patchResponse users now before table).
Proof.
  intros Hbefore Hafter Hid Hold.
  pose proof (saveSections_returns users now before Hbefore table) as Hret.
  split.
  - rewrite (patchResponse_app users now before _ table Hret).
    pose proof (patchResponse_lookup users now before table
                  (ResponseSection.id section)) as P.
    rewrite Hold in P. destruct P as (old' & Hold' & K).
    unfold patchResponse at 1. cbn [saveSections].
    apply Z.eqb_neq in Hid. rewrite Hid.
    rewrite saveFields_update, Hold'.
    fold (patchResponse users now after
            (<[ResponseSection.id section
               := setColumns now (saveFields section) old']>
               (patchResponse users now before table))).
    rewrite (patchResponse_lookup_other users now after _ Hafter).
    rewrite lookup_insert_eq.
    eexists. split; [reflexivity|].
    split; [reflexivity|]. split; [reflexivity|]. split; [reflexivity|].
    split; [reflexivity|].
    apply (keepsLockAndAssignment_trans _ _ _ K). repeat split.
  - intros local Hrange Hnone.
    rewrite (patchResponse_app users now before _ table Hret).
    pose proof (patchResponse_lookup users now before table
                  (ResponseSection.id local)) as P.
    rewrite Hnone in P.
    unfold patchResponse at 1. cbn [saveSections].
    destruct (Z.eqb (ResponseSection.id local) 0) eqn:E.
    { apply Z.eqb_eq in E. rewrite E in Hrange. discriminate. }
    rewrite saveFields_update, P, Hrange. reflexivity.
Qed.

(** ** The properties with a precondition, on the sample data *)

Lemma initial_rows_reset_rate_and_title_witness :
  BudgetRow.customRate reloaded_sarah_row = None
  /\ BudgetRow.customTitle reloaded_sarah_row
     = titleOrEmpty (findUser sample_users (BudgetRow.userId reloaded_sarah_row))
  /\ exists item,
       In item sample_items
       /\ BudgetItem.userId item = BudgetRow.userId reloaded_sarah_row
       /\ BudgetItem.id item = BudgetRow.id reloaded_sarah_row.
Proof.
  apply (initial_rows_reset_rate_and_title sample_users sample_items).
  vm_compute. left. reflexivity.
Defined.

Lemma initial_rows_hours_witness :
  yearHours reloaded_sarah_row Y1
  = lastHours sample_items (BudgetRow.userId reloaded_sarah_row) Y1.
Proof.
  apply (initial_rows_hours sample_users sample_items).
  vm_compute. left. reflexivity.
Defined.

Lemma save_then_reload_witness :
  List.Forall2 (reloadedFrom sample_users)
    (initialRows sample_users stored_sheet) edited_sheet.
Proof.
  apply save_then_reload.
  - apply List.NoDup_cons; [intros [H|[]]; discriminate|].
    apply List.NoDup_cons; [intros []|apply List.NoDup_nil].
  - repeat (apply List.Forall2_cons;
            [split; [reflexivity|split; [reflexivity|vm_compute; reflexivity]]|]).
    apply List.Forall2_nil.
Defined.

Lemma save_skips_local_sections_witness :
  patchResponse staff 2000
    (loadTemplate 1730000000000 (Some 1) sample_template [rewritten_section])
    locked_table
  = patchResponse staff 2000 [rewritten_section] locked_table
  /\ patchResponse staff 2000
       (handleFileUpload 1730000000000 (Some 1)
          (Some (UploadedFile.mk "plan.pdf" "application/pdf"))
          [rewritten_section])
       locked_table
     = patchResponse staff 2000 [rewritten_section] locked_table
  /\ patchResponse staff 2000
       (loadTemplate 1730000000000 (Some 1) sample_template []) locked_table
     = locked_table.
Proof.
  apply save_skips_local_sections. reflexivity.
Defined.

Lemma sample_db_well_formed : wellFormedDb sample_db.
Proof.
  intros id section H. unfold sample_db, locked_table in H.
  cbn [Db.sections] in H.
  apply lookup_singleton_Some in H as [<- <-].
  split; [reflexivity|]. split; [reflexivity|].
  split; [discriminate|reflexivity].
Defined.

Lemma editor_requests_keep_table_well_formed_witness :
  wellFormedDb (serveAll staff sample_requests sample_db).
Proof.
  apply editor_requests_keep_table_well_formed. exact sample_db_well_formed.
Defined.


Lemma any_manager_can_unlock_witness :
  exists table' section',
    lockButtonClick "pm-b" true staff 300 locked_section locked_table
    = Some (table', Json section')
    /\ table' !! ResponseSection.id locked_section = Some section'
    /\ ResponseSection.isLocked section' = Some false
    /\ ResponseSection.lockedByPmId section' = None
    /\ ResponseSection.assignedUserId section'
       = ResponseSection.assignedUserId locked_section
    /\ (forall assignee,
          ResponseSection.assignedUserId locked_section = Some assignee ->
          canEdit assignee false locked_section = false
          /\ canEdit assignee false section' = true).
Proof.
  apply any_manager_can_unlock; reflexivity.
Defined.

Lemma unknown_consultant_is_ignored_witness :
  searchRfps sample_rfps sample_users sample_responses unknown_consultant
  = searchRfps sample_rfps sample_users sample_responses
      (withoutConsultant unknown_consultant).
Proof.
  apply unknown_consultant_is_ignored. reflexivity.
Defined.

Lemma save_writes_locked_sections_witness :
  (exists stored,
     patchResponse staff 400 ([other_section] ++ rewritten_section :: [])
       two_sections
     !! ResponseSection.id rewritten_section = Some stored
     /\ ResponseSection.title stored = ResponseSection.title rewritten_section
     /\ ResponseSection.content stored = ResponseSection.content rewritten_section
     /\ ResponseSection.orderIndex stored
        = ResponseSection.orderIndex rewritten_section
     /\ ResponseSection.updatedAt stored = 400
     /\ keepsLockAndAssignment locked_section stored)
  /\ (forall local : ResponseSection.t,
        isInt4 (ResponseSection.id local) = false ->
        two_sections !! ResponseSection.id local = None ->
        patchResponse staff 400
          ([other_section] ++ local :: rewritten_section :: []) two_sections
        = patchResponse staff 400 [other_section] two_sections).
Proof.
  apply save_writes_locked_sections.
  - constructor; [reflexivity|constructor].
  - intros s [].
  - discriminate.
  - reflexivity.
Defined.
